(** * Amalyze: the review-scraping pipeline

    A shallow embedding of the scraping core of the repository:
    - [utils.extract_product_id] and [utils.make_request_with_backoff],
    - [config.get_random_delay], [config.get_random_user_agent] and the
      configuration tables,
    - [ReviewScraper.scrape_reviews], [ReviewScraper._scrape_single_page]
      and [ReviewScraper._extract_reviews_from_page].

    Sequential code is written in a state monad over an explicit world
    (the network, the random generator, the wall clock and the log are
    oracles of an environment; the world counts how often each one was
    consulted and records a trace of observable events).  The worker pool
    of [scrape_reviews] is modelled a second time, as an interleaving step
    relation over the program points of [_scrape_single_page], to reason
    about the semaphore and about the shared counters. *)

From Stdlib Require Import ZArith QArith String Ascii List Lia Lqa Bool.
From Stdlib Require Import DecimalString.
From stdpp Require Import base list gmap strings.
Import ListNotations.
Open Scope Z_scope.

(** ** Python primitives *)

(** [range(start, stop, step)] for a non-zero [step] (the length is the one
    CPython computes; [step = 0] raises [ValueError] and is not used by the
    program). *)
Definition py_range (start stop step : Z) : list Z :=
  let n := if 0 <? step then (stop - start + step - 1) / step
           else if step <? 0 then (start - stop - step - 1) / (- step)
           else 0 in
  map (fun i => start + step * Z.of_nat i) (seq 0 (Z.to_nat n)).

(** [needle in s] on strings. *)
Fixpoint str_in (needle s : string) : bool :=
  String.prefix needle s ||
  match s with
  | EmptyString => false
  | String _ s' => str_in needle s'
  end.

Fixpoint str_drop (n : nat) (s : string) : string :=
  match n, s with
  | O, _ => s
  | S n', String _ s' => str_drop n' s'
  | S _, EmptyString => EmptyString
  end.

Fixpoint str_forallb (p : ascii -> bool) (s : string) : bool :=
  match s with
  | EmptyString => true
  | String c s' => p c && str_forallb p s'
  end.

Definition is_digit (c : ascii) : bool :=
  let n := nat_of_ascii c in (48 <=? n)%nat && (n <=? 57)%nat.

Definition is_upper (c : ascii) : bool :=
  let n := nat_of_ascii c in (65 <=? n)%nat && (n <=? 90)%nat.

(** [str(n)] of an integer. *)
Definition str_of_Z (n : Z) : string := NilZero.string_of_int (Z.to_int n).

(** ** config.py *)

Definition BASE_URL : string := "https://www.amazon.in".

Definition MAX_THREADS : Z := 10.
Definition MAX_RETRIES : Z := 3.
Definition MAX_PAGES_PER_STAR : Z := 10.
Definition MIN_DELAY : Q := 3 # 2.
Definition MAX_DELAY : Q := 7 # 2.

Definition USER_AGENTS : list string :=
  [ "Mozilla/5.0 (Windows NT 10.0; Win64; x64) AppleWebKit/537.36 (KHTML, like Gecko) Chrome/109.0.0.0 Safari/537.36";
    "Mozilla/5.0 (Macintosh; Intel Mac OS X 10_15_7) AppleWebKit/537.36 (KHTML, like Gecko) Chrome/109.0.0.0 Safari/537.36";
    "Mozilla/5.0 (Windows NT 10.0; Win64; x64; rv:109.0) Gecko/20100101 Firefox/109.0";
    "Mozilla/5.0 (Macintosh; Intel Mac OS X 10_15_7) AppleWebKit/605.1.15 (KHTML, like Gecko) Version/16.3 Safari/605.1.15";
    "Mozilla/5.0 (Windows NT 10.0; Win64; x64) AppleWebKit/537.36 (KHTML, like Gecko) Chrome/109.0.0.0 Safari/537.36 Edg/109.0.1518.78";
    "Mozilla/5.0 (Macintosh; Intel Mac OS X 10_15_7) AppleWebKit/537.36 (KHTML, like Gecko) Chrome/108.0.0.0 Safari/537.36";
    "Mozilla/5.0 (X11; Linux x86_64) AppleWebKit/537.36 (KHTML, like Gecko) Chrome/108.0.0.0 Safari/537.36" ]%string.

(** The dictionary [STAR_FILTERS]. *)
Definition STAR_FILTERS : gmap Z string :=
  <[5 := "five_star"%string]>
  (<[4 := "four_star"%string]>
  (<[3 := "three_star"%string]>
  (<[2 := "two_star"%string]>
  (<[1 := "one_star"%string]> ∅)))).

(** [REVIEWS_URL_PATTERN.format(product_id=..., star_filter=..., page=...)]. *)
Definition REVIEWS_URL (product_id star_filter : string) (page : Z) : string :=
  (BASE_URL ++ "/product-reviews/" ++ product_id
     ++ "/ref=cm_cr_arp_d_viewopt_sr?ie=UTF8&reviewerType=all_reviews&filterByStar="
     ++ star_filter ++ "&pageNumber=" ++ str_of_Z page)%string.

(** The dictionary [REVIEW_SELECTORS], one definition per key. *)
Module REVIEW_SELECTORS.
Definition container : string := "[data-hook='review']".
Definition title : string := "[data-hook='review-title'] span".
Definition text : string := "[data-hook='review-body'] span".
Definition date : string := "[data-hook='review-date']".
Definition verified : string := "[data-hook='avp-badge']".
Definition author : string := ".a-profile-name".
Definition rating : string := "i.review-rating".
End REVIEW_SELECTORS.

(** ** The task grid of [scrape_reviews] (lines 78-81) *)

Definition ScrapeTask : Type := Z * Z.

Definition scrape_tasks (max_pages_per_star : Z) : list ScrapeTask :=
  flat_map (fun star_rating =>
     map (fun page_number => (star_rating, page_number))
         (py_range 1 (max_pages_per_star + 1) 1))
    (py_range 5 0 (-1)).

(** ** The world: network, random generator, clock, log *)

Module requests.
(** A [requests.Session]: opaque to the scraper, which only passes it on. *)
Record Session := { headers : list (string * string);
                    cookies : list (string * string) }.

Record Response := { status_code : Z; text : string }.

(** [Response.__bool__] is [Response.ok]: no 4xx or 5xx status. *)
Definition ok (r : Response) : bool :=
  negb ((400 <=? status_code r) && (status_code r <? 600)).

(** What [session.get(url, timeout=10)] does: it returns a response or
    raises a [requests.RequestException]. *)
Inductive Outcome := Raises_RequestException | Returns (r : Response).
End requests.

Inductive Level := INFO | WARNING | ERROR.

(** One scraped review: the dictionary [review_data].  [star_rating] is a
    Python float or the integer star filter; both are rationals here. *)
Record Review := {
  star_rating : Q;
  title : string;
  text : string;
  date : string;
  verified : bool;
  author : string;
  extracted_date : string }.

(** The log records of [utils.py] and [reviews_scraper.py], one constructor
    per message, with the values the message is formatted from. *)
Inductive LogMsg :=
| Request_failed_with_status_code (code : Z)
| Request_failed
| Retrying_in (wait_time : Q) (attempt max_retries : Z)
| Invalid_product_URL (url : string)
| Starting_review_scraping (product_id : string)
| No_session_provided
| Failed_to_access_Amazon_reviews
| Amazon_is_requiring_login_or_showing_a_captcha
| Initial_access_test_passed
| Completed_task (star page : Z) (reviews_count : Z)
| Error_scraping (star page : Z)
| Completed_scraping (collected : nat)
| Successful_and_failed_requests (successful failed : Z)
| Reviews_saved_to (product_id : string)
| No_reviews_were_collected
| Failed_to_get_response (star page : Z)
| Hit_login_wall_or_captcha (star page : Z)
| No_review_elements_found.

(** Observable events.  [Fetch] marks one call of
    [make_request_with_backoff]; [Get] is one [session.get]. *)
Inductive Event :=
| Sleep (seconds : Q)
| Fetch (url : string)
| Get (s : requests.Session) (url : string)
| Log (lvl : Level) (msg : LogMsg)
| To_csv (product_id : string) (rows : list Review).

(** The environment answers the program's questions: the outcome of the
    i-th HTTP GET, the 53 random bits behind the i-th [random.random()],
    the index picked by the i-th [random.choice], the text of the i-th
    [datetime.now().strftime(...)]. *)
Record Env := {
  http_get : nat -> requests.Session -> string -> requests.Outcome;
  random_bits : nat -> Z;
  choice_index : nat -> nat;
  now : nat -> string }.

Record World := {
  n_get : nat;
  n_random : nat;
  n_choice : nat;
  n_now : nat;
  trace : list Event }.

Definition world0 : World :=
  {| n_get := 0; n_random := 0; n_choice := 0; n_now := 0; trace := [] |}.

(** A state monad. *)
Definition M (S A : Type) : Type := S -> A * S.

Definition ret {S A : Type} (a : A) : M S A := fun s => (a, s).

Definition bind {S A B : Type} (c : M S A) (k : A -> M S B) : M S B :=
  fun s => let r := c s in k (fst r) (snd r).

Notation "x <- c ;; k" := (bind c (fun x => k))
  (at level 100, c at next level, right associativity).
Notation "c ;;; k" := (bind c (fun _ => k))
  (at level 100, right associativity).

Definition emit (e : Event) : M World unit :=
  fun w => (tt, {| n_get := n_get w; n_random := n_random w;
                   n_choice := n_choice w; n_now := n_now w;
                   trace := trace w ++ [e] |}).

Definition time_sleep (seconds : Q) : M World unit := emit (Sleep seconds).

Definition log (lvl : Level) (msg : LogMsg) : M World unit := emit (Log lvl msg).

(** [random.random()]: a multiple of [2^-53] in the interval [0, 1). *)
Definition random_random (E : Env) : M World Q :=
  fun w => (Qmake (random_bits E (n_random w) mod 2 ^ 53) (2 ^ 53),
            {| n_get := n_get w; n_random := S (n_random w);
               n_choice := n_choice w; n_now := n_now w;
               trace := trace w |}).

(** [random.uniform(a, b)] is [a + (b - a) * random()]. *)
Definition random_uniform (E : Env) (a b : Q) : M World Q :=
  u <- random_random E ;; ret (a + (b - a) * u)%Q.

Definition random_choice (E : Env) (l : list string) : M World string :=
  fun w => (nth (choice_index E (n_choice w) mod List.length l)%nat l ""%string,
            {| n_get := n_get w; n_random := n_random w;
               n_choice := S (n_choice w); n_now := n_now w;
               trace := trace w |}).

Definition session_get (E : Env) (s : requests.Session) (url : string)
  : M World requests.Outcome :=
  fun w => (http_get E (n_get w) s url,
            {| n_get := S (n_get w); n_random := n_random w;
               n_choice := n_choice w; n_now := n_now w;
               trace := trace w ++ [Get s url] |}).

Definition datetime_now (E : Env) : M World string :=
  fun w => (now E (n_now w),
            {| n_get := n_get w; n_random := n_random w;
               n_choice := n_choice w; n_now := S (n_now w);
               trace := trace w |}).

(** [config.get_random_delay] and [config.get_random_user_agent]. *)
Definition get_random_delay (E : Env) : M World Q :=
  random_uniform E MIN_DELAY MAX_DELAY.

Definition get_random_user_agent (E : Env) : M World string :=
  random_choice E USER_AGENTS.

(** ** utils.py *)

(** [re.search(prefix + '([A-Z0-9]{10})', s)], returning group 1. *)
Definition match_id_here (pre s : string) : option string :=
  if String.prefix pre s then
    let cand := substring 0 10 (str_drop (String.length pre) s) in
    if (String.length cand =? 10)%nat
       && str_forallb (fun c => is_upper c || is_digit c) cand
    then Some cand else None
  else None.

Fixpoint re_search_id (pre s : string) : option string :=
  match match_id_here pre s with
  | Some g => Some g
  | None => match s with
            | EmptyString => None
            | String _ s' => re_search_id pre s'
            end
  end.

Definition extract_product_id (url : string) : option string :=
  let patterns := ["/dp/"; "/product/"; "/gp/product/"]%string in
  fold_right (fun pattern rest =>
                match re_search_id pattern url with
                | Some g => Some g
                | None => rest
                end) None patterns.

(** The [while retry < max_retries] loop of [make_request_with_backoff].
    Every iteration that does not return increments [retry], so
    [max_retries - retry] iterations are enough; [fuel] bounds them. *)
Fixpoint backoff_loop (E : Env) (url : string) (session : requests.Session)
    (max_retries : Z) (fuel : nat) (retry : Z)
  : M World (option requests.Response) :=
  match fuel with
  | O => ret None
  | S fuel' =>
    if retry <? max_retries then
      delay <- get_random_delay E ;;
      time_sleep delay ;;;
      r <- session_get E session url ;;
      match r with
      | requests.Returns response =>
        if requests.status_code response =? 200 then ret (Some response)
        else
          log WARNING (Request_failed_with_status_code (requests.status_code response)) ;;;
          let retry := retry + 1 in
          jitter <- random_uniform E 0 1 ;;
          let wait_time := (inject_Z (2 ^ retry) + jitter)%Q in
          log INFO (Retrying_in wait_time retry max_retries) ;;;
          time_sleep wait_time ;;;
          backoff_loop E url session max_retries fuel' retry
      | requests.Raises_RequestException =>
        log WARNING Request_failed ;;;
        let retry := retry + 1 in
        jitter <- random_uniform E 0 1 ;;
        let wait_time := (inject_Z (2 ^ retry) + jitter)%Q in
        log INFO (Retrying_in wait_time retry max_retries) ;;;
        time_sleep wait_time ;;;
        backoff_loop E url session max_retries fuel' retry
      end
    else ret None
  end.

Definition make_request_with_backoff (E : Env) (url : string)
    (session : option requests.Session) (max_retries : Z)
  : M World (option requests.Response) :=
  emit (Fetch url) ;;;
  session <- match session with
             | Some s => ret s
             | None =>
               ua <- get_random_user_agent E ;;
               ret {| requests.headers := [("User-Agent", ua)]%string;
                      requests.cookies := [] |}
             end ;;
  backoff_loop E url session max_retries (Z.to_nat max_retries) 0.

(** ** Strings and numbers read from a page *)

(** ASCII characters for which [str.isspace] holds. *)
Definition is_space (c : ascii) : bool :=
  let n := nat_of_ascii c in
  ((9 <=? n)%nat && (n <=? 13)%nat) || ((28 <=? n)%nat && (n <=? 32)%nat).

Fixpoint lstrip (s : string) : string :=
  match s with
  | String c s' => if is_space c then lstrip s' else s
  | EmptyString => EmptyString
  end.

Fixpoint rstrip (s : string) : string :=
  match s with
  | EmptyString => EmptyString
  | String c s' =>
    match rstrip s' with
    | EmptyString => if is_space c then EmptyString else String c EmptyString
    | r => String c r
    end
  end.

(** [s.strip()]. *)
Definition strip (s : string) : string := rstrip (lstrip s).

(** The longest prefix of digits, and what follows it. *)
Fixpoint span_digits (s : string) : string * string :=
  match s with
  | String c s' =>
    if is_digit c then (String c (fst (span_digits s')), snd (span_digits s'))
    else (EmptyString, s)
  | EmptyString => (EmptyString, EmptyString)
  end.

(** A match of [(\d+(\.\d+)?)] that starts at the head of [s]. *)
Definition match_number_here (s : string) : option string :=
  match span_digits s with
  | (EmptyString, _) => None
  | (ds, String "."%char rest) =>
    match fst (span_digits rest) with
    | EmptyString => Some ds
    | fs => Some (ds ++ "." ++ fs)%string
    end
  | (ds, _) => Some ds
  end.

(** [re.search(r'(\d+(\.\d+)?)', s)], returning group 1. *)
Fixpoint re_search_number (s : string) : option string :=
  match match_number_here s with
  | Some m => Some m
  | None => match s with
            | EmptyString => None
            | String _ s' => re_search_number s'
            end
  end.

Fixpoint int_of_digits (acc : Z) (s : string) : Z :=
  match s with
  | EmptyString => acc
  | String c s' => int_of_digits (10 * acc + Z.of_nat (nat_of_ascii c - 48)) s'
  end.

(** [float(m)] for a match [m] of the pattern above, as the exact rational
    the decimal denotes, in lowest terms. *)
Definition float_of_decimal (m : string) : Q :=
  let ds := fst (span_digits m) in
  let fs := match snd (span_digits m) with
            | String "."%char rest => fst (span_digits rest)
            | _ => EmptyString
            end in
  Qred (Qmake (int_of_digits (int_of_digits 0 ds) fs)
              (Z.to_pos (10 ^ Z.of_nat (String.length fs)))).

(** ** BeautifulSoup, as an interface *)

(** The parser and the selector engine are a library: the scraper is
    verified against any implementation of the operations it calls. *)
Class Bs4 := {
  Tag : Type;
  BeautifulSoup : string -> Tag;
  select : Tag -> string -> list Tag;
  select_one : Tag -> string -> option Tag;
  get_text : Tag -> string }.

(** ** reviews_scraper.py *)

Record ReviewScraper := {
  session : option requests.Session;
  max_threads : Z;
  reviews_queue : list Review;
  total_reviews : Z;
  successful_requests : Z;
  failed_requests : Z }.

(** [ReviewScraper.__init__]: [Semaphore(max_threads)] raises [ValueError]
    for a negative value. *)
Definition ReviewScraper__init__ (session : option requests.Session)
    (max_threads : Z) : option ReviewScraper :=
  if max_threads <? 0 then None
  else Some {| session := session; max_threads := max_threads;
               reviews_queue := []; total_reviews := 0;
               successful_requests := 0; failed_requests := 0 |}.

Definition St : Type := ReviewScraper * World.

Definition lift {A : Type} (c : M World A) : M St A :=
  fun st => let r := c (snd st) in (fst r, (fst st, snd r)).

Definition get_self : M St ReviewScraper := fun st => (fst st, st).

Definition set_self (f : ReviewScraper -> ReviewScraper) : M St unit :=
  fun st => (tt, (f (fst st), snd st)).

(** [self.reviews_queue.put(review_data)]. *)
Definition queue_put (r : Review) : M St unit :=
  set_self (fun self =>
    {| session := session self; max_threads := max_threads self;
       reviews_queue := reviews_queue self ++ [r];
       total_reviews := total_reviews self;
       successful_requests := successful_requests self;
       failed_requests := failed_requests self |}).

(** [self.failed_requests += 1]. *)
Definition incr_failed_requests : M St unit :=
  set_self (fun self =>
    {| session := session self; max_threads := max_threads self;
       reviews_queue := reviews_queue self;
       total_reviews := total_reviews self;
       successful_requests := successful_requests self;
       failed_requests := failed_requests self + 1 |}).

(** [self.successful_requests += 1]. *)
Definition incr_successful_requests : M St unit :=
  set_self (fun self =>
    {| session := session self; max_threads := max_threads self;
       reviews_queue := reviews_queue self;
       total_reviews := total_reviews self;
       successful_requests := successful_requests self + 1;
       failed_requests := failed_requests self |}).

(** The login-wall and captcha markers. *)
Definition soft_blocked (body : string) : bool :=
  str_in "Sign in to continue" body
  || str_in "Type the characters you see in this image" body.

(** [elem.get_text().strip() if elem else ""]. *)
Definition text_or_empty `{Bs4} (elem : option Tag) : string :=
  match elem with
  | Some e => strip (get_text e)
  | None => EmptyString
  end.

(** [element.select_one(first)], and [element.select_one(second)] when
    the first finds nothing. *)
Definition select_one_or `{Bs4} (element : Tag) (first second : string)
  : option Tag :=
  match select_one element first with
  | Some e => Some e
  | None => select_one element second
  end.

(** The body of the [for element in review_elements] loop, up to the
    dictionary [review_data] (lines 184-224).  The operations of the
    interface are total, so the [except] branch that skips a review is
    never taken. *)
Definition review_data `{Bs4} (E : Env) (element : Tag) (star_rating : Z)
  : M World Review :=
  let title :=
    text_or_empty (select_one_or element REVIEW_SELECTORS.title
                                 "[data-hook='review-title']") in
  let text :=
    text_or_empty (select_one_or element REVIEW_SELECTORS.text
                                 "[data-hook='review-body']") in
  let date_text := text_or_empty (select_one element REVIEW_SELECTORS.date) in
  let verified :=
    match select_one element REVIEW_SELECTORS.verified with
    | Some _ => true
    | None => false
    end in
  let author := text_or_empty (select_one element REVIEW_SELECTORS.author) in
  let extracted_rating :=
    match select_one element REVIEW_SELECTORS.rating with
    | Some rating_elem =>
      match re_search_number (strip (get_text rating_elem)) with
      | Some m => float_of_decimal m
      | None => inject_Z star_rating
      end
    | None => inject_Z star_rating
    end in
  stamp <- datetime_now E ;;
  ret {| star_rating := extracted_rating; title := title; text := text;
         date := date_text; verified := verified; author := author;
         extracted_date := stamp |}.

Fixpoint extract_loop `{Bs4} (E : Env) (review_elements : list Tag)
    (star_rating : Z) (count : Z) : M St Z :=
  match review_elements with
  | [] => ret count
  | element :: rest =>
    r <- lift (review_data E element star_rating) ;;
    queue_put r ;;;
    extract_loop E rest star_rating (count + 1)
  end.

Definition _extract_reviews_from_page `{Bs4} (E : Env) (html_content : string)
    (star_rating : Z) : M St Z :=
  let soup := BeautifulSoup html_content in
  let review_elements := select soup REVIEW_SELECTORS.container in
  match review_elements with
  | [] => lift (log WARNING No_review_elements_found) ;;; ret 0
  | _ => extract_loop E review_elements star_rating 0
  end.

(** How a call ends: it returns, or it raises ([KeyError] from
    [STAR_FILTERS[star_rating]], [ValueError] from the executor). *)
Inductive Completion (A : Type) :=
| Returned (a : A)
| Raised_KeyError
| Raised_ValueError.
Arguments Returned {A} a.
Arguments Raised_KeyError {A}.
Arguments Raised_ValueError {A}.

(** [not response]: [None], or a response that is not [ok]. *)
Definition falsy (response : option requests.Response) : bool :=
  match response with
  | None => true
  | Some r => negb (requests.ok r)
  end.

(** The longer delay for the first pages (lines 145-147). *)
Definition first_pages_delay (E : Env) (page_number : Z) : M St unit :=
  if page_number <=? 2
  then delay <- lift (get_random_delay E) ;; lift (time_sleep (2 + delay)%Q)
  else ret tt.

(** The body of [with self.semaphore:] in [_scrape_single_page].  The
    semaphore itself is in the pool model below. *)
Definition _scrape_single_page `{Bs4} (E : Env) (product_id : string)
    (star_rating page_number : Z) : M St (Completion Z) :=
  match STAR_FILTERS !! star_rating with
  | None => ret Raised_KeyError
  | Some star_filter =>
    let url := REVIEWS_URL product_id star_filter page_number in
    first_pages_delay E page_number ;;;
    self <- get_self ;;
    response <- lift (make_request_with_backoff E url (session self) 3) ;;
    match response with
    | Some r =>
      if falsy response then
        incr_failed_requests ;;;
        lift (log WARNING (Failed_to_get_response star_rating page_number)) ;;;
        ret (Returned 0)
      else if soft_blocked (requests.text r) then
        lift (log ERROR (Hit_login_wall_or_captcha star_rating page_number)) ;;;
        incr_failed_requests ;;;
        ret (Returned 0)
      else
        incr_successful_requests ;;;
        n <- _extract_reviews_from_page E (requests.text r) star_rating ;;
        ret (Returned n)
    | None =>
      incr_failed_requests ;;;
      lift (log WARNING (Failed_to_get_response star_rating page_number)) ;;;
      ret (Returned 0)
    end
  end.

(** The worker pool under the schedule that runs the submitted tasks to
    completion one after the other, in submission order; the record logged
    when a future completes follows its task.  This is how a pool of one
    worker ([max_threads = 1]) runs them.  With more workers it is one
    schedule among those of the pool model below: what depends on the
    order of the tasks or on the values of the counters is stated for one
    worker, or on the pool model. *)
Fixpoint run_tasks `{Bs4} (E : Env) (product_id : string)
    (tasks : list ScrapeTask) : M St unit :=
  match tasks with
  | [] => ret tt
  | (star_rating, page_number) :: rest =>
    r <- _scrape_single_page E product_id star_rating page_number ;;
    match r with
    | Returned reviews_count =>
      lift (log INFO (Completed_task star_rating page_number reviews_count))
    | _ => lift (log ERROR (Error_scraping star_rating page_number))
    end ;;;
    run_tasks E product_id rest
  end.

(** Draining [self.reviews_queue] into the list [reviews]. *)
Definition drain_queue : M St (list Review) :=
  fun st =>
    (reviews_queue (fst st),
     ({| session := session (fst st); max_threads := max_threads (fst st);
         reviews_queue := []; total_reviews := total_reviews (fst st);
         successful_requests := successful_requests (fst st);
         failed_requests := failed_requests (fst st) |}, snd st)).

(** A [pandas.DataFrame] is its list of rows; [pd.DataFrame()] is [[]]. *)
Definition DataFrame : Type := list Review.

(** The [test_url] of the canary fetch. *)
Definition canary_url (product_id : string) : string :=
  ("https://www.amazon.in/product-reviews/" ++ product_id)%string.

Definition scrape_reviews `{Bs4} (E : Env) (product_url : string)
    (max_pages_per_star : Z) : M St (Completion DataFrame) :=
  match extract_product_id product_url with
  | None =>
    lift (log ERROR (Invalid_product_URL product_url)) ;;;
    ret (Returned [])
  | Some product_id =>
    lift (log INFO (Starting_review_scraping product_id)) ;;;
    self <- get_self ;;
    match session self with
    | None =>
      lift (log ERROR No_session_provided) ;;;
      ret (Returned [])
    | Some s =>
      let test_url := canary_url product_id in
      test_response <- lift (make_request_with_backoff E test_url (Some s) 3) ;;
      match test_response with
      | None =>
        lift (log ERROR Failed_to_access_Amazon_reviews) ;;;
        ret (Returned [])
      | Some r =>
        if soft_blocked (requests.text r) then
          lift (log ERROR Amazon_is_requiring_login_or_showing_a_captcha) ;;;
          ret (Returned [])
        else
          lift (log INFO Initial_access_test_passed) ;;;
          let tasks := scrape_tasks max_pages_per_star in
          if max_threads self <=? 0 then ret Raised_ValueError
          else
            run_tasks E product_id tasks ;;;
            reviews <- drain_queue ;;
            lift (log INFO (Completed_scraping (List.length reviews))) ;;;
            self <- get_self ;;
            lift (log INFO (Successful_and_failed_requests
                              (successful_requests self) (failed_requests self))) ;;;
            match reviews with
            | [] =>
              lift (log WARNING No_reviews_were_collected) ;;;
              ret (Returned reviews)
            | _ =>
              lift (emit (To_csv product_id reviews)) ;;;
              lift (log INFO (Reviews_saved_to product_id)) ;;;
              ret (Returned reviews)
            end
      end
    end
  end.



(** ** Closed forms used by the statements *)

(** The value of the i-th [random.random()]. *)
Definition rnd (E : Env) (i : nat) : Q :=
  Qmake (random_bits E i mod 2 ^ 53) (2 ^ 53).

(** The session the fetcher uses: the caller's, or a fresh one carrying a
    random user agent. *)
Definition effective_session (E : Env) (session : option requests.Session)
    (w : World) : requests.Session :=
  match session with
  | Some s => s
  | None =>
    {| requests.headers :=
         [("User-Agent"%string,
           nth (choice_index E (n_choice w) mod List.length USER_AGENTS)%nat
               USER_AGENTS ""%string)];
       requests.cookies := [] |}
  end.

(** An attempt succeeds when the GET returns status 200. *)
Definition is_200 (o : requests.Outcome) : bool :=
  match o with
  | requests.Returns r => requests.status_code r =? 200
  | requests.Raises_RequestException => false
  end.

Definition count_gets (evs : list Event) : nat :=
  List.length (List.filter (fun e => match e with Get _ _ => true | _ => false end) evs).

Definition count_fetches (evs : list Event) : nat :=
  List.length (List.filter (fun e => match e with Fetch _ => true | _ => false end) evs).

Definition count_sleeps (evs : list Event) : nat :=
  List.length (List.filter (fun e => match e with Sleep _ => true | _ => false end) evs).

(** The backoff waits of a trace: the sleeps announced by a
    "Retrying in ..." record. *)
Fixpoint backoff_sleeps (evs : list Event) : list Q :=
  match evs with
  | Log INFO (Retrying_in _ _ _) :: Sleep d :: rest => d :: backoff_sleeps rest
  | _ :: rest => backoff_sleeps rest
  | [] => []
  end.

Definition Qsum (l : list Q) : Q := fold_right Qplus 0%Q l.

(** The pre-request delay drawn from the i-th random number, and the
    backoff wait after failed attempt number [retry] with the i-th random
    number as its jitter, as [random.uniform] computes them. *)
Definition jitter_delay (E : Env) (i : nat) : Q :=
  (MIN_DELAY + (MAX_DELAY - MIN_DELAY) * rnd E i)%Q.

Definition backoff_wait (E : Env) (retry : Z) (i : nat) : Q :=
  (inject_Z (2 ^ retry) + (0 + (1 - 0) * rnd E i))%Q.

Definition failure_record (o : requests.Outcome) : LogMsg :=
  match o with
  | requests.Returns r => Request_failed_with_status_code (requests.status_code r)
  | requests.Raises_RequestException => Request_failed
  end.

(** The events of one failed attempt that starts with [ng] GETs made,
    [nr] random numbers drawn and the loop variable at [retry]. *)
Definition failed_attempt (E : Env) (s : requests.Session) (url : string)
    (max_retries : Z) (ng nr : nat) (retry : Z) : list Event :=
  [ Sleep (jitter_delay E nr);
    Get s url;
    Log WARNING (failure_record (http_get E ng s url));
    Log INFO (Retrying_in (backoff_wait E (retry + 1) (S nr)) (retry + 1) max_retries);
    Sleep (backoff_wait E (retry + 1) (S nr)) ].

Fixpoint failed_attempts (E : Env) (s : requests.Session) (url : string)
    (max_retries : Z) (k ng nr : nat) (retry : Z) : list Event :=
  match k with
  | O => []
  | S k' =>
    failed_attempt E s url max_retries ng nr retry
    ++ failed_attempts E s url max_retries k' (S ng) (S (S nr)) (retry + 1)
  end.

(** The first [k] GETs from index [ng] on all fail. *)
Definition all_fail (E : Env) (s : requests.Session) (url : string)
    (ng k : nat) : Prop :=
  forall j, (j < k)%nat -> is_200 (http_get E (ng + j) s url) = false.

(** The world after [k] more GETs, [r] more random numbers and the
    events [evs]. *)
Definition advance (w : World) (k r : nat) (evs : list Event) : World :=
  {| n_get := n_get w + k; n_random := n_random w + r;
     n_choice := n_choice w; n_now := n_now w;
     trace := trace w ++ evs |}.

(** The world in which the retry loop starts: the call is recorded and,
    without a session, a user agent has been picked. *)
Definition start_world (url : string) (session : option requests.Session)
    (w : World) : World :=
  {| n_get := n_get w; n_random := n_random w;
     n_choice := match session with
                 | Some _ => n_choice w
                 | None => S (n_choice w)
                 end;
     n_now := n_now w;
     trace := trace w ++ [Fetch url] |}.

(** The backoff waits after failed attempts [1..k] of a call that starts
    with [nr] random numbers drawn: attempt [a] waits [2^a] plus the
    jitter drawn from random number [nr + 2a - 1]. *)
Definition backoff_waits (E : Env) (nr k : nat) : list Q :=
  map (fun a => backoff_wait E (Z.of_nat a) (nr + 2 * a - 1)) (seq 1 k).

(** ** What one extraction captures *)

Definition advance_clock (w : World) (k : nat) : World :=
  {| n_get := n_get w; n_random := n_random w; n_choice := n_choice w;
     n_now := n_now w + k; trace := trace w |}.

Definition with_queue (self : ReviewScraper) (q : list Review) : ReviewScraper :=
  {| session := session self; max_threads := max_threads self;
     reviews_queue := q; total_reviews := total_reviews self;
     successful_requests := successful_requests self;
     failed_requests := failed_requests self |}.

(** A world that only tells how often the clock was read. *)
Definition clock_world (i : nat) : World :=
  {| n_get := 0; n_random := 0; n_choice := 0; n_now := i; trace := [] |}.

(** The review built from [element] at the i-th reading of the clock. *)
Definition review_at `{Bs4} (E : Env) (element : Tag) (star_rating : Z)
    (i : nat) : Review :=
  fst (review_data E element star_rating (clock_world i)).

Fixpoint reviews_at `{Bs4} (E : Env) (review_elements : list Tag)
    (star_rating : Z) (i : nat) : list Review :=
  match review_elements with
  | [] => []
  | element :: rest =>
    review_at E element star_rating i :: reviews_at E rest star_rating (S i)
  end.

(** The reviews one call of [_extract_reviews_from_page] appends to the
    queue. *)
Definition captured `{Bs4} (E : Env) (html_content : string)
    (star_rating : Z) (st : St) : list Review :=
  skipn (List.length (reviews_queue (fst st)))
        (reviews_queue
           (fst (snd (_extract_reviews_from_page E html_content star_rating st)))).

(** Two reviews that agree on every field but the capture timestamp. *)
Definition same_but_extracted_date (a b : Review) : Prop :=
  star_rating a = star_rating b /\ title a = title b /\ text a = text b
  /\ date a = date b /\ verified a = verified b /\ author a = author b.

(** ** Fixtures: a session, pages, a parser for them, environments *)

Definition session0 : requests.Session :=
  {| requests.headers := [("User-Agent", "Mozilla/5.0")]%string;
     requests.cookies := [("session-id", "257-0000000-0000000")]%string |}.

(** A parsed tag of the fixture parser: its text and, per selector, the
    tags the selector finds below it. *)
#[warnings="-register-all"] Inductive FixTag :=
| FixNode (content : string) (found : list (string * list FixTag)).

Definition fix_select (t : FixTag) (selector : string) : list FixTag :=
  match t with
  | FixNode _ found =>
    match List.find (fun kv => String.eqb (fst kv) selector) found with
    | Some kv => snd kv
    | None => []
    end
  end.

Definition fix_get_text (t : FixTag) : string :=
  match t with FixNode content _ => content end.

Definition review_page : string :=
  "<div data-hook='review'><span class='a-profile-name'>Asha</span><i class='review-rating'><span> 4.0 out of 5 stars </span></i><a data-hook='review-title'><span>Good value</span></a><span data-hook='review-date'>Reviewed in India on 1 May 2024</span><span data-hook='avp-badge'>Verified Purchase</span><span data-hook='review-body'><span> Works well. </span></span></div>".

Definition empty_page : string := "<html><body>No reviews yet</body></html>".

Definition login_page : string :=
  "<html><body><h1>Sign in to continue</h1></body></html>".

Definition leaf (content : string) : FixTag := FixNode content [].

Definition review_tag : FixTag :=
  FixNode "Asha 4.0 out of 5 stars Good value Reviewed in India on 1 May 2024 Verified Purchase Works well. "
    [ (REVIEW_SELECTORS.title, [leaf "Good value"]);
      (REVIEW_SELECTORS.text, [leaf " Works well. "]);
      (REVIEW_SELECTORS.date, [leaf "Reviewed in India on 1 May 2024"]);
      (REVIEW_SELECTORS.verified, [leaf "Verified Purchase"]);
      (REVIEW_SELECTORS.author, [leaf "Asha"]);
      (REVIEW_SELECTORS.rating, [leaf " 4.0 out of 5 stars "]) ].

(** The fixture parser knows [review_page]; any other text has no review
    element. *)
Definition fix_parse (html_content : string) : FixTag :=
  if String.eqb html_content review_page
  then FixNode html_content [(REVIEW_SELECTORS.container, [review_tag])]
  else FixNode html_content [].

Definition fix_bs4 : Bs4 :=
  {| Tag := FixTag;
     BeautifulSoup := fix_parse;
     select := fix_select;
     select_one := fun t selector => List.head (fix_select t selector);
     get_text := fix_get_text |}.

Definition response200 (body : string) : requests.Outcome :=
  requests.Returns {| requests.status_code := 200; requests.text := body |}.

(** A clock that advances by one second per reading. *)
Definition ticking_clock (i : nat) : string :=
  ("2024-05-01 10:00:" ++ (if (i <? 10)%nat then "0" else "")
     ++ str_of_Z (Z.of_nat i))%string.

(** Every GET returns 200 with [body]. *)
Definition env_always (body : string) : Env :=
  {| http_get := fun _ _ _ => response200 body;
     random_bits := fun i => Z.of_nat i * 2 ^ 50;
     choice_index := fun i => i;
     now := ticking_clock |}.

(** Every GET raises. *)
Definition env_down : Env :=
  {| http_get := fun _ _ _ => requests.Raises_RequestException;
     random_bits := fun i => Z.of_nat i * 2 ^ 50;
     choice_index := fun i => i;
     now := ticking_clock |}.

(** The first GET raises, the second answers 503, the rest answer 200. *)
Definition env_fail_twice : Env :=
  {| http_get := fun i _ _ =>
       match i with
       | O => requests.Raises_RequestException
       | S O => requests.Returns {| requests.status_code := 503;
                                    requests.text := "Service Unavailable" |}
       | _ => response200 review_page
       end;
     random_bits := fun i => Z.of_nat i * 2 ^ 50;
     choice_index := fun i => i;
     now := ticking_clock |}.

(** The first GET (the canary) answers 200 with [canary]; the GETs for a
    reviews page answer 200 with [page]. *)
Definition env_pages (canary page : string) : Env :=
  {| http_get := fun i _ _ =>
       match i with
       | O => response200 canary
       | _ => response200 page
       end;
     random_bits := fun i => Z.of_nat i * 2 ^ 50;
     choice_index := fun i => i;
     now := ticking_clock |}.

Definition product_url0 : string := "https://www.amazon.in/dp/B0CHX1W1XY/ref=sr_1_1".

Definition scraper0 (session : option requests.Session) (max_threads : Z)
  : ReviewScraper :=
  {| session := session; max_threads := max_threads; reviews_queue := [];
     total_reviews := 0; successful_requests := 0; failed_requests := 0 |}.

(** ** What a fetch finds on the network *)

(** With the default [max_retries = 3], a fetch that starts with [ng] GETs
    made returns [None] when its three GETs fail, and the response [r]
    when [r] is the first 200 among them. *)
Definition fetch_finds (E : Env) (s : requests.Session) (url : string)
    (ng : nat) (o : option requests.Response) : Prop :=
  match o with
  | None => all_fail E s url ng 3
  | Some r =>
    exists k, (k < 3)%nat /\ all_fail E s url ng k
      /\ http_get E (ng + k) s url = requests.Returns r
      /\ requests.status_code r = 200
  end.

(** The canary fetch fails outright, or its body has a soft-block marker. *)
Definition canary_fails (E : Env) (s : requests.Session) (product_id : string)
    (ng : nat) : Prop :=
  fetch_finds E s (canary_url product_id) ng None
  \/ exists r, fetch_finds E s (canary_url product_id) ng (Some r)
       /\ soft_blocked (requests.text r) = true.

Definition canary_passes (E : Env) (s : requests.Session) (product_id : string)
    (ng : nat) : Prop :=
  exists r, fetch_finds E s (canary_url product_id) ng (Some r)
    /\ soft_blocked (requests.text r) = false.

(** The events a run has added to the trace of [w]. *)
Definition new_events (w w' : World) : list Event :=
  skipn (List.length (trace w)) (trace w').

(** [w'] continues [w] with events among which are [n] fetch calls. *)
Definition extends (w w' : World) (n : nat) : Prop :=
  exists evs, trace w' = trace w ++ evs /\ count_fetches evs = n.

(** A task's fetch exhausts its retries, or returns a body with a
    soft-block marker. *)
Definition task_fetch_fails (E : Env) (s : requests.Session) (url : string)
    (ng : nat) : Prop :=
  fetch_finds E s url ng None
  \/ exists r, fetch_finds E s url ng (Some r)
       /\ soft_blocked (requests.text r) = true.

(** ** The worker pool, as an interleaving of program points

    [scrape_reviews] submits every task to a [ThreadPoolExecutor]; each
    worker runs [_scrape_single_page], whose body is guarded by
    [with self.semaphore:] with [self.semaphore = Semaphore(max_threads)].
    A configuration holds the program point of every task, the value of
    the semaphore and the two shared counters.  [self.x += 1] is a read of
    the attribute followed by a write of the incremented value, two steps
    between which other workers may run.  [Queue.put] is thread-safe and
    is part of the extraction step. *)
Module Pool.

(** How a task ends: counted as a failure (no response, or a soft
    block), counted as a success with the number of reviews it
    extracted, or with an exception raised inside the block, by the
    fetch or by the extraction. *)
Inductive outcome :=
| Counted_failure
| Counted_success (reviews_count : Z)
| Fetch_raised
| Extraction_raised.

Inductive pc :=
| Submitted                 (* before [with self.semaphore:], line 138 *)
| Fetching                  (* lines 139-149, in the block *)
| Failing                   (* lines 151, 158: before the read *)
| Failing_loaded (v : Z)    (* [failed_requests] read as [v] *)
| Succeeding                (* line 161: before the read *)
| Succeeding_loaded (v : Z) (* [successful_requests] read as [v] *)
| Extracting                (* line 162 *)
| Leaving (o : outcome)     (* at the end of the block *)
| Finished (o : outcome).   (* after the block: the future is done *)

Record config := {
  threads : list pc;
  semaphore : Z;
  failed_requests : Z;
  successful_requests : Z }.

Definition init (max_threads : Z) (tasks : nat) : config :=
  {| threads := replicate tasks Submitted; semaphore := max_threads;
     failed_requests := 0; successful_requests := 0 |}.

(** Task [i] moves to [p]; the shared state becomes [s], [f], [k]. *)
Definition update (c : config) (i : nat) (p : pc) (s f k : Z) : config :=
  {| threads := <[i := p]> (threads c); semaphore := s;
     failed_requests := f; successful_requests := k |}.

Inductive step (c : config) : config -> Prop :=
| acquire i :
    threads c !! i = Some Submitted -> 0 < semaphore c ->
    step c (update c i Fetching (semaphore c - 1)
                   (failed_requests c) (successful_requests c))
| fetch_fails i :
    threads c !! i = Some Fetching ->
    step c (update c i Failing (semaphore c)
                   (failed_requests c) (successful_requests c))
| fetch_succeeds i :
    threads c !! i = Some Fetching ->
    step c (update c i Succeeding (semaphore c)
                   (failed_requests c) (successful_requests c))
| fetch_raises i :
    threads c !! i = Some Fetching ->
    step c (update c i (Leaving Fetch_raised) (semaphore c)
                   (failed_requests c) (successful_requests c))
| load_failed i :
    threads c !! i = Some Failing ->
    step c (update c i (Failing_loaded (failed_requests c)) (semaphore c)
                   (failed_requests c) (successful_requests c))
| store_failed i v :
    threads c !! i = Some (Failing_loaded v) ->
    step c (update c i (Leaving Counted_failure) (semaphore c)
                   (v + 1) (successful_requests c))
| load_successful i :
    threads c !! i = Some Succeeding ->
    step c (update c i (Succeeding_loaded (successful_requests c)) (semaphore c)
                   (failed_requests c) (successful_requests c))
| store_successful i v :
    threads c !! i = Some (Succeeding_loaded v) ->
    step c (update c i Extracting (semaphore c)
                   (failed_requests c) (v + 1))
| extract i n :
    threads c !! i = Some Extracting ->
    step c (update c i (Leaving (Counted_success n)) (semaphore c)
                   (failed_requests c) (successful_requests c))
| extract_raises i :
    threads c !! i = Some Extracting ->
    step c (update c i (Leaving Extraction_raised) (semaphore c)
                   (failed_requests c) (successful_requests c))
| release i o :
    threads c !! i = Some (Leaving o) ->
    step c (update c i (Finished o) (semaphore c + 1)
                   (failed_requests c) (successful_requests c)).

(** The configurations a pool of [tasks] tasks with a semaphore of
    [max_threads] units can reach. *)
Definition reachable (max_threads : Z) (tasks : nat) (c : config) : Prop :=
  rtc step (init max_threads tasks) c.

(** Inside the [with] block: a unit of the semaphore is held. *)
Definition in_block (p : pc) : bool :=
  match p with
  | Submitted | Finished _ => false
  | _ => true
  end.


Definition finished (p : pc) : bool :=
  match p with
  | Finished _ => true
  | _ => false
  end.

(** Past the write of [self.failed_requests += 1]. *)
Definition counted_failed (p : pc) : bool :=
  match p with
  | Leaving Counted_failure | Finished Counted_failure => true
  | _ => false
  end.

(** Past the write of [self.successful_requests += 1]. *)
Definition counted_successful (p : pc) : bool :=
  match p with
  | Extracting
  | Leaving (Counted_success _) | Finished (Counted_success _)
  | Leaving Extraction_raised | Finished Extraction_raised => true
  | _ => false
  end.

(** How many tasks are at a program point that satisfies [f]. *)
Definition number (f : pc -> bool) (c : config) : Z :=
  Z.of_nat (List.length (List.filter f (threads c))).

(** A schedule names, step by step, the task that moves and how. *)
Inductive action :=
| Acquire (i : nat)
| Fetch_fails (i : nat)
| Fetch_succeeds (i : nat)
| Fetch_raises (i : nat)
| Load_failed (i : nat)
| Store_failed (i : nat)
| Load_successful (i : nat)
| Store_successful (i : nat)
| Extract (i : nat) (n : Z)
| Extract_raises (i : nat)
| Release (i : nat).

Definition exec (a : action) (c : config) : option config :=
  let s := semaphore c in
  let f := failed_requests c in
  let k := successful_requests c in
  match a with
  | Acquire i =>
    match threads c !! i with
    | Some Submitted =>
      if 0 <? s then Some (update c i Fetching (s - 1) f k) else None
    | _ => None
    end
  | Fetch_fails i =>
    match threads c !! i with
    | Some Fetching => Some (update c i Failing s f k)
    | _ => None
    end
  | Fetch_succeeds i =>
    match threads c !! i with
    | Some Fetching => Some (update c i Succeeding s f k)
    | _ => None
    end
  | Fetch_raises i =>
    match threads c !! i with
    | Some Fetching => Some (update c i (Leaving Fetch_raised) s f k)
    | _ => None
    end
  | Load_failed i =>
    match threads c !! i with
    | Some Failing => Some (update c i (Failing_loaded f) s f k)
    | _ => None
    end
  | Store_failed i =>
    match threads c !! i with
    | Some (Failing_loaded v) =>
      Some (update c i (Leaving Counted_failure) s (v + 1) k)
    | _ => None
    end
  | Load_successful i =>
    match threads c !! i with
    | Some Succeeding => Some (update c i (Succeeding_loaded k) s f k)
    | _ => None
    end
  | Store_successful i =>
    match threads c !! i with
    | Some (Succeeding_loaded v) => Some (update c i Extracting s f (v + 1))
    | _ => None
    end
  | Extract i n =>
    match threads c !! i with
    | Some Extracting => Some (update c i (Leaving (Counted_success n)) s f k)
    | _ => None
    end
  | Extract_raises i =>
    match threads c !! i with
    | Some Extracting => Some (update c i (Leaving Extraction_raised) s f k)
    | _ => None
    end
  | Release i =>
    match threads c !! i with
    | Some (Leaving o) => Some (update c i (Finished o) (s + 1) f k)
    | _ => None
    end
  end.

Fixpoint run (schedule : list action) (c : config) : option config :=
  match schedule with
  | [] => Some c
  | a :: rest =>
    match exec a c with
    | Some c' => run rest c'
    | None => None
    end
  end.

(** Two workers whose fetches fail, with their increments of
    [failed_requests] interleaved. *)
Definition racing_schedule : list action :=
  [ Acquire 0; Acquire 1; Fetch_fails 0; Fetch_fails 1;
    Load_failed 0; Load_failed 1; Store_failed 0; Store_failed 1;
    Release 0; Release 1 ]%nat.



(** Two tasks under a semaphore of one unit, one after the other. *)
Definition one_by_one_schedule : list action :=
  [ Acquire 0; Fetch_fails 0; Load_failed 0; Store_failed 0; Release 0;
    Acquire 1; Fetch_succeeds 1; Load_successful 1; Store_successful 1 ]%nat.

Definition one_by_one : config :=
  {| threads := [Finished Counted_failure; Extracting]; semaphore := 0;
     failed_requests := 1; successful_requests := 1 |}.

End Pool.

(** The semaphore invariant: the units held and the units left add up to
    the capacity. *)
Definition semaphore_invariant (C : Z) (c : Pool.config) : Prop :=
  Pool.number Pool.in_block c + Pool.semaphore c = C /\ 0 <= Pool.semaphore c.

(** The counters never run ahead of the increments performed: each is at
    most the number of tasks past its write and at least one once a task
    is past it; a value that a task has read and not yet written back is
    within the same upper bound. *)
Definition counters_bounded (c : Pool.config) : Prop :=
  0 <= Pool.failed_requests c <= Pool.number Pool.counted_failed c
  /\ 0 <= Pool.successful_requests c <= Pool.number Pool.counted_successful c
  /\ (1 <= Pool.number Pool.counted_failed c -> 1 <= Pool.failed_requests c)
  /\ (1 <= Pool.number Pool.counted_successful c -> 1 <= Pool.successful_requests c)
  /\ (forall j v, Pool.threads c !! j = Some (Pool.Failing_loaded v) ->
        0 <= v <= Pool.number Pool.counted_failed c)
  /\ (forall j v, Pool.threads c !! j = Some (Pool.Succeeding_loaded v) ->
        0 <= v <= Pool.number Pool.counted_successful c).

(** The counters are exact: each equals the number of tasks past its
    write, and a value read and not yet written back is current. *)
Definition counters_exact (c : Pool.config) : Prop :=
  Pool.failed_requests c = Pool.number Pool.counted_failed c
  /\ Pool.successful_requests c = Pool.number Pool.counted_successful c
  /\ (forall j v, Pool.threads c !! j = Some (Pool.Failing_loaded v) ->
        v = Pool.failed_requests c)
  /\ (forall j v, Pool.threads c !! j = Some (Pool.Succeeding_loaded v) ->
        v = Pool.successful_requests c).

Definition product_id0 : string := "B0CHX1W1XY".

Definition plain_page : string := "<html><body>Customer reviews</body></html>".

(** * More of the code *)

(** ** config.py and utils.py *)

(** [PRODUCT_URL_PATTERN.format(product_id=...)]. *)
Definition PRODUCT_URL (product_id : string) : string :=
  (BASE_URL ++ "/dp/" ++ product_id)%string.

(** Ten characters among [A-Z] and [0-9]: what [([A-Z0-9]{10})] captures. *)
Definition is_product_id (g : string) : Prop :=
  String.length g = 10%nat
  /\ str_forallb (fun c => is_upper c || is_digit c) g = true.

(** The seconds slept in a trace. *)
Fixpoint total_sleep (evs : list Event) : Q :=
  match evs with
  | [] => 0
  | Sleep d :: rest => d + total_sleep rest
  | _ :: rest => total_sleep rest
  end.

(** Every GET of a trace is made with session [s] for [url]. *)
Definition gets_use (s : requests.Session) (url : string) (evs : list Event)
  : Prop :=
  Forall (fun e => match e with
                   | Get s' url' => s' = s /\ url' = url
                   | _ => True
                   end) evs.

(** ** reviews_scraper.py: what a task and a run leave in the trace *)

(** The URLs of the fetch calls of a trace, in order. *)
Fixpoint fetched_urls (evs : list Event) : list string :=
  match evs with
  | [] => []
  | Fetch url :: rest => url :: fetched_urls rest
  | _ :: rest => fetched_urls rest
  end.

(** The CSV files written in a trace: product id and rows. *)
Fixpoint csv_writes (evs : list Event) : list (string * list Review) :=
  match evs with
  | [] => []
  | To_csv product_id rows :: rest => (product_id, rows) :: csv_writes rest
  | _ :: rest => csv_writes rest
  end.

(** The review counts in the completion records of a trace, in order: one
    for each future whose result the coordinator has read (line 100). *)
Fixpoint completed_counts (evs : list Event) : list Z :=
  match evs with
  | [] => []
  | Log _ (Completed_task _ _ reviews_count) :: rest =>
    reviews_count :: completed_counts rest
  | _ :: rest => completed_counts rest
  end.

(** Events with no fetch call, no CSV file and no completion record among
    them. *)
Definition quiet (evs : list Event) : Prop :=
  fetched_urls evs = [] /\ csv_writes evs = [] /\ completed_counts evs = [].

(** A review taken from a review element of a page that some GET has
    returned with status 200 and without a soft-block marker, by a task
    for a star rating of [STAR_FILTERS]. *)
Definition extracted_from_a_page `{Bs4} (E : Env) (rv : Review) : Prop :=
  exists (i : nat) (s : requests.Session) (url : string)
         (r : requests.Response) (element : Tag) (star_rating : Z)
         (now : nat),
    http_get E i s url = requests.Returns r
    /\ requests.status_code r = 200
    /\ soft_blocked (requests.text r) = false
    /\ In element (select (BeautifulSoup (requests.text r))
                     REVIEW_SELECTORS.container)
    /\ is_Some (STAR_FILTERS !! star_rating)
    /\ rv = review_at E element star_rating now.

(** The URL a task fetches; none when [STAR_FILTERS] lacks the star. *)
Definition task_url (product_id : string) (t : ScrapeTask) : option string :=
  match STAR_FILTERS !! fst t with
  | Some star_filter => Some (REVIEWS_URL product_id star_filter (snd t))
  | None => None
  end.

Definition task_urls (product_id : string) (tasks : list ScrapeTask)
  : list string :=
  flat_map (fun t => match task_url product_id t with
                     | Some url => [url]
                     | None => []
                     end) tasks.

(** The extra sleep of a task for the first two pages. *)
Definition first_pages_sleep (E : Env) (page_number : Z) (w : World)
  : list Event :=
  if page_number <=? 2
  then [Sleep (2 + jitter_delay E (n_random w))%Q]
  else [].

Definition search_url0 : string := "https://www.amazon.in/s?k=headphones".

(** A string that [lstrip] and [rstrip] leave alone: it neither starts nor
    ends with whitespace. *)
Definition stripped (s : string) : Prop := lstrip s = s /\ rstrip s = s.

(** ** [ReviewScraper.get_reviews_count] *)

(** [len(df[df["star_rating"] == star])]. *)
Definition count_star (df : DataFrame) (star : Z) : Z :=
  Z.of_nat (List.length
              (List.filter (fun r => Qeq_bool (star_rating r) (inject_Z star)) df)).

(** [df["verified"].sum()]. *)
Definition count_verified (df : DataFrame) : Z :=
  Z.of_nat (List.length (List.filter verified df)).

(** The dictionary [stats].  Every table built by the scraper has the
    column "verified", so the test for it is true. *)
Definition get_reviews_count (df : DataFrame) : gmap string Q :=
  match df with
  | [] => <["total"%string := 0%Q]> ∅
  | _ =>
    let total := inject_Z (Z.of_nat (List.length df)) in
    let stats := <["total"%string := total]> ∅ in
    let stats :=
      fold_left (fun stats star =>
                   <[(str_of_Z star ++ "_star")%string
                     := inject_Z (count_star df star)]> stats)
                (py_range 1 6 1) stats in
    let stats := <["verified"%string := inject_Z (count_verified df)]> stats in
    <["verified_percent"%string
      := (inject_Z (count_verified df) / total * 100)%Q]> stats
  end.

(** A rating that is a whole number of stars between 1 and 5. *)
Definition whole_star (r : Review) : bool :=
  existsb (fun star => Qeq_bool (star_rating r) (inject_Z star)) [1; 2; 3; 4; 5].

Definition review0 : Review :=
  {| star_rating := 4; title := "Good value"; text := "Works well.";
     date := "Reviewed in India on 1 May 2024"; verified := true;
     author := "Asha"; extracted_date := "2024-05-01 10:00:00" |}.

Definition review1 : Review :=
  {| star_rating := 9 # 2; title := "Fine"; text := "";
     date := ""; verified := false;
     author := "Ravi"; extracted_date := "2024-05-01 10:00:01" |}.

(** ** product_scraper.py *)

(** The dictionary [PRODUCT_SELECTORS], one definition per key. *)
Module PRODUCT_SELECTORS.
Definition title : string := "#productTitle".
Definition price : list string :=
  [ "#corePrice_feature_div .a-price-whole"; ".a-price .a-offscreen";
    "span.a-price span[aria-hidden='true']" ]%string.
Definition brand : list string :=
  [ "#bylineInfo"; "#bylineInfo_feature_div a"; "a#bylineInfo" ]%string.
Definition about_items : string := "#feature-bullets .a-list-item".
Definition total_ratings : string := "#acrCustomerReviewText".
Definition star_rating : list string :=
  [ "span.a-icon-alt"; ".a-size-medium.a-color-base" ]%string.
End PRODUCT_SELECTORS.

(** The longest prefix of characters that satisfy [p], and what follows. *)
Fixpoint span_while (p : ascii -> bool) (s : string) : string * string :=
  match s with
  | String c s' =>
    if p c then (String c (fst (span_while p s')), snd (span_while p s'))
    else (EmptyString, s)
  | EmptyString => (EmptyString, EmptyString)
  end.

Definition is_digit_or_comma (c : ascii) : bool :=
  is_digit c || Ascii.eqb c ","%char.

(** A match of [([\d,]+(\.\d+)?)] that starts at the head of [s].  The
    class [\d] is taken as the ASCII digits, which is what it matches in
    ASCII text; in a text with other decimal digits the pattern matches
    those too, so statements about the price are kept to what holds for
    them as well. *)
Definition match_price_here (s : string) : option string :=
  let ds := fst (span_while is_digit_or_comma s) in
  match ds with
  | EmptyString => None
  | String _ _ =>
    match snd (span_while is_digit_or_comma s) with
    | String c rest =>
      if Ascii.eqb c "."%char then
        match fst (span_while is_digit rest) with
        | EmptyString => Some ds
        | fs => Some (ds ++ "." ++ fs)%string
        end
      else Some ds
    | EmptyString => Some ds
    end
  end.

(** The ASCII characters a captured price can hold. *)
Definition is_price_char (c : ascii) : bool :=
  is_digit_or_comma c || Ascii.eqb c "."%char.

(** A character of the ASCII range; the bytes of any other character of a
    UTF-8 text are outside it. *)
Definition is_ascii (c : ascii) : bool := (nat_of_ascii c <? 128)%nat.

(** [re.search(r'([\d,]+(\.\d+)?)', s)], returning group 1. *)
Fixpoint re_search_price (s : string) : option string :=
  match match_price_here s with
  | Some m => Some m
  | None => match s with
            | EmptyString => None
            | String _ s' => re_search_price s'
            end
  end.

(** A match of [([\d,]+)] that starts at the head of [s], with [\d] taken
    as the ASCII digits as above. *)
Definition match_count_here (s : string) : option string :=
  match fst (span_while is_digit_or_comma s) with
  | EmptyString => None
  | ds => Some ds
  end.

(** [re.search(r'([\d,]+)', s)], returning group 1. *)
Fixpoint re_search_count (s : string) : option string :=
  match match_count_here s with
  | Some m => Some m
  | None => match s with
            | EmptyString => None
            | String _ s' => re_search_count s'
            end
  end.

(** [s.replace(old, new)] for a non-empty [old]: the occurrences of [old]
    are replaced from left to right, without overlap.  [skip] counts the
    characters of an occurrence still to be passed over. *)
Fixpoint replace_from (old new : string) (skip : nat) (s : string) : string :=
  match s with
  | EmptyString => EmptyString
  | String c s' =>
    match skip with
    | S k => replace_from old new k s'
    | O =>
      if String.prefix old s
      then (new ++ replace_from old new (String.length old - 1) s')%string
      else String c (replace_from old new 0 s')
    end
  end.

Definition str_replace (old new s : string) : string := replace_from old new 0 s.

(** A value of the dictionary [product_info]: a string, or the list of
    strings under "about_this_item". *)
Inductive ProductValue :=
| Text (s : string)
| Items (l : list string).

(** The truth value of a string: non-empty. *)
Definition str_truthy (s : string) : bool :=
  match s with
  | EmptyString => false
  | String _ _ => true
  end.

(** The loop over [PRODUCT_SELECTORS["price"]] (lines 65-74). *)
Fixpoint first_price `{Bs4} (soup : Tag) (selectors : list string)
  : option string :=
  match selectors with
  | [] => None
  | price_selector :: rest =>
    match select_one soup price_selector with
    | Some price_elem =>
      match re_search_price (strip (get_text price_elem)) with
      | Some m => Some m
      | None => first_price soup rest
      end
    | None => first_price soup rest
    end
  end.

(** The loop over [PRODUCT_SELECTORS["brand"]] (lines 79-89): the first
    selector that finds an element decides. *)
Fixpoint first_brand `{Bs4} (soup : Tag) (selectors : list string)
  : option string :=
  match selectors with
  | [] => None
  | brand_selector :: rest =>
    match select_one soup brand_selector with
    | Some brand_elem =>
      let brand_text := strip (get_text brand_elem) in
      if str_in "Brand:" brand_text
      then Some (strip (str_replace "Brand:" "" brand_text))
      else Some brand_text
    | None => first_brand soup rest
    end
  end.

(** The loop over [PRODUCT_SELECTORS["star_rating"]] (lines 108-116). *)
Fixpoint first_star_rating `{Bs4} (soup : Tag) (selectors : list string)
  : option string :=
  match selectors with
  | [] => None
  | rating_selector :: rest =>
    match select_one soup rating_selector with
    | Some star_elem =>
      match re_search_number (get_text star_elem) with
      | Some m => Some m
      | None => first_star_rating soup rest
      end
    | None => first_star_rating soup rest
    end
  end.

(** [value if value else "Not found"] for an optional string. *)
Definition or_not_found (value : option string) : string :=
  match value with
  | Some s => if str_truthy s then s else "Not found"%string
  | None => "Not found"%string
  end.

Definition _extract_product_info `{Bs4} (html_content product_id : string)
  : gmap string ProductValue :=
  let soup := BeautifulSoup html_content in
  let product_info := <["product_id"%string := Text product_id]> ∅ in
  let product_info :=
    <["title"%string :=
        Text (match select_one soup PRODUCT_SELECTORS.title with
              | Some title_elem => strip (get_text title_elem)
              | None => "Not found"%string
              end)]> product_info in
  let price := first_price soup PRODUCT_SELECTORS.price in
  let product_info :=
    <["price"%string :=
        Text (match price with
              | Some p => if str_truthy p then ("₹" ++ p)%string
                          else "Not found"%string
              | None => "Not found"%string
              end)]> product_info in
  let brand := first_brand soup PRODUCT_SELECTORS.brand in
  let product_info :=
    <["brand"%string := Text (or_not_found brand)]> product_info in
  let about_items :=
    List.filter str_truthy
      (map (fun item => strip (get_text item))
           (select soup PRODUCT_SELECTORS.about_items)) in
  let product_info :=
    <["about_this_item"%string := Items about_items]> product_info in
  let product_info :=
    <["total_ratings"%string :=
        Text (match select_one soup PRODUCT_SELECTORS.total_ratings with
              | Some ratings_elem =>
                match re_search_count (strip (get_text ratings_elem)) with
                | Some m => m
                | None => "Not found"%string
                end
              | None => "Not found"%string
              end)]> product_info in
  let star_rating := first_star_rating soup PRODUCT_SELECTORS.star_rating in
  <["star_rating"%string := Text (or_not_found star_rating)]> product_info.

Module ProductScraper.

Record t := {
  session : requests.Session;
  product_info : gmap string ProductValue }.

(** [session or requests.Session()]: a session object is truthy, so the
    caller's session is kept; a fresh session has no header or cookie set
    by this program. *)
Definition __init__ (session : option requests.Session) : t :=
  {| session := match session with
                | Some s => s
                | None => {| requests.headers := []; requests.cookies := [] |}
                end;
     product_info := ∅ |}.

(** The records of the module's own logger. *)
Inductive LogRecord :=
| Invalid_product_URL (url : string)
| Failed_to_retrieve_product_page.

(** The scraper object, the world, and the module's log. *)
Record state := {
  self : t;
  world : World;
  log : list (Level * LogRecord) }.

Definition scrape_product `{Bs4} (E : Env) (url : string) (st : state)
  : option (gmap string ProductValue) * state :=
  match extract_product_id url with
  | None =>
    (None, {| self := self st; world := world st;
              log := log st ++ [(ERROR, Invalid_product_URL url)] |})
  | Some product_id =>
    let product_url := PRODUCT_URL product_id in
    let fetched :=
      make_request_with_backoff E product_url (Some (session (self st))) 3
        (world st) in
    match fst fetched with
    | Some response =>
      if falsy (fst fetched) then
        (None, {| self := self st; world := snd fetched;
                  log := log st ++ [(ERROR, Failed_to_retrieve_product_page)] |})
      else
        let info := _extract_product_info (requests.text response) product_id in
        (Some info,
         {| self := {| session := session (self st); product_info := info |};
            world := snd fetched; log := log st |})
    | None =>
      (None, {| self := self st; world := snd fetched;
                log := log st ++ [(ERROR, Failed_to_retrieve_product_page)] |})
    end
  end.

End ProductScraper.

(** A product page and a parser fixture for it. *)
Definition product_page : string :=
  "<html><span id='productTitle'> Wireless Headphones </span><a id='bylineInfo'>Brand: Acme</a><span class='a-price'><span class='a-offscreen'>₹1,299.00</span></span><span id='acrCustomerReviewText'>2,345 ratings</span><span class='a-icon-alt'>4.2 out of 5 stars</span></html>".

Definition product_tag : FixTag :=
  FixNode product_page
    [ ("#productTitle", [leaf " Wireless Headphones "]);
      ("#bylineInfo", [leaf "Brand: Acme"]);
      (".a-price .a-offscreen", [leaf "₹1,299.00"]);
      ("#acrCustomerReviewText", [leaf "2,345 ratings"]);
      ("span.a-icon-alt", [leaf "4.2 out of 5 stars"]) ]%string.

Definition product_bs4 : Bs4 :=
  {| Tag := FixTag;
     BeautifulSoup := fun html_content =>
       if String.eqb html_content product_page then product_tag
       else FixNode html_content [];
     select := fix_select;
     select_one := fun t selector => List.head (fix_select t selector);
     get_text := fix_get_text |}.

Definition product_state0 : ProductScraper.state :=
  {| ProductScraper.self := ProductScraper.__init__ (Some session0);
     ProductScraper.world := world0;
     ProductScraper.log := [] |}.

(** ** The worker pool: how much is left to do *)

(** The most steps a task at program point [p] can still take. *)
Definition remaining_steps (p : Pool.pc) : nat :=
  match p with
  | Pool.Submitted => 6
  | Pool.Fetching => 5
  | Pool.Succeeding => 4
  | Pool.Succeeding_loaded _ => 3
  | Pool.Failing => 3
  | Pool.Failing_loaded _ => 2
  | Pool.Extracting => 2
  | Pool.Leaving _ => 1
  | Pool.Finished _ => 0
  end.

Definition work (c : Pool.config) : nat :=
  list_sum (map remaining_steps (Pool.threads c)).

(** Some task has not finished. *)
Definition unfinished (c : Pool.config) : Prop :=
  exists i p, Pool.threads c !! i = Some p /\ Pool.finished p = false.

(** ** utils.py: cookies *)

Section Cookies.
Context {V : Type} `{Countable V}.

(** A browser cookie is a dictionary from attribute names to values of a
    hashable type [V]; [cookie.get(key)] is the lookup.  The argument of
    the function is [None] or a list of cookies. *)
Definition convert_cookies_for_requests (cookies : option (list (gmap string V)))
  : gmap (option V) (option V) :=
  match cookies with
  | None => ∅
  | Some [] => ∅
  | Some cookies =>
    fold_left
      (fun cookies_dict cookie =>
         <[cookie !! "name"%string := cookie !! "value"%string]> cookies_dict)
      cookies ∅
  end.

(** The cookies of a list that carry the name [name]. *)
Definition named (name : option V) (cookies : list (gmap string V))
  : list (gmap string V) :=
  List.filter (fun cookie => bool_decide (cookie !! "name"%string = name)) cookies.

End Cookies.

(** ** The worker pool: five failures at once *)

(** Five tasks under the default semaphore of ten units, all in the block
    at once: their fetches fail, and each reads [failed_requests] before
    any of them writes it back. *)
Definition crowded_schedule : list Pool.action :=
  map Pool.Acquire (seq 0 5) ++ map Pool.Fetch_fails (seq 0 5)
  ++ map Pool.Load_failed (seq 0 5) ++ map Pool.Store_failed (seq 0 5)
  ++ map Pool.Release (seq 0 5).

(** * Properties *)

(** ** The task grid *)

Lemma nth_flat_map_uniform {A B : Type} (f : A -> list B) (n : nat)
    (l : list A) (q r : nat) (d : B) (da : A) :
  (forall a, List.length (f a) = n) ->
  (r < n)%nat -> (q < List.length l)%nat ->
  nth (q * n + r) (flat_map f l) d = nth r (f (nth q l da)) d.
Proof.
  intros Hlen Hr. revert q.
  induction l as [|a l IH]; intros q Hq; simpl in Hq; [lia|].
  destruct q as [|q]; simpl.
  - rewrite app_nth1 by (rewrite Hlen; lia). reflexivity.
  - rewrite app_nth2 by (rewrite Hlen; lia).
    rewrite Hlen.
    replace (n + q * n + r - n)%nat with (q * n + r)%nat by lia.
    apply IH. lia.
Qed.

Lemma length_flat_map_uniform {A B : Type} (f : A -> list B) (n : nat)
    (l : list A) :
  (forall a, List.length (f a) = n) ->
  List.length (flat_map f l) = (List.length l * n)%nat.
Proof.
  intros Hlen. induction l as [|a l IH]; simpl; [reflexivity|].
  rewrite List.length_app, Hlen, IH. reflexivity.
Qed.

Lemma py_range_pages (N : Z) :
  0 <= N ->
  py_range 1 (N + 1) 1 = map (fun i => 1 + Z.of_nat i) (seq 0 (Z.to_nat N)).
Proof.
  intros HN. unfold py_range. simpl.
  replace ((N + 1 - 1 + 1 - 1) / 1) with N by (rewrite Z.div_1_r; lia).
  apply map_ext. intros i. lia.
Qed.

Lemma py_range_stars : py_range 5 0 (-1) = [5; 4; 3; 2; 1].
Proof. reflexivity. Qed.

Lemma In_py_range_pages (N p : Z) :
  0 <= N -> (In p (py_range 1 (N + 1) 1) <-> 1 <= p <= N).
Proof.
  intros HN. rewrite py_range_pages by assumption.
  rewrite in_map_iff. split.
  - intros [i [<- Hi]]. apply in_seq in Hi. lia.
  - intros Hp. exists (Z.to_nat (p - 1)). split; [lia|].
    apply in_seq. lia.
Qed.

Lemma nth_row (s : Z) (n r : nat) (d : ScrapeTask) :
  (r < n)%nat ->
  nth r (map (fun page_number => (s, page_number))
           (map (fun i => 1 + Z.of_nat i) (seq 0 n))) d
  = (s, 1 + Z.of_nat r).
Proof.
  intros Hr. rewrite map_map.
  rewrite nth_indep with (d' := (fun i => (s, 1 + Z.of_nat i)) O)
    by (rewrite length_map, length_seq; lia).
  rewrite (map_nth (fun i => (s, 1 + Z.of_nat i))).
  rewrite seq_nth by lia. reflexivity.
Qed.

Lemma nth_scrape_tasks (N k : Z) :
  1 <= N -> 0 <= k < 5 * N ->
  nth (Z.to_nat k) (scrape_tasks N) (0, 0) = (5 - k / N, 1 + k mod N).
Proof.
  intros HN Hk.
  pose proof (Z.div_mod k N ltac:(lia)) as Hdm.
  pose proof (Z.mod_pos_bound k N ltac:(lia)) as Hr.
  assert (Hq : 0 <= k / N < 5).
  { split; [apply Z.div_pos; lia | apply Z.div_lt_upper_bound; lia]. }
  unfold scrape_tasks.
  rewrite py_range_stars, py_range_pages by lia.
  replace (Z.to_nat k)
    with (Z.to_nat (k / N) * Z.to_nat N + Z.to_nat (k mod N))%nat by nia.
  rewrite nth_flat_map_uniform with (n := Z.to_nat N) (da := 0).
  - rewrite nth_row by lia.
    f_equal; [|lia].
    assert (Hc : (Z.to_nat (k / N) < 5)%nat) by lia.
    destruct (Z.to_nat (k / N)) as [|[|[|[|[|c]]]]] eqn:Ec; simpl; lia.
  - intros a. rewrite !length_map, length_seq. reflexivity.
  - lia.
  - simpl. lia.
Qed.

Lemma length_scrape_tasks (N : Z) :
  0 <= N -> List.length (scrape_tasks N) = Z.to_nat (5 * N).
Proof.
  intros HN. unfold scrape_tasks.
  rewrite length_flat_map_uniform with (n := Z.to_nat N).
  - rewrite py_range_stars. simpl. lia.
  - intros a. rewrite py_range_pages by lia.
    rewrite !length_map, length_seq. reflexivity.
Qed.

(** C3: for [N >= 1] the task grid has exactly [5N] pairwise distinct
    tasks, they are the pairs of a star rating in 1..5 and a page in 1..N,
    and they come in a fixed order, stars from 5 down to 1 and within a
    star pages from 1 up to N: task number [k] (from 0) is
    [(5 - k / N, 1 + k mod N)]. *)
Theorem scrape_tasks_grid (N : Z) (HN : 1 <= N) :
  List.length (scrape_tasks N) = Z.to_nat (5 * N)
  /\ List.NoDup (scrape_tasks N)
  /\ (forall s p, In (s, p) (scrape_tasks N) <-> (1 <= s <= 5 /\ 1 <= p <= N))
  /\ (forall k, 0 <= k < 5 * N ->
        nth (Z.to_nat k) (scrape_tasks N) (0, 0) = (5 - k / N, 1 + k mod N)).
Proof.
  split; [apply length_scrape_tasks; lia|].
  split; [|split; [|intros k Hk; apply nth_scrape_tasks; assumption]].
  - apply (proj2 (List.NoDup_nth (scrape_tasks N) (0, 0))).
    intros i j Hi Hj Heq.
    rewrite length_scrape_tasks in Hi, Hj by lia.
    rewrite <- (Nat2Z.id i), <- (Nat2Z.id j) in Heq.
    rewrite !nth_scrape_tasks in Heq by lia.
    injection Heq as Hq Hr.
    pose proof (Z.div_mod (Z.of_nat i) N ltac:(lia)).
    pose proof (Z.div_mod (Z.of_nat j) N ltac:(lia)).
    nia.
  - intros s p. unfold scrape_tasks. rewrite in_flat_map. split.
    + intros [s' [Hs Hin]]. apply in_map_iff in Hin.
      destruct Hin as [p' [Heq Hp]]. injection Heq as -> ->.
      apply In_py_range_pages in Hp; [|lia].
      rewrite py_range_stars in Hs. simpl in Hs. lia.
    + intros [Hs Hp]. exists s. split.
      * rewrite py_range_stars. simpl. lia.
      * apply in_map. apply In_py_range_pages; lia.
Qed.

Lemma scrape_tasks_grid_witness :
  1 <= 2
  /\ List.length (scrape_tasks 2) = Z.to_nat (5 * 2)
  /\ List.NoDup (scrape_tasks 2)
  /\ (forall s p, In (s, p) (scrape_tasks 2) <-> (1 <= s <= 5 /\ 1 <= p <= 2))
  /\ (forall k, 0 <= k < 5 * 2 ->
        nth (Z.to_nat k) (scrape_tasks 2) (0, 0) = (5 - k / 2, 1 + k mod 2)).
Proof.
  split; [lia | apply (scrape_tasks_grid 2); lia].
Defined.

(** ** The fetcher *)

Lemma World_eq (a b : World) :
  n_get a = n_get b -> n_random a = n_random b -> n_choice a = n_choice b ->
  n_now a = n_now b -> trace a = trace b -> a = b.
Proof. destruct a, b; simpl; intros; subst; reflexivity. Qed.

Lemma advance_0 (w : World) : advance w 0 0 [] = w.
Proof.
  apply World_eq; simpl; try lia; try reflexivity. apply app_nil_r.
Qed.

Lemma advance_advance (w : World) (k r k' r' : nat) (evs evs' : list Event) :
  advance (advance w k r evs) k' r' evs' = advance w (k + k') (r + r') (evs ++ evs').
Proof.
  apply World_eq; simpl; try lia; try reflexivity. symmetry. apply app_assoc.
Qed.

Lemma rnd_bounds (E : Env) (i : nat) : (0 <= rnd E i /\ rnd E i < 1)%Q.
Proof.
  unfold rnd, Qle, Qlt. simpl.
  pose proof (Z.mod_pos_bound (random_bits E i) (2 ^ 53) ltac:(lia)).
  split; lia.
Qed.

Lemma backoff_wait_bounds (E : Env) (retry : Z) (i : nat) :
  (inject_Z (2 ^ retry) <= backoff_wait E retry i
   /\ backoff_wait E retry i < inject_Z (2 ^ retry) + 1)%Q.
Proof.
  unfold backoff_wait. destruct (rnd_bounds E i). split; lra.
Qed.

Lemma jitter_delay_bounds (E : Env) (i : nat) :
  (MIN_DELAY <= jitter_delay E i /\ jitter_delay E i < MAX_DELAY)%Q.
Proof.
  unfold jitter_delay, MIN_DELAY, MAX_DELAY. destruct (rnd_bounds E i).
  split; lra.
Qed.

(** One iteration of the loop whose GET succeeds. *)
Lemma backoff_loop_success (E : Env) (url : string) (s : requests.Session)
    (max_retries : Z) (fuel : nat) (retry : Z) (w : World) (r : requests.Response) :
  retry < max_retries ->
  http_get E (n_get w) s url = requests.Returns r ->
  requests.status_code r = 200 ->
  backoff_loop E url s max_retries (S fuel) retry w
  = (Some r, advance w 1 1 [Sleep (jitter_delay E (n_random w)); Get s url]).
Proof.
  intros Hlt Hget H200. simpl.
  apply Z.ltb_lt in Hlt. rewrite Hlt.
  unfold bind, get_random_delay, random_uniform, random_random, time_sleep,
    emit, session_get, ret, bind; simpl.
  rewrite Hget, H200. simpl. f_equal.
  apply World_eq; simpl; try lia; try reflexivity.
  rewrite <- app_assoc. reflexivity.
Qed.

(** One iteration of the loop whose GET fails. *)
Lemma backoff_loop_failure (E : Env) (url : string) (s : requests.Session)
    (max_retries : Z) (fuel : nat) (retry : Z) (w : World) :
  retry < max_retries ->
  is_200 (http_get E (n_get w) s url) = false ->
  backoff_loop E url s max_retries (S fuel) retry w
  = backoff_loop E url s max_retries fuel (retry + 1)
      (advance w 1 2 (failed_attempt E s url max_retries (n_get w) (n_random w) retry)).
Proof.
  intros Hlt Hfail. simpl.
  apply Z.ltb_lt in Hlt. rewrite Hlt.
  unfold bind at 1. unfold bind at 1. unfold bind at 1.
  unfold get_random_delay, random_uniform, random_random, time_sleep,
    emit, session_get, ret, bind at 1 2 3; simpl.
  destruct (http_get E (n_get w) s url) as [|r] eqn:Hget; simpl in Hfail |- *.
  - unfold bind, log, emit, time_sleep, random_uniform, random_random, ret; simpl.
    f_equal. apply World_eq; simpl; try lia; try reflexivity.
    unfold failed_attempt, jitter_delay, backoff_wait, rnd. rewrite Hget. simpl.
    rewrite <- !app_assoc. reflexivity.
  - rewrite Hfail.
    unfold bind, log, emit, time_sleep, random_uniform, random_random, ret; simpl.
    f_equal. apply World_eq; simpl; try lia; try reflexivity.
    unfold failed_attempt, jitter_delay, backoff_wait, rnd. rewrite Hget. simpl.
    rewrite <- !app_assoc. reflexivity.
Qed.

(** The loop does nothing once [retry] has reached [max_retries]. *)
Lemma backoff_loop_exhausted (E : Env) (url : string) (s : requests.Session)
    (max_retries : Z) (fuel : nat) (retry : Z) (w : World) :
  max_retries <= retry ->
  backoff_loop E url s max_retries fuel retry w = (None, w).
Proof.
  intros Hge. destruct fuel; simpl; [reflexivity|].
  apply Z.ltb_ge in Hge. rewrite Hge. reflexivity.
Qed.

(** [k] failed attempts in a row. *)
Lemma backoff_loop_failures (E : Env) (url : string) (s : requests.Session)
    (max_retries : Z) (k : nat) :
  forall (fuel : nat) (retry : Z) (w : World),
  retry + Z.of_nat k <= max_retries ->
  all_fail E s url (n_get w) k ->
  backoff_loop E url s max_retries (k + fuel) retry w
  = backoff_loop E url s max_retries fuel (retry + Z.of_nat k)
      (advance w k (2 * k)
         (failed_attempts E s url max_retries k (n_get w) (n_random w) retry)).
Proof.
  induction k as [|k IH]; intros fuel retry w Hle Hfail.
  - simpl. rewrite advance_0. f_equal. lia.
  - replace (S k + fuel)%nat with (S (k + fuel)) by lia.
    rewrite backoff_loop_failure.
    + rewrite IH.
      * rewrite advance_advance. simpl n_get. simpl n_random.
        f_equal; [lia|].
        apply World_eq; simpl; try lia; try reflexivity.
        replace (n_get w + 1)%nat with (S (n_get w)) by lia.
        replace (n_random w + 2)%nat with (S (S (n_random w))) by lia.
        reflexivity.
      * lia.
      * intros j Hj. simpl n_get.
        replace (n_get w + 1 + j)%nat with (n_get w + S j)%nat by lia.
        apply Hfail. lia.
    + lia.
    + specialize (Hfail O ltac:(lia)).
      rewrite Nat.add_0_r in Hfail. exact Hfail.
Qed.

Lemma count_gets_app (l1 l2 : list Event) :
  count_gets (l1 ++ l2) = (count_gets l1 + count_gets l2)%nat.
Proof. unfold count_gets. rewrite List.filter_app, List.length_app. reflexivity. Qed.

Lemma count_fetches_app (l1 l2 : list Event) :
  count_fetches (l1 ++ l2) = (count_fetches l1 + count_fetches l2)%nat.
Proof. unfold count_fetches. rewrite List.filter_app, List.length_app. reflexivity. Qed.

Lemma count_sleeps_app (l1 l2 : list Event) :
  count_sleeps (l1 ++ l2) = (count_sleeps l1 + count_sleeps l2)%nat.
Proof. unfold count_sleeps. rewrite List.filter_app, List.length_app. reflexivity. Qed.

Lemma count_gets_failed_attempts (E : Env) (s : requests.Session) (url : string)
    (max_retries : Z) (k : nat) :
  forall ng nr retry,
  count_gets (failed_attempts E s url max_retries k ng nr retry) = k.
Proof.
  induction k as [|k IH]; intros ng nr retry; [reflexivity|].
  cbn [failed_attempts]. rewrite count_gets_app, IH. reflexivity.
Qed.

Lemma count_fetches_failed_attempts (E : Env) (s : requests.Session) (url : string)
    (max_retries : Z) (k : nat) :
  forall ng nr retry,
  count_fetches (failed_attempts E s url max_retries k ng nr retry) = O.
Proof.
  induction k as [|k IH]; intros ng nr retry; [reflexivity|].
  cbn [failed_attempts]. rewrite count_fetches_app, IH. reflexivity.
Qed.

Lemma backoff_sleeps_failed_attempts (E : Env) (s : requests.Session)
    (url : string) (max_retries : Z) (rest : list Event) (k : nat) :
  forall ng nr retry,
  backoff_sleeps (failed_attempts E s url max_retries k ng nr retry ++ rest)
  = map (fun i => backoff_wait E (retry + 1 + Z.of_nat i) (nr + 2 * i + 1))
        (seq 0 k)
    ++ backoff_sleeps rest.
Proof.
  induction k as [|k IH]; intros ng nr retry; [reflexivity|].
  cbn [failed_attempts]. unfold failed_attempt at 1.
  cbn [app backoff_sleeps]. rewrite IH.
  cbn [seq map]. cbn [app]. f_equal.
  - f_equal; [lia | f_equal; lia].
  - f_equal. rewrite <- seq_shift, map_map. apply map_ext. intros i.
    f_equal; lia.
Qed.

Lemma backoff_waits_shift (E : Env) (nr k : nat) :
  map (fun i => backoff_wait E (0 + 1 + Z.of_nat i) (nr + 2 * i + 1)) (seq 0 k)
  = backoff_waits E nr k.
Proof.
  unfold backoff_waits. rewrite <- seq_shift, map_map. apply map_ext.
  intros i. f_equal; lia.
Qed.

Lemma make_request_with_backoff_unfold (E : Env) (url : string)
    (session : option requests.Session) (max_retries : Z) (w : World) :
  make_request_with_backoff E url session max_retries w
  = backoff_loop E url (effective_session E session w) max_retries
      (Z.to_nat max_retries) 0 (start_world url session w).
Proof.
  unfold make_request_with_backoff, bind, emit.
  destruct session as [s|]; reflexivity.
Qed.

Lemma effective_session_start (E : Env) (url : string)
    (session : option requests.Session) (w : World) :
  n_get (start_world url session w) = n_get w
  /\ n_random (start_world url session w) = n_random w.
Proof. split; reflexivity. Qed.

(** The call whose first [k] GETs fail and whose next GET returns 200. *)
Lemma fetch_succeeds_after (E : Env) (url : string)
    (session : option requests.Session) (max_retries : Z) (w : World)
    (k : nat) (r : requests.Response) :
  let s := effective_session E session w in
  Z.of_nat k < max_retries ->
  all_fail E s url (n_get w) k ->
  http_get E (n_get w + k) s url = requests.Returns r ->
  requests.status_code r = 200 ->
  make_request_with_backoff E url session max_retries w
  = (Some r,
     advance (start_world url session w) (k + 1) (2 * k + 1)
       (failed_attempts E s url max_retries k (n_get w) (n_random w) 0
        ++ [Sleep (jitter_delay E (n_random w + 2 * k)); Get s url])).
Proof.
  intros s Hk Hfail Hget H200.
  rewrite make_request_with_backoff_unfold. fold s.
  replace (Z.to_nat max_retries)
    with (k + S (Z.to_nat max_retries - k - 1))%nat by lia.
  rewrite backoff_loop_failures by (simpl; assumption || lia).
  rewrite backoff_loop_success with (r := r); simpl; try assumption; try lia.
  rewrite advance_advance. reflexivity.
Qed.

(** The call all of whose GETs fail. *)
Lemma fetch_exhausts (E : Env) (url : string)
    (session : option requests.Session) (max_retries : Z) (w : World) :
  let s := effective_session E session w in
  all_fail E s url (n_get w) (Z.to_nat max_retries) ->
  make_request_with_backoff E url session max_retries w
  = (None,
     advance (start_world url session w) (Z.to_nat max_retries)
       (2 * Z.to_nat max_retries)
       (failed_attempts E s url max_retries (Z.to_nat max_retries)
          (n_get w) (n_random w) 0)).
Proof.
  intros s Hfail.
  rewrite make_request_with_backoff_unfold. fold s.
  replace (Z.to_nat max_retries) with (Z.to_nat max_retries + 0)%nat at 1 by lia.
  destruct (Z.le_gt_cases max_retries 0) as [Hle|Hgt].
  - replace (Z.to_nat max_retries) with O by lia. simpl.
    rewrite advance_0. reflexivity.
  - rewrite backoff_loop_failures by (simpl; assumption || lia).
    rewrite backoff_loop_exhausted by lia. reflexivity.
Qed.

(** Among the first [n] GETs either all fail or there is a first one
    that returns 200. *)
Lemma first_success (E : Env) (s : requests.Session) (url : string)
    (ng n : nat) :
  all_fail E s url ng n
  \/ exists k r, (k < n)%nat /\ all_fail E s url ng k
       /\ http_get E (ng + k) s url = requests.Returns r
       /\ requests.status_code r = 200.
Proof.
  induction n as [|n IH].
  - left. intros j Hj. lia.
  - destruct IH as [Hall | (k & r & Hk & Hfail & Hget & H200)].
    + destruct (is_200 (http_get E (ng + n) s url)) eqn:Hn.
      * right. destruct (http_get E (ng + n) s url) as [|r] eqn:Hget;
          simpl in Hn; [discriminate|].
        exists n, r. repeat split; try assumption; try lia.
      * left. intros j Hj.
        destruct (Nat.eq_dec j n) as [->|Hne]; [assumption|].
        apply Hall. lia.
    + right. exists k, r. repeat split; try assumption; lia.
Qed.

Lemma is_200_Returns (o : requests.Outcome) (r : requests.Response) :
  o = requests.Returns r -> requests.status_code r = 200 -> is_200 o = true.
Proof. intros -> H. simpl. apply Z.eqb_eq. exact H. Qed.

Lemma first_success_unique (E : Env) (s : requests.Session) (url : string)
    (ng k k' : nat) :
  all_fail E s url ng k -> is_200 (http_get E (ng + k) s url) = true ->
  all_fail E s url ng k' -> is_200 (http_get E (ng + k') s url) = true ->
  k = k'.
Proof.
  intros Hk Hs Hk' Hs'.
  destruct (Nat.lt_trichotomy k k') as [Hlt|[Heq|Hgt]]; [|assumption|].
  - rewrite (Hk' k Hlt) in Hs. discriminate.
  - rewrite (Hk k' Hgt) in Hs'. discriminate.
Qed.

Lemma backoff_sleeps_success (E : Env) (s : requests.Session) (url : string)
    (max_retries : Z) (k ng nr : nat) (d : Q) :
  backoff_sleeps (failed_attempts E s url max_retries k ng nr 0
                  ++ [Sleep d; Get s url])
  = backoff_waits E nr k.
Proof.
  rewrite backoff_sleeps_failed_attempts, backoff_waits_shift.
  simpl. apply app_nil_r.
Qed.

Lemma backoff_sleeps_exhausted (E : Env) (s : requests.Session) (url : string)
    (max_retries : Z) (k ng nr : nat) :
  backoff_sleeps (failed_attempts E s url max_retries k ng nr 0)
  = backoff_waits E nr k.
Proof.
  rewrite <- (app_nil_r (failed_attempts _ _ _ _ _ _ _ _)).
  rewrite backoff_sleeps_failed_attempts, backoff_waits_shift.
  simpl. apply app_nil_r.
Qed.

Lemma Qsum_backoff_waits_2 (E : Env) (nr : nat) :
  (inject_Z (2 ^ 1 + 2 ^ 2) <= Qsum (backoff_waits E nr 2))%Q.
Proof.
  unfold backoff_waits, Qsum. cbn [seq map fold_right].
  destruct (backoff_wait_bounds E (Z.of_nat 1) (nr + 2 * 1 - 1)) as [H1 _].
  destruct (backoff_wait_bounds E (Z.of_nat 2) (nr + 2 * 2 - 1)) as [H2 _].
  change (inject_Z (2 ^ Z.of_nat 1)) with (inject_Z 2) in H1.
  change (inject_Z (2 ^ Z.of_nat 2)) with (inject_Z 4) in H2.
  change (inject_Z (2 ^ 1 + 2 ^ 2)) with (inject_Z 6).
  unfold inject_Z in *. lra.
Qed.

(** C4: the fetcher returns the response of the first GET that answers
    200 and makes no attempt after it; a GET that answers another status
    or raises is followed by a wait of [2^attempt + uniform(0,1)] seconds
    (between [2^attempt] and [2^attempt + 1]) before the next attempt;
    there are never more than [max_retries] GETs, and when all of them
    fail the result is [None].  With [max_retries = 3], two failures and a
    success on the third attempt, the successful response is returned and
    the backoff waits add up to at least [2^1 + 2^2] seconds. *)
Theorem make_request_with_backoff_retries (E : Env) (url : string)
    (session : option requests.Session) (max_retries : Z) (w : World) :
  let s := effective_session E session w in
  let res := make_request_with_backoff E url session max_retries w in
  exists evs,
    trace (snd res) = trace w ++ Fetch url :: evs
    /\ (count_gets evs <= Z.to_nat max_retries)%nat
    /\ (forall k r,
          Z.of_nat k < max_retries ->
          all_fail E s url (n_get w) k ->
          http_get E (n_get w + k) s url = requests.Returns r ->
          requests.status_code r = 200 ->
          fst res = Some r
          /\ count_gets evs = S k
          /\ (exists pre d, evs = pre ++ [Sleep d; Get s url])
          /\ backoff_sleeps evs = backoff_waits E (n_random w) k)
    /\ (all_fail E s url (n_get w) (Z.to_nat max_retries) ->
          fst res = None
          /\ count_gets evs = Z.to_nat max_retries
          /\ backoff_sleeps evs
             = backoff_waits E (n_random w) (Z.to_nat max_retries))
    /\ (forall a i,
          (inject_Z (2 ^ a) <= backoff_wait E a i
           /\ backoff_wait E a i < inject_Z (2 ^ a) + 1)%Q)
    /\ (forall r,
          max_retries = 3 ->
          all_fail E s url (n_get w) 2 ->
          http_get E (n_get w + 2) s url = requests.Returns r ->
          requests.status_code r = 200 ->
          fst res = Some r
          /\ (inject_Z (2 ^ 1 + 2 ^ 2) <= Qsum (backoff_sleeps evs))%Q).
Proof.
  intros s res.
  destruct (first_success E s url (n_get w) (Z.to_nat max_retries))
    as [Hall | (k0 & r0 & Hk0 & Hfail0 & Hget0 & H2000)].
  - (* every attempt fails *)
    pose proof (fetch_exhausts E url session max_retries w Hall) as Hres.
    fold s in Hres. fold res in Hres.
    exists (failed_attempts E s url max_retries (Z.to_nat max_retries)
              (n_get w) (n_random w) 0).
    assert (Hno : forall k r, Z.of_nat k < max_retries ->
              http_get E (n_get w + k) s url = requests.Returns r ->
              requests.status_code r = 200 -> False).
    { intros k r Hk Hget H200.
      pose proof (is_200_Returns _ _ Hget H200) as Ht.
      rewrite (Hall k ltac:(lia)) in Ht. discriminate. }
    rewrite Hres. simpl fst. simpl snd.
    split; [simpl; rewrite <- app_assoc; reflexivity|].
    split; [rewrite count_gets_failed_attempts; lia|].
    split; [intros k r Hk _ Hget H200; destruct (Hno k r Hk Hget H200)|].
    split.
    { intros _. split; [reflexivity|].
      split; [apply count_gets_failed_attempts|].
      apply backoff_sleeps_exhausted. }
    split; [intros a i; apply backoff_wait_bounds|].
    intros r -> _ Hget H200. destruct (Hno 2%nat r ltac:(lia) Hget H200).
  - (* attempt k0 is the first to succeed *)
    pose proof (fetch_succeeds_after E url session max_retries w k0 r0
                  ltac:(lia) Hfail0 Hget0 H2000) as Hres.
    fold s in Hres. fold res in Hres.
    exists (failed_attempts E s url max_retries k0 (n_get w) (n_random w) 0
            ++ [Sleep (jitter_delay E (n_random w + 2 * k0)); Get s url]).
    assert (Huniq : forall k r, all_fail E s url (n_get w) k ->
              http_get E (n_get w + k) s url = requests.Returns r ->
              requests.status_code r = 200 -> k = k0 /\ r = r0).
    { intros k r Hfail Hget H200.
      assert (k = k0) as ->.
      { eapply first_success_unique; eauto using is_200_Returns. }
      split; [reflexivity|]. congruence. }
    rewrite Hres. simpl fst. simpl snd.
    split; [simpl; rewrite <- app_assoc; reflexivity|].
    split.
    { rewrite count_gets_app, count_gets_failed_attempts.
      unfold count_gets. simpl. lia. }
    split.
    { intros k r Hk Hfail Hget H200.
      destruct (Huniq k r Hfail Hget H200) as [-> ->].
      split; [reflexivity|].
      split.
      { rewrite count_gets_app, count_gets_failed_attempts.
        unfold count_gets. simpl. lia. }
      split; [eexists _, _; reflexivity|].
      apply backoff_sleeps_success. }
    split.
    { intros Hall.
      pose proof (is_200_Returns _ _ Hget0 H2000) as Ht.
      rewrite (Hall k0 Hk0) in Ht. discriminate. }
    split; [intros a i; apply backoff_wait_bounds|].
    intros r _ Hfail Hget H200.
    destruct (Huniq 2%nat r Hfail Hget H200) as [<- ->].
    split; [reflexivity|].
    rewrite backoff_sleeps_success. apply Qsum_backoff_waits_2.
Qed.

(** C10: with [max_retries <= 0] the fetcher returns [None] at once: the
    only event is the record of the call itself, so there is neither a
    GET nor a sleep. *)
Theorem make_request_with_backoff_no_retries (E : Env) (url : string)
    (session : option requests.Session) (max_retries : Z) (w : World) :
  max_retries <= 0 ->
  let res := make_request_with_backoff E url session max_retries w in
  fst res = None
  /\ n_get (snd res) = n_get w
  /\ exists evs, trace (snd res) = trace w ++ evs
       /\ count_gets evs = O /\ count_sleeps evs = O.
Proof.
  intros Hle res. subst res.
  rewrite make_request_with_backoff_unfold.
  rewrite backoff_loop_exhausted by assumption.
  split; [reflexivity|]. split; [reflexivity|].
  exists [Fetch url]. repeat split.
Qed.

(** ** Extraction *)

Section Extraction.
Context {B : Bs4}.
Variable E : Env.

Lemma review_data_run (element : Tag) (star : Z) (w : World) :
  review_data E element star w
  = (review_at E element star (n_now w), advance_clock w 1).
Proof.
  unfold review_at, review_data, bind, datetime_now, ret. simpl.
  f_equal. apply World_eq; simpl; try reflexivity; lia.
Qed.

Lemma review_at_same_but_date (element : Tag) (star : Z) (i j : nat) :
  same_but_extracted_date (review_at E element star i)
                          (review_at E element star j).
Proof. repeat split. Qed.

Lemma review_at_extracted_date (element : Tag) (star : Z) (i : nat) :
  extracted_date (review_at E element star i) = now E i.
Proof. reflexivity. Qed.

Lemma review_at_same_clock (element : Tag) (star : Z) (i j : nat) :
  now E i = now E j ->
  review_at E element star i = review_at E element star j.
Proof.
  intros Hnow. unfold review_at, review_data, bind, datetime_now, ret.
  simpl. rewrite Hnow. reflexivity.
Qed.

Lemma extract_loop_run (els : list Tag) (star : Z) :
  forall (count : Z) (self : ReviewScraper) (w : World),
  extract_loop E els star count (self, w)
  = (count + Z.of_nat (List.length els),
     (with_queue self (reviews_queue self ++ reviews_at E els star (n_now w)),
      advance_clock w (List.length els))).
Proof.
  induction els as [|el els IH]; intros count self w.
  - simpl. unfold ret. f_equal; [lia|]. f_equal.
    + destruct self; unfold with_queue; simpl. rewrite app_nil_r. reflexivity.
    + apply World_eq; simpl; try reflexivity; lia.
  - cbn [extract_loop]. unfold bind at 1. unfold lift at 1.
    cbn [fst snd]. rewrite review_data_run. cbn [fst snd].
    unfold bind at 1. unfold queue_put, set_self. cbn [fst snd].
    rewrite IH. cbn [List.length reviews_at reviews_queue].
    f_equal; [lia|]. f_equal.
    + unfold with_queue. cbn. rewrite <- app_assoc.
      replace (n_now w + 1)%nat with (S (n_now w)) by lia. reflexivity.
    + apply World_eq; simpl; try reflexivity; lia.
Qed.

Lemma _extract_reviews_from_page_run (html : string) (star : Z) (st : St) :
  let els := select (BeautifulSoup html) REVIEW_SELECTORS.container in
  fst (_extract_reviews_from_page E html star st) = Z.of_nat (List.length els)
  /\ reviews_queue (fst (snd (_extract_reviews_from_page E html star st)))
     = reviews_queue (fst st) ++ reviews_at E els star (n_now (snd st))
  /\ successful_requests (fst (snd (_extract_reviews_from_page E html star st)))
     = successful_requests (fst st)
  /\ failed_requests (fst (snd (_extract_reviews_from_page E html star st)))
     = failed_requests (fst st)
  /\ session (fst (snd (_extract_reviews_from_page E html star st)))
     = session (fst st)
  /\ max_threads (fst (snd (_extract_reviews_from_page E html star st)))
     = max_threads (fst st)
  /\ extends (snd st) (snd (snd (_extract_reviews_from_page E html star st))) 0.
Proof.
  intros els. unfold _extract_reviews_from_page. fold els.
  destruct st as [self w].
  destruct els as [|el els'] eqn:Hels.
  - unfold bind, lift, log, emit, ret. cbn.
    rewrite app_nil_r. repeat split.
    exists [Log WARNING No_review_elements_found]. split; reflexivity.
  - rewrite extract_loop_run. cbn. repeat split.
    exists []. rewrite app_nil_r. split; reflexivity.
Qed.

Lemma captured_eq (html : string) (star : Z) (st : St) :
  captured E html star st
  = reviews_at E (select (BeautifulSoup html) REVIEW_SELECTORS.container)
      star (n_now (snd st)).
Proof.
  unfold captured.
  destruct (_extract_reviews_from_page_run html star st) as (_ & -> & _).
  rewrite skipn_app, skipn_all, Nat.sub_diag. reflexivity.
Qed.

Lemma reviews_at_same_but_date (els : list Tag) (star : Z) :
  forall i j,
  Forall2 same_but_extracted_date (reviews_at E els star i)
                                  (reviews_at E els star j).
Proof.
  induction els as [|el els IH]; intros i j; simpl; constructor.
  - apply review_at_same_but_date.
  - apply IH.
Qed.

Lemma reviews_at_extracted_date (els : list Tag) (star : Z) :
  forall i k r,
  nth_error (reviews_at E els star i) k = Some r ->
  extracted_date r = now E (i + k).
Proof.
  induction els as [|el els IH]; intros i k r Hk.
  - destruct k; discriminate.
  - destruct k as [|k]; simpl in Hk.
    + injection Hk as <-. rewrite Nat.add_0_r. apply review_at_extracted_date.
    + rewrite (IH _ _ _ Hk). f_equal. lia.
Qed.

Lemma reviews_at_same_clock (els : list Tag) (star : Z) :
  forall i j,
  (forall k, (k < List.length els)%nat -> now E (i + k) = now E (j + k)) ->
  reviews_at E els star i = reviews_at E els star j.
Proof.
  induction els as [|el els IH]; intros i j Hnow; [reflexivity|].
  simpl. f_equal.
  - apply review_at_same_clock.
    specialize (Hnow O ltac:(simpl; lia)). rewrite !Nat.add_0_r in Hnow.
    exact Hnow.
  - apply IH. intros k Hk. specialize (Hnow (S k) ltac:(simpl; lia)).
    replace (S i + k)%nat with (i + S k)%nat by lia.
    replace (S j + k)%nat with (j + S k)%nat by lia. exact Hnow.
Qed.

(** C7, as amended: two extractions from the same page content return
    the same count and capture reviews that agree on the star rating,
    title, text, date, verified flag and author; the capture timestamp of
    each review is the reading of the clock at its extraction, so the
    records are identical when the clock readings are. *)
Theorem extraction_repeatable_up_to_timestamp (html : string) (star : Z)
    (st1 st2 : St) :
  fst (_extract_reviews_from_page E html star st1)
  = fst (_extract_reviews_from_page E html star st2)
  /\ Forall2 same_but_extracted_date (captured E html star st1)
                                    (captured E html star st2)
  /\ (forall k r, nth_error (captured E html star st1) k = Some r ->
        extracted_date r = now E (n_now (snd st1) + k))
  /\ ((forall k, now E (n_now (snd st1) + k) = now E (n_now (snd st2) + k)) ->
      captured E html star st1 = captured E html star st2).
Proof.
  rewrite !captured_eq.
  destruct (_extract_reviews_from_page_run html star st1) as (-> & _).
  destruct (_extract_reviews_from_page_run html star st2) as (-> & _).
  split; [reflexivity|].
  split; [apply reviews_at_same_but_date|].
  split; [apply reviews_at_extracted_date|].
  intros Hnow. apply reviews_at_same_clock. intros k _. apply Hnow.
Qed.
End Extraction.

(** C7, as stated, fails: the same page extracted twice in a row, with a
    clock that has moved on by a second, gives two records that differ in
    [extracted_date]. *)
Lemma extraction_twice_differs :
  let E := env_always review_page in
  let st0 := (scraper0 (Some session0) 1, world0) in
  let st1 := snd (@_extract_reviews_from_page fix_bs4 E review_page 5 st0) in
  @captured fix_bs4 E review_page 5 st0 <> @captured fix_bs4 E review_page 5 st1.
Proof.
  vm_compute. intros H. discriminate H.
Qed.

(** ** The coordinator *)

Lemma fetch_outcome (E : Env) (url : string) (session : option requests.Session)
    (w : World) (o : option requests.Response) :
  fetch_finds E (effective_session E session w) url (n_get w) o ->
  fst (make_request_with_backoff E url session 3 w) = o.
Proof.
  destruct o as [r|]; simpl.
  - intros (k & Hk & Hfail & Hget & H200).
    rewrite (fetch_succeeds_after E url session 3 w k r) by (assumption || lia).
    reflexivity.
  - intros Hfail.
    rewrite (fetch_exhausts E url session 3 w) by exact Hfail.
    reflexivity.
Qed.

(** Whatever the network does, a fetch records its call once and only
    adds GETs, sleeps and log records after it. *)
Lemma fetch_effect (E : Env) (url : string) (session : option requests.Session)
    (max_retries : Z) (w : World) :
  exists k r evs,
    snd (make_request_with_backoff E url session max_retries w)
    = advance (start_world url session w) k r evs
    /\ count_fetches evs = O.
Proof.
  destruct (first_success E (effective_session E session w) url (n_get w)
              (Z.to_nat max_retries))
    as [Hall | (k0 & r0 & Hk0 & Hfail0 & Hget0 & H2000)].
  - rewrite (fetch_exhausts E url session max_retries w Hall).
    eexists _, _, _. split; [reflexivity|].
    apply count_fetches_failed_attempts.
  - rewrite (fetch_succeeds_after E url session max_retries w k0 r0)
      by (assumption || lia).
    eexists _, _, _. split; [reflexivity|].
    rewrite count_fetches_app, count_fetches_failed_attempts. reflexivity.
Qed.

Lemma fetch_returns_200 (E : Env) (url : string)
    (session : option requests.Session) (max_retries : Z) (w : World)
    (r : requests.Response) :
  fst (make_request_with_backoff E url session max_retries w) = Some r ->
  requests.status_code r = 200.
Proof.
  destruct (first_success E (effective_session E session w) url (n_get w)
              (Z.to_nat max_retries))
    as [Hall | (k0 & r0 & Hk0 & Hfail0 & Hget0 & H2000)].
  - rewrite (fetch_exhausts E url session max_retries w Hall). discriminate.
  - rewrite (fetch_succeeds_after E url session max_retries w k0 r0)
      by (assumption || lia).
    simpl. intros [= <-]. exact H2000.
Qed.

Lemma fetch_result_was_returned (E : Env) (url : string)
    (session : option requests.Session) (max_retries : Z) (w : World)
    (r : requests.Response) :
  fst (make_request_with_backoff E url session max_retries w) = Some r ->
  exists i, http_get E i (effective_session E session w) url
            = requests.Returns r.
Proof.
  destruct (first_success E (effective_session E session w) url (n_get w)
              (Z.to_nat max_retries))
    as [Hall | (k0 & r0 & Hk0 & Hfail0 & Hget0 & H2000)].
  - rewrite (fetch_exhausts E url session max_retries w Hall). discriminate.
  - rewrite (fetch_succeeds_after E url session max_retries w k0 r0)
      by (assumption || lia).
    simpl. intros [= <-]. exists (n_get w + k0)%nat. exact Hget0.
Qed.

Lemma new_events_app (w w' : World) (evs : list Event) :
  trace w' = trace w ++ evs -> new_events w w' = evs.
Proof.
  intros H. unfold new_events. rewrite H.
  rewrite skipn_app, skipn_all, Nat.sub_diag. reflexivity.
Qed.

Section Coordinator.
Context {B : Bs4}.
Variable E : Env.

(** C9: without a session [scrape_reviews] returns an empty table and
    touches neither the network nor the clock: no fetch, no GET and no
    sleep is recorded, and the scraper is left as it was. *)
Theorem scrape_reviews_without_session (product_url : string)
    (max_pages_per_star : Z) (self : ReviewScraper) (w : World) :
  session self = None ->
  let res := scrape_reviews E product_url max_pages_per_star (self, w) in
  fst res = Returned []
  /\ fst (snd res) = self
  /\ n_get (snd (snd res)) = n_get w
  /\ count_fetches (new_events w (snd (snd res))) = O
  /\ count_gets (new_events w (snd (snd res))) = O
  /\ count_sleeps (new_events w (snd (snd res))) = O.
Proof.
  intros Hnone res. subst res. unfold scrape_reviews.
  destruct (extract_product_id product_url) as [product_id|].
  - unfold bind, lift, get_self, log, emit, ret. cbn [fst snd].
    rewrite Hnone. cbn [fst snd trace n_get].
    rewrite (new_events_app w _ [Log INFO (Starting_review_scraping product_id);
                                 Log ERROR No_session_provided])
      by (simpl; rewrite <- app_assoc; reflexivity).
    repeat split.
  - unfold bind, lift, log, emit, ret. cbn [fst snd trace n_get].
    rewrite (new_events_app w _ [Log ERROR (Invalid_product_URL product_url)])
      by reflexivity.
    repeat split.
Qed.

(** An aborted run: the events are the start record, the canary fetch
    and one ERROR record; nothing else happens. *)
Lemma scrape_reviews_abort (product_url product_id : string)
    (max_pages_per_star : Z) (self : ReviewScraper) (w : World)
    (s : requests.Session) :
  extract_product_id product_url = Some product_id ->
  session self = Some s ->
  canary_fails E s product_id (n_get w) ->
  let res := scrape_reviews E product_url max_pages_per_star (self, w) in
  fst res = Returned []
  /\ fst (snd res) = self
  /\ exists evs msg,
       new_events w (snd (snd res))
       = Log INFO (Starting_review_scraping product_id)
         :: Fetch (canary_url product_id) :: evs ++ [Log ERROR msg]
       /\ count_fetches evs = O
       /\ (msg = Failed_to_access_Amazon_reviews
           \/ msg = Amazon_is_requiring_login_or_showing_a_captcha).
Proof.
  intros Hid Hs Hcanary res. subst res. unfold scrape_reviews.
  rewrite Hid.
  unfold bind, lift, get_self, log, emit, ret. cbn [fst snd].
  rewrite Hs. cbn [fst snd].
  match goal with
  | |- context [make_request_with_backoff E ?u ?ss 3 ?w0] =>
    set (w1 := w0);
    destruct (fetch_effect E u ss 3 w1) as (k & rr & evs & Hsnd & Hcount);
    rewrite Hsnd
  end.
  assert (Htrace : forall tail,
            new_events w
              (advance (advance (start_world (canary_url product_id) (Some s) w1)
                          k rr evs) 0 0 tail)
            = Log INFO (Starting_review_scraping product_id)
              :: Fetch (canary_url product_id) :: evs ++ tail).
  { intros tail. apply new_events_app. simpl.
    rewrite <- !app_assoc. reflexivity. }
  destruct Hcanary as [Hnone | (r & Hsome & Hblock)].
  - rewrite (fetch_outcome E _ (Some s) w1 None Hnone).
    unfold bind, lift, log, emit, ret. cbn [fst snd].
    split; [reflexivity|]. split; [reflexivity|].
    match goal with
    | |- context [new_events w ?w2] =>
      replace w2 with
        (advance (advance (start_world (canary_url product_id) (Some s) w1)
                    k rr evs) 0 0 [Log ERROR Failed_to_access_Amazon_reviews])
        by (apply World_eq; simpl; try reflexivity; lia)
    end.
    rewrite Htrace. exists evs, Failed_to_access_Amazon_reviews.
    split; [reflexivity|]. split; [exact Hcount|]. left. reflexivity.
  - rewrite (fetch_outcome E _ (Some s) w1 (Some r) Hsome).
    rewrite Hblock.
    unfold bind, lift, log, emit, ret. cbn [fst snd].
    split; [reflexivity|]. split; [reflexivity|].
    match goal with
    | |- context [new_events w ?w2] =>
      replace w2 with
        (advance (advance (start_world (canary_url product_id) (Some s) w1)
                    k rr evs) 0 0
           [Log ERROR Amazon_is_requiring_login_or_showing_a_captcha])
        by (apply World_eq; simpl; try reflexivity; lia)
    end.
    rewrite Htrace. exists evs, Amazon_is_requiring_login_or_showing_a_captcha.
    split; [reflexivity|]. split; [exact Hcount|]. right. reflexivity.
Qed.

(** C1: when the canary fetch fails outright, or returns a body with a
    login-wall or captcha marker, [scrape_reviews] returns an empty
    table; the canary is the only fetch of the run, and the scraper's
    queue and counters are untouched. *)
Theorem scrape_reviews_aborts_on_canary (product_url product_id : string)
    (max_pages_per_star : Z) (self : ReviewScraper) (w : World)
    (s : requests.Session) :
  extract_product_id product_url = Some product_id ->
  session self = Some s ->
  canary_fails E s product_id (n_get w) ->
  let res := scrape_reviews E product_url max_pages_per_star (self, w) in
  fst res = Returned []
  /\ fst (snd res) = self
  /\ count_fetches (new_events w (snd (snd res))) = 1%nat
  /\ exists evs, new_events w (snd (snd res))
                 = Log INFO (Starting_review_scraping product_id)
                   :: Fetch (canary_url product_id) :: evs.
Proof.
  intros Hid Hs Hcanary res.
  destruct (scrape_reviews_abort product_url product_id max_pages_per_star
              self w s Hid Hs Hcanary)
    as (Hres & Hself & evs & msg & Hev & Hcount & _).
  fold res in Hres, Hself, Hev.
  split; [exact Hres|]. split; [exact Hself|]. rewrite Hev.
  split; [|eexists; reflexivity].
  change (S (count_fetches (evs ++ [Log ERROR msg])) = 1%nat).
  rewrite count_fetches_app, Hcount. reflexivity.
Qed.
End Coordinator.

Lemma extends_refl (w : World) : extends w w 0.
Proof. exists []. rewrite app_nil_r. split; reflexivity. Qed.

Lemma extends_trans (w1 w2 w3 : World) (n m : nat) :
  extends w1 w2 n -> extends w2 w3 m -> extends w1 w3 (n + m).
Proof.
  intros (e1 & H1 & <-) (e2 & H2 & <-). exists (e1 ++ e2).
  rewrite H2, H1, <- app_assoc, count_fetches_app. split; reflexivity.
Qed.

Lemma extends_advance (w : World) (k r : nat) (evs : list Event) :
  extends w (advance w k r evs) (count_fetches evs).
Proof. exists evs. split; reflexivity. Qed.

Lemma extends_new_events (w w' : World) (n : nat) :
  extends w w' n -> count_fetches (new_events w w') = n.
Proof. intros (evs & H & <-). rewrite (new_events_app _ _ _ H). reflexivity. Qed.

Lemma extends_fetch (E : Env) (url : string) (session : option requests.Session)
    (max_retries : Z) (w : World) :
  extends w (snd (make_request_with_backoff E url session max_retries w)) 1.
Proof.
  destruct (fetch_effect E url session max_retries w) as (k & r & evs & -> & Hc).
  exists (Fetch url :: evs). split.
  - simpl. rewrite <- app_assoc. reflexivity.
  - change (S (count_fetches evs) = 1%nat). rewrite Hc. reflexivity.
Qed.

Lemma fetch_keeps_clock (E : Env) (url : string)
    (session : option requests.Session) (max_retries : Z) (w : World) :
  n_now (snd (make_request_with_backoff E url session max_retries w)) = n_now w.
Proof.
  destruct (fetch_effect E url session max_retries w) as (k & r & evs & -> & _).
  reflexivity.
Qed.

Lemma STAR_FILTERS_lookup (s : Z) :
  1 <= s <= 5 -> exists star_filter, STAR_FILTERS !! s = Some star_filter.
Proof.
  intros Hs.
  assert (s = 1 \/ s = 2 \/ s = 3 \/ s = 4 \/ s = 5) as [->|[->|[->|[->| ->]]]]
    by lia; eexists; reflexivity.
Qed.

Lemma ok_200 (r : requests.Response) :
  requests.status_code r = 200 -> requests.ok r = true.
Proof. intros H. unfold requests.ok. rewrite H. reflexivity. Qed.

(** *** Running monadic code *)

Lemma bind_run {S A C : Type} (c : M S A) (k : A -> M S C) (st : S) :
  bind c k st = k (fst (c st)) (snd (c st)).
Proof. reflexivity. Qed.

Lemma ret_run {S A : Type} (a : A) (st : S) : ret a st = (a, st).
Proof. reflexivity. Qed.

Lemma lift_run {A : Type} (c : M World A) (self : ReviewScraper) (w : World) :
  lift c (self, w) = (fst (c w), (self, snd (c w))).
Proof. reflexivity. Qed.

Lemma get_self_run (self : ReviewScraper) (w : World) :
  get_self (self, w) = (self, (self, w)).
Proof. reflexivity. Qed.

Lemma emit_run (e : Event) (w : World) : emit e w = (tt, advance w 0 0 [e]).
Proof.
  unfold emit. f_equal. apply World_eq; simpl; try reflexivity; lia.
Qed.

Lemma log_run (lvl : Level) (msg : LogMsg) (w : World) :
  log lvl msg w = (tt, advance w 0 0 [Log lvl msg]).
Proof. apply emit_run. Qed.

Lemma time_sleep_run (d : Q) (w : World) :
  time_sleep d w = (tt, advance w 0 0 [Sleep d]).
Proof. apply emit_run. Qed.

Lemma get_random_delay_run (E : Env) (w : World) :
  get_random_delay E w = (jitter_delay E (n_random w), advance w 0 1 []).
Proof.
  unfold get_random_delay, random_uniform, random_random, bind, ret. simpl.
  f_equal. apply World_eq; simpl; try reflexivity; try lia.
  symmetry. apply app_nil_r.
Qed.

Lemma incr_failed_requests_run (self : ReviewScraper) (w : World) :
  incr_failed_requests (self, w)
  = (tt, ({| session := session self; max_threads := max_threads self;
             reviews_queue := reviews_queue self;
             total_reviews := total_reviews self;
             successful_requests := successful_requests self;
             failed_requests := failed_requests self + 1 |}, w)).
Proof. reflexivity. Qed.

Lemma incr_successful_requests_run (self : ReviewScraper) (w : World) :
  incr_successful_requests (self, w)
  = (tt, ({| session := session self; max_threads := max_threads self;
             reviews_queue := reviews_queue self;
             total_reviews := total_reviews self;
             successful_requests := successful_requests self + 1;
             failed_requests := failed_requests self |}, w)).
Proof. reflexivity. Qed.

Ltac run_step :=
  first [ rewrite bind_run; cbv beta
        | rewrite lift_run
        | rewrite get_self_run
        | rewrite ret_run
        | rewrite log_run
        | rewrite emit_run
        | rewrite time_sleep_run
        | rewrite get_random_delay_run
        | rewrite incr_failed_requests_run
        | rewrite incr_successful_requests_run ];
  cbn [fst snd].

Ltac run := cbn [fst snd]; repeat run_step.

Lemma first_pages_delay_run (E : Env) (page : Z) (self : ReviewScraper)
    (w : World) :
  exists r evs,
    first_pages_delay E page (self, w) = (tt, (self, advance w 0 r evs))
    /\ count_fetches evs = O.
Proof.
  unfold first_pages_delay. destruct (page <=? 2).
  - run. rewrite advance_advance. eexists _, _. split; reflexivity.
  - run. exists O, []. rewrite advance_0. split; reflexivity.
Qed.

Section Tasks.
Context {B : Bs4}.
Variable E : Env.

(** What a task does to the scraper and to the trace, whatever its
    fetch finds. *)
Lemma _scrape_single_page_effect (product_id : string) (star page : Z)
    (self : ReviewScraper) (w : World) (star_filter : string) :
  STAR_FILTERS !! star = Some star_filter ->
  let res := _scrape_single_page E product_id star page (self, w) in
  (exists n, fst res = Returned n)
  /\ session (fst (snd res)) = session self
  /\ max_threads (fst (snd res)) = max_threads self
  /\ successful_requests (fst (snd res)) + failed_requests (fst (snd res))
     = successful_requests self + failed_requests self + 1
  /\ (exists q, reviews_queue (fst (snd res)) = reviews_queue self ++ q)
  /\ extends w (snd (snd res)) 1.
Proof.
  intros Hf res. subst res. unfold _scrape_single_page. rewrite Hf.
  destruct (first_pages_delay_run E page self w) as (r0 & evs0 & Hpre & Hc0).
  rewrite bind_run, Hpre. cbn [fst snd]. run.
  match goal with
  | |- context [make_request_with_backoff E ?u ?ss 3 ?w0] =>
    set (fr := make_request_with_backoff E u ss 3 w0);
    pose proof (extends_fetch E u ss 3 w0) as Hext;
    pose proof (fetch_returns_200 E u ss 3 w0) as H200;
    fold fr in Hext, H200
  end.
  assert (Hw : extends w (advance w 0 r0 evs0) 0).
  { rewrite <- Hc0. apply extends_advance. }
  pose proof (extends_trans _ _ _ _ _ Hw Hext) as Hext1.
  destruct (fst fr) as [r|] eqn:Hfr.
  - specialize (H200 r eq_refl).
    unfold falsy. rewrite (ok_200 r H200). cbn [negb].
    destruct (soft_blocked (requests.text r)).
    + run. cbn. repeat split; try lia.
      * eexists; reflexivity.
      * exists []. symmetry. apply app_nil_r.
      * apply (extends_trans _ _ _ 1 0 Hext1). apply extends_advance.
    + run.
      match goal with
      | |- context [_extract_reviews_from_page E ?h ?s0 ?st0] =>
        destruct (_extract_reviews_from_page_run E h s0 st0)
          as (Hn & Hq & Hsucc & Hfail & Hsess & Hmax & Hext2)
      end.
      cbn [fst snd] in *.
      rewrite Hq, Hsucc, Hfail, Hsess, Hmax. cbn.
      repeat split; try lia.
      * eexists; reflexivity.
      * eexists; reflexivity.
      * apply (extends_trans _ _ _ 1 0 Hext1). exact Hext2.
  - run. cbn. repeat split; try lia.
    + eexists; reflexivity.
    + exists []. symmetry. apply app_nil_r.
    + apply (extends_trans _ _ _ 1 0 Hext1). apply extends_advance.
Qed.
End Tasks.

Section Run.
Context {B : Bs4}.
Variable E : Env.

(** A task whose fetch fails is counted as one failure and captures
    nothing. *)
Lemma failed_task_effect (product_id : string) (star page : Z)
    (self : ReviewScraper) (w : World) (star_filter : string) :
  STAR_FILTERS !! star = Some star_filter ->
  task_fetch_fails E (effective_session E (session self) w)
    (REVIEWS_URL product_id star_filter page) (n_get w) ->
  let res := _scrape_single_page E product_id star page (self, w) in
  fst res = Returned 0
  /\ failed_requests (fst (snd res)) = failed_requests self + 1
  /\ successful_requests (fst (snd res)) = successful_requests self
  /\ reviews_queue (fst (snd res)) = reviews_queue self.
Proof.
  intros Hf Hfails res. subst res. unfold _scrape_single_page. rewrite Hf.
  destruct (first_pages_delay_run E page self w) as (r0 & evs0 & Hpre & Hc0).
  rewrite bind_run, Hpre. cbn [fst snd]. run.
  match goal with
  | |- context [make_request_with_backoff E ?u ?ss 3 ?w0] =>
    pose proof (fetch_outcome E u ss w0) as Hout;
    set (fr := make_request_with_backoff E u ss 3 w0) in *
  end.
  cbn [n_get advance] in Hout. rewrite Nat.add_0_r in Hout.
  change (effective_session E (session self) (advance w 0 r0 evs0))
    with (effective_session E (session self) w) in Hout.
  destruct Hfails as [Hnone | (r & Hsome & Hblock)].
  - rewrite (Hout None Hnone). run. repeat split.
  - rewrite (Hout (Some r) Hsome).
    destruct Hsome as (k & _ & _ & _ & H200).
    unfold falsy. rewrite (ok_200 r H200). cbn [negb]. rewrite Hblock.
    run. repeat split.
Qed.

Lemma run_tasks_effect (product_id : string) (tasks : list ScrapeTask) :
  forall (self : ReviewScraper) (w : World),
  (forall t, In t tasks -> 1 <= fst t <= 5) ->
  let res := run_tasks E product_id tasks (self, w) in
  session (fst (snd res)) = session self
  /\ max_threads (fst (snd res)) = max_threads self
  /\ successful_requests (fst (snd res)) + failed_requests (fst (snd res))
     = successful_requests self + failed_requests self
       + Z.of_nat (List.length tasks)
  /\ (exists q, reviews_queue (fst (snd res)) = reviews_queue self ++ q)
  /\ extends w (snd (snd res)) (List.length tasks).
Proof.
  induction tasks as [|[star page] tasks IH]; intros self w Hstars res;
    subst res.
  - cbn [run_tasks]. run. cbn [List.length]. repeat split; try lia.
    + exists []. symmetry. apply app_nil_r.
    + apply extends_refl.
  - destruct (STAR_FILTERS_lookup star) as [f Hf].
    { apply (Hstars (star, page)). left. reflexivity. }
    cbn [run_tasks]. rewrite bind_run.
    destruct (_scrape_single_page_effect E product_id star page self w f Hf)
      as ((n & Hn) & Hsess & Hmax & Hsum & (q1 & Hq1) & Hext).
    destruct (_scrape_single_page E product_id star page (self, w))
      as [res1 [self1 w1]].
    cbn [fst snd] in *. subst res1. run.
    specialize (IH self1 (advance w1 0 0 [Log INFO (Completed_task star page n)])
                  ltac:(intros t Ht; apply Hstars; right; exact Ht)).
    cbv zeta in IH.
    destruct IH as (IHsess & IHmax & IHsum & (q2 & IHq) & IHext).
    rewrite IHsess, IHmax, IHq, Hsess, Hmax, Hq1. cbn [List.length].
    repeat split; try lia.
    + exists (q1 ++ q2). rewrite app_assoc. reflexivity.
    + change (S (List.length tasks)) with (1 + List.length tasks)%nat.
      apply (extends_trans _ _ _ 1 (List.length tasks) Hext).
      replace (List.length tasks) with (0 + List.length tasks)%nat at 1 by lia.
      eapply extends_trans; [|exact IHext]. apply extends_advance.
Qed.
End Run.

Lemma drain_queue_run (self : ReviewScraper) (w : World) :
  drain_queue (self, w) = (reviews_queue self, (with_queue self [], w)).
Proof. reflexivity. Qed.

Lemma scrape_tasks_stars (N : Z) (t : ScrapeTask) :
  In t (scrape_tasks N) -> 1 <= fst t <= 5.
Proof.
  unfold scrape_tasks. rewrite in_flat_map. intros [s [Hs Hin]].
  apply in_map_iff in Hin. destruct Hin as [p [<- _]].
  rewrite py_range_stars in Hs. simpl in *. lia.
Qed.

Section Completion.
Context {B : Bs4}.
Variable E : Env.

(** A run whose canary passes runs every task and returns the drained
    queue; the counters are those of the tasks run one after the other. *)
Lemma scrape_reviews_completes (product_url product_id : string) (N : Z)
    (self : ReviewScraper) (w : World) (s : requests.Session) :
  extract_product_id product_url = Some product_id ->
  session self = Some s ->
  canary_passes E s product_id (n_get w) ->
  1 <= max_threads self ->
  0 <= N ->
  let res := scrape_reviews E product_url N (self, w) in
  exists df,
    fst res = Returned df
    /\ (exists q, df = reviews_queue self ++ q)
    /\ successful_requests (fst (snd res)) + failed_requests (fst (snd res))
       = successful_requests self + failed_requests self + 5 * N
    /\ count_fetches (new_events w (snd (snd res))) = (1 + 5 * Z.to_nat N)%nat
    /\ (df = [] ->
        exists evs, new_events w (snd (snd res))
                    = evs ++ [Log WARNING No_reviews_were_collected])
    /\ (df <> [] ->
        exists evs, new_events w (snd (snd res))
                    = evs ++ [To_csv product_id df;
                              Log INFO (Reviews_saved_to product_id)]).
Proof.
  intros Hid Hs (r & Hfinds & Hblock) Hthreads HN res. subst res.
  unfold scrape_reviews. rewrite Hid. run. rewrite Hs. run.
  match goal with
  | |- context [make_request_with_backoff E ?u ?ss 3 ?w0] =>
    pose proof (fetch_outcome E u ss w0) as Hout;
    pose proof (extends_fetch E u ss 3 w0) as Hext;
    set (fr := make_request_with_backoff E u ss 3 w0) in *
  end.
  cbn [n_get advance effective_session] in Hout.
  rewrite Nat.add_0_r in Hout.
  rewrite (Hout (Some r) Hfinds), Hblock. run.
  assert (Hgt : (max_threads self <=? 0) = false) by (apply Z.leb_gt; lia).
  rewrite Hgt. run.
  match goal with
  | |- context [run_tasks E product_id ?ts (self, ?w0)] =>
    destruct (run_tasks_effect E product_id ts self w0
                (scrape_tasks_stars N))
      as (Hsess & Hmax & Hsum & (q & Hq) & Hext2);
    destruct (run_tasks E product_id ts (self, w0)) as [u [self2 w2]]
  end.
  cbn [fst snd] in *. rewrite drain_queue_run. run.
  rewrite length_scrape_tasks in Hsum, Hext2 by lia.
  assert (Hall : extends w w2 (1 + Z.to_nat (5 * N))).
  { replace (1 + Z.to_nat (5 * N))%nat
      with (0 + 1 + 0 + Z.to_nat (5 * N))%nat by lia.
    eapply extends_trans; [|exact Hext2].
    eapply extends_trans; [|apply extends_advance].
    eapply extends_trans; [|exact Hext].
    apply extends_advance. }
  destruct Hall as (evs & Htrace & Hcount).
  exists (reviews_queue self2). rewrite Hq.
  destruct (reviews_queue self ++ q) as [|rv df] eqn:Hdf.
  - cbv beta iota. run.
    cbn [fst snd with_queue successful_requests failed_requests].
    rewrite (new_events_app w _
               ((evs ++ [Log INFO (Completed_scraping (List.length (@nil Review)));
                         Log INFO (Successful_and_failed_requests
                                     (successful_requests self2)
                                     (failed_requests self2))])
                ++ [Log WARNING No_reviews_were_collected]))
      by (cbn; rewrite Htrace, <- !app_assoc; reflexivity).
    split; [reflexivity|]. split; [exists q; symmetry; exact Hdf|].
    split; [lia|]. split.
    { rewrite !count_fetches_app, Hcount. cbn. lia. }
    split; [intros _; eexists; reflexivity|].
    intros Hne. destruct (Hne eq_refl).
  - cbv beta iota. run.
    cbn [fst snd with_queue successful_requests failed_requests].
    rewrite (new_events_app w _
               ((evs ++ [Log INFO (Completed_scraping (List.length (rv :: df)));
                         Log INFO (Successful_and_failed_requests
                                     (successful_requests self2)
                                     (failed_requests self2))])
                ++ [To_csv product_id (rv :: df);
                    Log INFO (Reviews_saved_to product_id)]))
      by (cbn; rewrite Htrace, <- !app_assoc; reflexivity).
    split; [reflexivity|]. split; [exists q; symmetry; exact Hdf|].
    split; [lia|]. split.
    { rewrite !count_fetches_app, Hcount. cbn. lia. }
    split; [intros Heq; discriminate Heq|].
    intros _. eexists; reflexivity.
Qed.
End Completion.

Section Outcomes.
Context {B : Bs4}.
Variable E : Env.

(** C6, as amended: [scrape_reviews] returns the table and no status.
    An aborted run and a completed run that captured nothing both return
    the empty table.  What tells them apart is outside the returned
    value: the last log record of an aborted run is an ERROR (access
    failed, or login or captcha required) and the scraper is left as it
    was; the last log record of a completed run with an empty table is
    the WARNING that no reviews were collected, whatever the number of
    workers.  With one worker ([max_threads = 1]), where the tasks run one
    after the other, the request counters of such a run have gone up by
    [5N] in total. *)
Theorem empty_table_carries_no_status :
  (forall (product_url product_id : string) (N : Z) (self : ReviewScraper)
          (w : World) (s : requests.Session),
      extract_product_id product_url = Some product_id ->
      session self = Some s ->
      canary_fails E s product_id (n_get w) ->
      let res := scrape_reviews E product_url N (self, w) in
      fst res = Returned []
      /\ fst (snd res) = self
      /\ exists evs msg,
           new_events w (snd (snd res)) = evs ++ [Log ERROR msg]
           /\ (msg = Failed_to_access_Amazon_reviews
               \/ msg = Amazon_is_requiring_login_or_showing_a_captcha))
  /\ (forall (product_url product_id : string) (N : Z) (self : ReviewScraper)
             (w : World) (s : requests.Session),
         extract_product_id product_url = Some product_id ->
         session self = Some s ->
         canary_passes E s product_id (n_get w) ->
         1 <= max_threads self ->
         0 <= N ->
         let res := scrape_reviews E product_url N (self, w) in
         fst res = Returned [] ->
         (exists evs,
             new_events w (snd (snd res))
             = evs ++ [Log WARNING No_reviews_were_collected])
         /\ (max_threads self = 1 ->
             successful_requests (fst (snd res))
             + failed_requests (fst (snd res))
             = successful_requests self + failed_requests self + 5 * N)).
Proof.
  split.
  - intros product_url product_id N self w s Hid Hs Hfails res.
    destruct (scrape_reviews_abort E product_url product_id N self w s
                Hid Hs Hfails)
      as (Hres & Hself & evs & msg & Hev & _ & Hmsg).
    fold res in Hres, Hself, Hev. split; [exact Hres|]. split; [exact Hself|].
    exists (Log INFO (Starting_review_scraping product_id)
            :: Fetch (canary_url product_id) :: evs), msg.
    split; [exact Hev | exact Hmsg].
  - intros product_url product_id N self w s Hid Hs Hpass Hthreads HN res Hempty.
    destruct (scrape_reviews_completes E product_url product_id N self w s
                Hid Hs Hpass Hthreads HN)
      as (df & Hres & _ & Hsum & _ & Hlast & _).
    fold res in Hres, Hsum, Hlast. rewrite Hres in Hempty.
    split; [apply Hlast; congruence | intros _; exact Hsum].
Qed.
End Outcomes.

(** C6, as stated, fails: a run aborted by the canary and a run that
    completed all its tasks and found no review return the same value,
    the empty table, and nothing else. *)
Lemma aborted_and_empty_runs_return_the_same :
  let self := scraper0 (Some session0) 10 in
  let aborted := @scrape_reviews fix_bs4 env_down product_url0 1 (self, world0) in
  let completed :=
    @scrape_reviews fix_bs4 (env_pages plain_page empty_page)
      product_url0 1 (self, world0) in
  count_fetches (trace (snd (snd aborted))) = 1%nat
  /\ count_fetches (trace (snd (snd completed))) = 6%nat
  /\ fst aborted = Returned []
  /\ fst completed = Returned []
  /\ ~ (fst aborted <> fst completed).
Proof.
  vm_compute. repeat split; intros H; apply H; reflexivity.
Qed.

(** ** The worker pool *)

Lemma pool_exec_step (a : Pool.action) (c c' : Pool.config) :
  Pool.exec a c = Some c' -> Pool.step c c'.
Proof.
  destruct a; unfold Pool.exec;
    destruct (Pool.threads c !! i) as [[]|] eqn:Hi; try discriminate.
  - destruct (0 <? Pool.semaphore c) eqn:Hs; [|discriminate].
    intros [= <-]. apply Pool.acquire; [exact Hi | apply Z.ltb_lt; exact Hs].
  - intros [= <-]. apply Pool.fetch_fails. exact Hi.
  - intros [= <-]. apply Pool.fetch_succeeds. exact Hi.
  - intros [= <-]. apply Pool.fetch_raises. exact Hi.
  - intros [= <-]. apply Pool.load_failed. exact Hi.
  - intros [= <-]. apply Pool.store_failed. exact Hi.
  - intros [= <-]. apply Pool.load_successful. exact Hi.
  - intros [= <-]. apply Pool.store_successful. exact Hi.
  - intros [= <-]. apply Pool.extract. exact Hi.
  - intros [= <-]. apply Pool.extract_raises. exact Hi.
  - intros [= <-]. apply Pool.release. exact Hi.
Qed.

Lemma pool_run_steps (schedule : list Pool.action) :
  forall c c', Pool.run schedule c = Some c' -> rtc Pool.step c c'.
Proof.
  induction schedule as [|a rest IH]; intros c c' Hrun; simpl in Hrun.
  - injection Hrun as <-. apply rtc_refl.
  - destruct (Pool.exec a c) as [c1|] eqn:Ha; [|discriminate].
    eapply rtc_l; [apply (pool_exec_step a); exact Ha | apply IH; exact Hrun].
Qed.

Lemma pool_run_reachable (max_threads : Z) (tasks : nat)
    (schedule : list Pool.action) (c : Pool.config) :
  Pool.run schedule (Pool.init max_threads tasks) = Some c ->
  Pool.reachable max_threads tasks c.
Proof. apply pool_run_steps. Qed.

Lemma number_update (f : Pool.pc -> bool) (c : Pool.config) (i : nat)
    (p p' : Pool.pc) (s fl k : Z) :
  Pool.threads c !! i = Some p ->
  Pool.number f (Pool.update c i p' s fl k)
  = Pool.number f c - Z.b2z (f p) + Z.b2z (f p').
Proof.
  unfold Pool.number, Pool.update. simpl.
  generalize (Pool.threads c). intros l. revert i.
  induction l as [|q l IH]; intros i Hi; [discriminate|].
  destruct i as [|i]; simpl in Hi |- *.
  - injection Hi as ->. destruct (f p), (f p'); simpl; lia.
  - specialize (IH i Hi). destruct (f q); simpl in *; lia.
Qed.

Lemma number_nonneg (f : Pool.pc -> bool) (c : Pool.config) :
  0 <= Pool.number f c.
Proof. unfold Pool.number. lia. Qed.

Lemma number_init (f : Pool.pc -> bool) (max_threads : Z) (tasks : nat) :
  f Pool.Submitted = false -> Pool.number f (Pool.init max_threads tasks) = 0.
Proof.
  intros Hf. unfold Pool.number, Pool.init. simpl.
  induction tasks as [|n IH]; simpl; [reflexivity|].
  rewrite Hf. exact IH.
Qed.



(** Two different tasks at points that satisfy [f] count for two. *)
Lemma number_two (f : Pool.pc -> bool) (c : Pool.config) (i j : nat)
    (p q : Pool.pc) :
  i <> j ->
  Pool.threads c !! i = Some p -> Pool.threads c !! j = Some q ->
  f p = true -> f q = true ->
  2 <= Pool.number f c.
Proof.
  unfold Pool.number. generalize (Pool.threads c). intros l. revert i j.
  assert (Hone : forall (l : list Pool.pc) i p,
             l !! i = Some p -> f p = true ->
             1 <= Z.of_nat (List.length (List.filter f l))).
  { clear. intros l. induction l as [|x l IH]; intros i p Hi Hp; [discriminate|].
    destruct i as [|i]; simpl in Hi |- *.
    - injection Hi as ->. rewrite Hp. simpl. lia.
    - specialize (IH i p Hi Hp). destruct (f x); simpl; lia. }
  induction l as [|x l IH]; intros i j Hne Hi Hj Hp Hq; [discriminate|].
  destruct i as [|i], j as [|j]; simpl in Hi, Hj |- *; try congruence.
  - injection Hi as ->. rewrite Hp. specialize (Hone l j q Hj Hq). simpl. lia.
  - injection Hj as ->. rewrite Hq. specialize (Hone l i p Hi Hp). simpl. lia.
  - specialize (IH i j ltac:(congruence) Hi Hj Hp Hq).
    destruct (f x); simpl; lia.
Qed.

Lemma semaphore_invariant_step (C : Z) (c c' : Pool.config) :
  semaphore_invariant C c -> Pool.step c c' -> semaphore_invariant C c'.
Proof.
  intros [Hsum Hpos] Hstep. unfold semaphore_invariant.
  destruct Hstep as [i Hi Hs|i Hi|i Hi|i Hi|i Hi|i v Hi|i Hi|i v Hi|i n Hi|i Hi|i o Hi];
    rewrite (number_update _ _ _ _ _ _ _ _ Hi); simpl; lia.
Qed.

Lemma semaphore_invariant_reachable (C : Z) (tasks : nat) (c : Pool.config) :
  0 <= C -> Pool.reachable C tasks c -> semaphore_invariant C c.
Proof.
  intros HC Hreach. revert c Hreach.
  apply (rtc_ind_r (semaphore_invariant C)).
  - unfold semaphore_invariant. rewrite number_init by reflexivity.
    simpl. lia.
  - intros c c' _ Hstep IH. eapply semaphore_invariant_step; eassumption.
Qed.

Lemma pool_init_lookup (C : Z) (tasks i : nat) (p : Pool.pc) :
  Pool.threads (Pool.init C tasks) !! i = Some p -> p = Pool.Submitted.
Proof.
  unfold Pool.init. simpl. intros H.
  apply lookup_replicate in H. tauto.
Qed.

Ltac pool_lookup Hj :=
  cbn [Pool.threads Pool.update] in Hj;
  apply list_lookup_insert_Some in Hj;
  destruct Hj as [(<- & Hj & _) | (? & Hj)];
  [ try discriminate Hj; try (injection Hj as <-) | ].

Lemma counters_bounded_step (c c' : Pool.config) :
  counters_bounded c -> Pool.step c c' -> counters_bounded c'.
Proof.
  intros (Hf & Hs & Hf1 & Hs1 & Hlf & Hls) Hstep. unfold counters_bounded.
  destruct Hstep as [i Hi Hsem|i Hi|i Hi|i Hi|i Hi|i v Hi|i Hi|i v Hi|i n Hi|i Hi|i o Hi];
    try (pose proof (Hlf _ _ Hi)); try (pose proof (Hls _ _ Hi));
    try destruct o;
    rewrite !(number_update _ _ _ _ _ _ _ _ Hi);
    cbn [Pool.failed_requests Pool.successful_requests Pool.update
         Pool.counted_failed Pool.counted_successful Z.b2z];
    (split; [lia|]); (split; [lia|]); (split; [lia|]); (split; [lia|]);
    (split; intros j w Hj; pool_lookup Hj;
       try lia;
       try (specialize (Hlf _ _ Hj); lia);
       try (specialize (Hls _ _ Hj); lia)).
Qed.

Lemma counters_bounded_reachable (C : Z) (tasks : nat) (c : Pool.config) :
  Pool.reachable C tasks c -> counters_bounded c.
Proof.
  revert c. apply (rtc_ind_r counters_bounded).
  - unfold counters_bounded.
    rewrite !number_init by reflexivity. simpl.
    do 4 (split; [lia|]).
    split; intros j v Hj; apply (pool_init_lookup C tasks) in Hj;
      discriminate Hj.
  - intros c c' _ Hstep IH. eapply counters_bounded_step; eassumption.
Qed.

Lemma counters_exact_step (c c' : Pool.config) :
  semaphore_invariant 1 c -> counters_exact c -> Pool.step c c' ->
  counters_exact c'.
Proof.
  intros [Hsum Hpos] (Hf & Hs & Hlf & Hls) Hstep. unfold counters_exact.
  destruct Hstep as [i Hi Hsem|i Hi|i Hi|i Hi|i Hi|i v Hi|i Hi|i v Hi|i n Hi|i Hi|i o Hi];
    try (pose proof (Hlf _ _ Hi)); try (pose proof (Hls _ _ Hi));
    try destruct o;
    rewrite !(number_update _ _ _ _ _ _ _ _ Hi);
    cbn [Pool.failed_requests Pool.successful_requests Pool.update
         Pool.counted_failed Pool.counted_successful Z.b2z];
    (split; [lia|]); (split; [lia|]);
    (split; intros j w Hj; pool_lookup Hj;
       try reflexivity;
       try (specialize (Hlf _ _ Hj); lia);
       try (specialize (Hls _ _ Hj); lia);
       try (exfalso;
            match goal with
            | Hne : i <> j |- _ =>
              pose proof (number_two Pool.in_block c i j _ _ Hne Hi Hj
                            eq_refl eq_refl); lia
            end)).
Qed.

Lemma counters_exact_reachable (tasks : nat) (c : Pool.config) :
  Pool.reachable 1 tasks c -> counters_exact c.
Proof.
  intros Hreach.
  enough (semaphore_invariant 1 c /\ counters_exact c) by tauto.
  revert c Hreach.
  apply (rtc_ind_r (fun c => semaphore_invariant 1 c /\ counters_exact c)).
  - split.
    + unfold semaphore_invariant. rewrite number_init by reflexivity.
      simpl. lia.
    + unfold counters_exact. rewrite !number_init by reflexivity. simpl.
      do 2 (split; [reflexivity|]).
      split; intros j v Hj; apply (pool_init_lookup 1 tasks) in Hj;
        discriminate Hj.
  - intros c c' _ Hstep [Hsem Hexact]. split.
    + eapply semaphore_invariant_step; eassumption.
    + eapply counters_exact_step; eassumption.
Qed.

Section FailedTasks.
Context {B : Bs4}.
Variable E : Env.

(** C5, as amended: a task whose fetch exhausts its retries, or whose
    body has a soft-block marker, returns 0, adds nothing to the queue,
    leaves the success counter alone and performs its one increment of
    the failure counter; and a run whose canary passed always returns a
    table, after the canary and all [5N] task fetches: no outcome of a
    task aborts the run.  With one worker ([max_threads = 1]) the tasks run
    one after the other and each is counted once, as a success or as a
    failure.  Under any capacity and any schedule of the pool, when one
    task has failed the failure counter is exactly 1. *)
Theorem failed_task_returns_zero_and_run_continues :
  (forall (product_id : string) (star page : Z) (self : ReviewScraper)
          (w : World) (star_filter : string),
      STAR_FILTERS !! star = Some star_filter ->
      task_fetch_fails E (effective_session E (session self) w)
        (REVIEWS_URL product_id star_filter page) (n_get w) ->
      let res := _scrape_single_page E product_id star page (self, w) in
      fst res = Returned 0
      /\ failed_requests (fst (snd res)) = failed_requests self + 1
      /\ successful_requests (fst (snd res)) = successful_requests self
      /\ reviews_queue (fst (snd res)) = reviews_queue self)
  /\ (forall (product_url product_id : string) (N : Z) (self : ReviewScraper)
             (w : World) (s : requests.Session),
         extract_product_id product_url = Some product_id ->
         session self = Some s ->
         canary_passes E s product_id (n_get w) ->
         1 <= max_threads self ->
         0 <= N ->
         let res := scrape_reviews E product_url N (self, w) in
         (exists df, fst res = Returned df)
         /\ count_fetches (new_events w (snd (snd res)))
            = (1 + 5 * Z.to_nat N)%nat
         /\ (max_threads self = 1 ->
             successful_requests (fst (snd res))
             + failed_requests (fst (snd res))
             = successful_requests self + failed_requests self + 5 * N))
  /\ (forall (C : Z) (tasks : nat) (c : Pool.config),
         Pool.reachable C tasks c ->
         Pool.number Pool.counted_failed c = 1 ->
         Pool.failed_requests c = 1).
Proof.
  split; [|split].
  - intros. apply (failed_task_effect E) with (star_filter := star_filter);
      assumption.
  - intros product_url product_id N self w s Hid Hs Hpass Hthreads HN res.
    destruct (scrape_reviews_completes E product_url product_id N self w s
                Hid Hs Hpass Hthreads HN)
      as (df & Hres & _ & Hsum & Hcount & _).
    fold res in Hres, Hsum, Hcount.
    split; [exists df; exact Hres|]. split; [exact Hcount|].
    intros _. exact Hsum.
  - intros C tasks c Hreach Hone.
    destruct (counters_bounded_reachable C tasks c Hreach)
      as (Hf & _ & Hf1 & _).
    lia.
Qed.

End FailedTasks.

(** C5, as stated, fails: with the default ten units in the semaphore,
    five tasks whose fetches fail can all read [failed_requests = 0]
    before any of them writes it back.  Each returns 0 and finishes, the
    run goes on, and the failure counter is 1 for five failed tasks: it
    has not gone up by one for each of them. *)
Lemma concurrent_failures_are_undercounted :
  (exists c,
      Pool.run crowded_schedule (Pool.init 10 5) = Some c
      /\ Pool.reachable 10 5 c
      /\ Pool.threads c = replicate 5 (Pool.Finished Pool.Counted_failure)
      /\ Pool.number Pool.counted_failed c = 5
      /\ Pool.failed_requests c = 1
      /\ Pool.successful_requests c = 0)
  /\ ~ (forall C tasks c,
          Pool.reachable C tasks c ->
          (forall i p, Pool.threads c !! i = Some p ->
                       p = Pool.Finished Pool.Counted_failure) ->
          Pool.failed_requests c = Z.of_nat tasks).
Proof.
  assert (Hrun : Pool.run crowded_schedule (Pool.init 10 5)
                 = Some {| Pool.threads :=
                             replicate 5 (Pool.Finished Pool.Counted_failure);
                           Pool.semaphore := 10;
                           Pool.failed_requests := 1;
                           Pool.successful_requests := 0 |})
    by reflexivity.
  pose proof (pool_run_reachable 10 5 _ _ Hrun) as Hreach.
  split.
  - eexists. split; [exact Hrun|]. split; [exact Hreach|].
    repeat split.
  - intros Hall.
    specialize (Hall 10 5%nat _ Hreach).
    cbn [Pool.threads Pool.failed_requests] in Hall.
    assert (H5 : 1 = Z.of_nat 5); [|discriminate H5].
    apply Hall. intros i p Hi.
    apply lookup_replicate in Hi. tauto.
Qed.


(** C8, as amended: the counters are incremented by a read followed by a
    write while the worker holds one unit of the semaphore.  With a
    capacity of 1 the increments exclude each other and each counter
    equals the number of tasks that have performed its increment.  With
    more capacity increments can interleave: a counter may end below that
    number, never above it, and it is at least 1 once a task has
    incremented it. *)
Theorem counter_increments_serialized_only_by_capacity_one (C : Z)
    (tasks : nat) (c : Pool.config) :
  0 <= C ->
  Pool.reachable C tasks c ->
  0 <= Pool.failed_requests c <= Pool.number Pool.counted_failed c
  /\ 0 <= Pool.successful_requests c <= Pool.number Pool.counted_successful c
  /\ (1 <= Pool.number Pool.counted_failed c -> 1 <= Pool.failed_requests c)
  /\ (1 <= Pool.number Pool.counted_successful c ->
      1 <= Pool.successful_requests c)
  /\ (C = 1 ->
      Pool.number Pool.in_block c <= 1
      /\ Pool.failed_requests c = Pool.number Pool.counted_failed c
      /\ Pool.successful_requests c = Pool.number Pool.counted_successful c).
Proof.
  intros HC Hreach.
  destruct (counters_bounded_reachable C tasks c Hreach)
    as (Hf & Hs & Hf1 & Hs1 & _).
  do 4 (split; [assumption|]).
  intros ->.
  destruct (semaphore_invariant_reachable 1 tasks c HC Hreach) as [Hsum Hpos].
  destruct (counters_exact_reachable tasks c Hreach) as (Hef & Hes & _).
  split; [lia|]. split; assumption.
Qed.

(** C8, as stated, fails: with two units in the semaphore two workers
    whose fetches fail can both read [failed_requests = 0] and both write
    1; both tasks are past their increment and the counter is 1.  An
    atomic or lock-protected increment would have kept the counter
    exact. *)
Lemma unsynchronized_increment_loses_an_update :
  (exists c,
      Pool.run Pool.racing_schedule (Pool.init 2 2) = Some c
      /\ Pool.reachable 2 2 c
      /\ Pool.threads c = [Pool.Finished Pool.Counted_failure;
                           Pool.Finished Pool.Counted_failure]
      /\ Pool.number Pool.counted_failed c = 2
      /\ Pool.failed_requests c = 1)
  /\ ~ (forall C tasks c,
          0 <= C -> Pool.reachable C tasks c -> counters_exact c).
Proof.
  assert (Hrun : Pool.run Pool.racing_schedule (Pool.init 2 2)
                 = Some {| Pool.threads := [Pool.Finished Pool.Counted_failure;
                                            Pool.Finished Pool.Counted_failure];
                           Pool.semaphore := 2;
                           Pool.failed_requests := 1;
                           Pool.successful_requests := 0 |})
    by reflexivity.
  pose proof (pool_run_reachable 2 2 _ _ Hrun) as Hreach.
  split.
  - eexists. split; [exact Hrun|]. split; [exact Hreach|].
    repeat split.
  - intros Hexact.
    destruct (Hexact 2 2%nat _ ltac:(lia) Hreach) as (Hf & _).
    vm_compute in Hf. discriminate Hf.
Qed.

(** ** The theorems at concrete inputs *)

Lemma all_fail_env_down (s : requests.Session) (url : string) (ng k : nat) :
  all_fail env_down s url ng k.
Proof. intros j Hj. reflexivity. Defined.

Lemma all_fail_nothing (E : Env) (s : requests.Session) (url : string)
    (ng : nat) :
  all_fail E s url ng 0.
Proof. intros j Hj. exfalso. exact (Nat.nlt_0_r j Hj). Defined.

Lemma canary_passes_env_pages (page : string) :
  canary_passes (env_pages plain_page page) session0 product_id0 0.
Proof.
  exists {| requests.status_code := 200; requests.text := plain_page |}.
  split; [|reflexivity].
  exists O. split; [exact (Nat.lt_0_succ 2)|].
  split; [apply all_fail_nothing|]. split; reflexivity.
Defined.

Lemma scrape_reviews_aborts_on_canary_witness :
  let res := @scrape_reviews fix_bs4 env_down product_url0 1
               (scraper0 (Some session0) 10, world0) in
  canary_fails env_down session0 product_id0 (n_get world0)
  /\ fst res = Returned []
  /\ fst (snd res) = scraper0 (Some session0) 10
  /\ count_fetches (new_events world0 (snd (snd res))) = 1%nat
  /\ exists evs, new_events world0 (snd (snd res))
                 = Log INFO (Starting_review_scraping product_id0)
                   :: Fetch (canary_url product_id0) :: evs.
Proof.
  assert (H : canary_fails env_down session0 product_id0 (n_get world0))
    by (left; apply all_fail_env_down).
  split; [exact H|].
  apply (@scrape_reviews_aborts_on_canary fix_bs4 env_down product_url0
           product_id0 1 (scraper0 (Some session0) 10) world0 session0);
    [reflexivity | reflexivity | exact H].
Defined.


Lemma make_request_with_backoff_retries_witness :
  fst (make_request_with_backoff env_fail_twice (canary_url product_id0)
         (Some session0) 3 world0)
  = Some {| requests.status_code := 200; requests.text := review_page |}
  /\ exists evs,
       trace (snd (make_request_with_backoff env_fail_twice
                     (canary_url product_id0) (Some session0) 3 world0))
       = trace world0 ++ Fetch (canary_url product_id0) :: evs
       /\ (inject_Z (2 ^ 1 + 2 ^ 2) <= Qsum (backoff_sleeps evs))%Q.
Proof.
  destruct (make_request_with_backoff_retries env_fail_twice
              (canary_url product_id0) (Some session0) 3 world0)
    as (evs & Htrace & _ & _ & _ & _ & Hscenario).
  destruct (Hscenario {| requests.status_code := 200;
                         requests.text := review_page |})
    as (Hres & Hsum).
  - reflexivity.
  - intros [|[|j]] Hj; [reflexivity | reflexivity | lia].
  - reflexivity.
  - reflexivity.
  - split; [exact Hres|]. exists evs. split; [exact Htrace | exact Hsum].
Defined.

Lemma make_request_with_backoff_no_retries_witness :
  0 <= 0
  /\ fst (make_request_with_backoff (env_always review_page)
            (canary_url product_id0) None 0 world0) = None
  /\ n_get (snd (make_request_with_backoff (env_always review_page)
                   (canary_url product_id0) None 0 world0)) = n_get world0.
Proof.
  split; [lia|].
  destruct (make_request_with_backoff_no_retries (env_always review_page)
              (canary_url product_id0) None 0 world0 ltac:(lia))
    as (H1 & H2 & _).
  split; [exact H1 | exact H2].
Defined.

Lemma scrape_reviews_without_session_witness :
  let res := @scrape_reviews fix_bs4 (env_always review_page) product_url0 3
               (scraper0 None 10, world0) in
  session (scraper0 None 10) = None
  /\ fst res = Returned []
  /\ fst (snd res) = scraper0 None 10
  /\ n_get (snd (snd res)) = n_get world0
  /\ count_fetches (new_events world0 (snd (snd res))) = O
  /\ count_gets (new_events world0 (snd (snd res))) = O
  /\ count_sleeps (new_events world0 (snd (snd res))) = O.
Proof.
  split; [reflexivity|].
  apply (@scrape_reviews_without_session fix_bs4 (env_always review_page)
           product_url0 3 (scraper0 None 10) world0).
  reflexivity.
Defined.

Lemma failed_task_returns_zero_and_run_continues_witness :
  (let res := @_scrape_single_page fix_bs4 env_down product_id0 5 1
                (scraper0 (Some session0) 10, world0) in
   fst res = Returned 0
   /\ failed_requests (fst (snd res)) = 0 + 1
   /\ successful_requests (fst (snd res)) = 0
   /\ reviews_queue (fst (snd res)) = [])
  /\ (let res := @scrape_reviews fix_bs4 (env_pages plain_page login_page)
                   product_url0 1 (scraper0 (Some session0) 1, world0) in
      (exists df, fst res = Returned df)
      /\ count_fetches (new_events world0 (snd (snd res))) = (1 + 5 * Z.to_nat 1)%nat
      /\ successful_requests (fst (snd res)) + failed_requests (fst (snd res))
         = 0 + 0 + 5 * 1)
  /\ (Pool.reachable 1 2 Pool.one_by_one
      /\ Pool.number Pool.counted_failed Pool.one_by_one = 1
      /\ Pool.failed_requests Pool.one_by_one = 1).
Proof.
  destruct (@failed_task_returns_zero_and_run_continues fix_bs4 env_down)
    as (Htask & _ & Hpool).
  destruct (@failed_task_returns_zero_and_run_continues fix_bs4
              (env_pages plain_page login_page)) as (_ & Hrun & _).
  split; [|split].
  - apply (Htask product_id0 5 1 (scraper0 (Some session0) 10) world0
             "five_star"%string); [reflexivity|].
    left. apply all_fail_env_down.
  - destruct (Hrun product_url0 product_id0 1 (scraper0 (Some session0) 1)
                world0 session0 eq_refl eq_refl
                (canary_passes_env_pages login_page)
                ltac:(simpl; lia) ltac:(lia)) as (Hdf & Hcount & Hsum).
    split; [exact Hdf|]. split; [exact Hcount | exact (Hsum eq_refl)].
  - assert (Hr : Pool.reachable 1 2 Pool.one_by_one).
    { apply (pool_run_reachable 1 2 Pool.one_by_one_schedule). reflexivity. }
    split; [exact Hr|]. split; [reflexivity|].
    exact (Hpool 1 2%nat Pool.one_by_one Hr eq_refl).
Defined.

Lemma empty_table_carries_no_status_witness :
  (let res := @scrape_reviews fix_bs4 env_down product_url0 1
                (scraper0 (Some session0) 10, world0) in
   fst res = Returned []
   /\ fst (snd res) = scraper0 (Some session0) 10
   /\ exists evs msg,
        new_events world0 (snd (snd res)) = evs ++ [Log ERROR msg]
        /\ (msg = Failed_to_access_Amazon_reviews
            \/ msg = Amazon_is_requiring_login_or_showing_a_captcha))
  /\ (let res := @scrape_reviews fix_bs4 (env_pages plain_page empty_page)
                   product_url0 1 (scraper0 (Some session0) 1, world0) in
      (exists evs,
          new_events world0 (snd (snd res))
          = evs ++ [Log WARNING No_reviews_were_collected])
      /\ successful_requests (fst (snd res)) + failed_requests (fst (snd res))
         = 0 + 0 + 5 * 1).
Proof.
  destruct (@empty_table_carries_no_status fix_bs4 env_down)
    as [Habort _].
  destruct (@empty_table_carries_no_status fix_bs4
              (env_pages plain_page empty_page)) as [_ Hempty].
  split.
  - apply (Habort product_url0 product_id0 1 (scraper0 (Some session0) 10)
             world0 session0); [reflexivity | reflexivity |].
    left. apply all_fail_env_down.
  - destruct (Hempty product_url0 product_id0 1 (scraper0 (Some session0) 1)
                world0 session0 eq_refl eq_refl
                (canary_passes_env_pages empty_page)
                ltac:(simpl; lia) ltac:(lia) ltac:(vm_compute; reflexivity))
      as (Hlast & Hsum).
    split; [exact Hlast | exact (Hsum eq_refl)].
Defined.

Lemma counter_increments_serialized_only_by_capacity_one_witness :
  0 <= 1
  /\ Pool.reachable 1 2 Pool.one_by_one
  /\ Pool.failed_requests Pool.one_by_one
     = Pool.number Pool.counted_failed Pool.one_by_one
  /\ Pool.successful_requests Pool.one_by_one
     = Pool.number Pool.counted_successful Pool.one_by_one.
Proof.
  assert (H : Pool.reachable 1 2 Pool.one_by_one)
    by (apply (pool_run_reachable 1 2 Pool.one_by_one_schedule); reflexivity).
  split; [lia|]. split; [exact H|].
  destruct (counter_increments_serialized_only_by_capacity_one 1 2
              Pool.one_by_one ltac:(lia) H) as (_ & _ & _ & _ & Hexact).
  destruct (Hexact eq_refl) as (_ & Hf & Hs).
  split; [exact Hf | exact Hs].
Defined.

(** * More of the code *)

(** ** Strings *)

#[local] Arguments String.append : simpl nomatch.

Lemma prefix_app (n b : string) : String.prefix n (n ++ b) = true.
Proof.
  induction n as [|c n IH]; simpl; [destruct b; reflexivity|].
  destruct (ascii_dec c c) as [_|Hne]; [exact IH | destruct (Hne eq_refl)].
Qed.

Lemma prefix_inv (n s : string) :
  String.prefix n s = true -> s = (n ++ str_drop (String.length n) s)%string.
Proof.
  revert s. induction n as [|c n IH]; intros s H; simpl; [reflexivity|].
  destruct s as [|d s]; simpl in H; [discriminate|].
  destruct (ascii_dec c d) as [->|]; [|discriminate].
  simpl. f_equal. apply IH. exact H.
Qed.

Lemma str_drop_app (n b : string) : str_drop (String.length n) (n ++ b) = b.
Proof. induction n as [|c n IH]; simpl; [reflexivity | exact IH]. Qed.

Lemma string_app_assoc (a b c : string) :
  ((a ++ b) ++ c)%string = (a ++ b ++ c)%string.
Proof. induction a as [|x a IH]; simpl; [reflexivity | f_equal; exact IH]. Qed.

Lemma string_app_nil_r (a : string) : (a ++ "")%string = a.
Proof. induction a as [|x a IH]; simpl; [reflexivity | f_equal; exact IH]. Qed.

Lemma string_length_app (a b : string) :
  String.length (a ++ b) = (String.length a + String.length b)%nat.
Proof. induction a as [|x a IH]; simpl; [reflexivity | f_equal; exact IH]. Qed.

Lemma str_in_prefix (n s : string) :
  String.prefix n s = true -> str_in n s = true.
Proof. intros H. destruct s; cbn [str_in]; rewrite H; reflexivity. Qed.

Lemma str_in_app (a n b : string) : str_in n (a ++ n ++ b) = true.
Proof.
  induction a as [|c a IH].
  - apply str_in_prefix. cbn [String.append]. apply prefix_app.
  - simpl. rewrite IH. apply orb_true_r.
Qed.

Lemma str_in_inv (n s : string) :
  str_in n s = true -> exists a b, s = (a ++ n ++ b)%string.
Proof.
  induction s as [|c s IH]; cbn [str_in]; intros H.
  - rewrite orb_false_r in H. apply prefix_inv in H.
    exists ""%string, (str_drop (String.length n) ""). exact H.
  - apply orb_true_iff in H. destruct H as [H|H].
    + apply prefix_inv in H.
      exists ""%string, (str_drop (String.length n) (String c s)). exact H.
    + destruct (IH H) as (a & b & ->).
      exists (String c a), b. reflexivity.
Qed.

(** A needle that occurs, occurs with any part of its front cut off. *)
Lemma str_in_suffix (a n s : string) :
  str_in (a ++ n) s = true -> str_in n s = true.
Proof.
  intros H. destruct (str_in_inv _ _ H) as (x & y & ->).
  rewrite string_app_assoc, <- string_app_assoc. apply str_in_app.
Qed.

Lemma substring_full (s : string) : substring 0 (String.length s) s = s.
Proof. induction s as [|c s IH]; simpl; [reflexivity | f_equal; exact IH]. Qed.

Lemma substring_prefix (n : nat) (s : string) :
  String.length (substring 0 n s) = n -> String.prefix (substring 0 n s) s = true.
Proof.
  revert s. induction n as [|n IH]; intros s H.
  - destruct s; reflexivity.
  - destruct s as [|c s]; simpl in *; [discriminate|].
    destruct (ascii_dec c c) as [_|Hne]; [|destruct (Hne eq_refl)].
    apply IH. lia.
Qed.

(** ** [extract_product_id] *)

Lemma match_id_here_sound (pre s g : string) :
  match_id_here pre s = Some g ->
  is_product_id g /\ String.prefix (pre ++ g) s = true.
Proof.
  unfold match_id_here.
  destruct (String.prefix pre s) eqn:Hpre; [|discriminate].
  set (rest := str_drop (String.length pre) s).
  destruct (String.length (substring 0 10 rest) =? 10)%nat eqn:Hlen;
    [|discriminate].
  destruct (str_forallb _ (substring 0 10 rest)) eqn:Hall; [|discriminate].
  simpl. intros [= <-]. apply Nat.eqb_eq in Hlen.
  split; [split; assumption|].
  rewrite (prefix_inv pre s Hpre). fold rest.
  pose proof (substring_prefix 10 rest Hlen) as Hp.
  remember (substring 0 10 rest) as g eqn:Hg. clear Hg.
  rewrite (prefix_inv g rest Hp), <- string_app_assoc. apply prefix_app.
Qed.

Lemma match_id_here_complete (pre g rest : string) :
  is_product_id g -> match_id_here pre (pre ++ g ++ rest) = Some g.
Proof.
  intros [Hlen Hall]. unfold match_id_here.
  rewrite prefix_app, str_drop_app.
  assert (Hsub : substring 0 10 (g ++ rest) = g).
  { rewrite <- Hlen. clear. induction g as [|c g IH]; simpl.
    - destruct rest; reflexivity.
    - f_equal. exact IH. }
  rewrite Hsub, Hlen, Hall. reflexivity.
Qed.

Lemma re_search_id_sound (pre s g : string) :
  re_search_id pre s = Some g ->
  is_product_id g /\ str_in (pre ++ g) s = true.
Proof.
  induction s as [|c s IH]; cbn [re_search_id].
  - destruct (match_id_here pre "") eqn:Hm; [|discriminate].
    intros [= ->]. destruct (match_id_here_sound _ _ _ Hm) as [Hid Hp].
    split; [exact Hid|]. apply str_in_prefix. exact Hp.
  - destruct (match_id_here pre (String c s)) eqn:Hm.
    + intros [= ->]. destruct (match_id_here_sound _ _ _ Hm) as [Hid Hp].
      split; [exact Hid|]. apply str_in_prefix. exact Hp.
    + intros H. destruct (IH H) as [Hid Hin].
      split; [exact Hid|]. cbn [str_in]. rewrite Hin. apply orb_true_r.
Qed.

(** A match somewhere in [s] makes the search succeed (with the leftmost
    match, which may be another one). *)
Lemma re_search_id_finds (pre a b g : string) :
  match_id_here pre b = Some g ->
  exists g', re_search_id pre (a ++ b) = Some g'.
Proof.
  intros Hm. induction a as [|c a IH]; cbn [String.append].
  - destruct b as [|d b]; cbn [re_search_id]; rewrite Hm; eexists; reflexivity.
  - cbn [re_search_id].
    destruct (match_id_here pre (String c (a ++ b))) as [g'|];
      [eexists; reflexivity | exact IH].
Qed.

Lemma re_search_id_inv (pre s g : string) :
  re_search_id pre s = Some g ->
  exists a b, s = (a ++ b)%string /\ match_id_here pre b = Some g.
Proof.
  induction s as [|c s IH]; cbn [re_search_id].
  - destruct (match_id_here pre "") eqn:Hm; [|discriminate].
    intros [= ->]. exists ""%string, ""%string. split; [reflexivity | exact Hm].
  - destruct (match_id_here pre (String c s)) eqn:Hm.
    + intros [= ->]. exists ""%string, (String c s).
      split; [reflexivity | exact Hm].
    + intros H. destruct (IH H) as (a & b & -> & Hb).
      exists (String c a), b. split; [reflexivity | exact Hb].
Qed.

(** X1: an extracted product id is ten characters among A-Z and 0-9, and
    it stands in the URL right after "/dp/" or "/product/". *)
Theorem extract_product_id_sound (url product_id : string) :
  extract_product_id url = Some product_id ->
  is_product_id product_id
  /\ (str_in ("/dp/" ++ product_id) url = true
      \/ str_in ("/product/" ++ product_id) url = true).
Proof.
  unfold extract_product_id. cbn [fold_right].
  destruct (re_search_id "/dp/" url) as [g|] eqn:H1.
  { intros [= ->]. destruct (re_search_id_sound _ _ _ H1). tauto. }
  destruct (re_search_id "/product/" url) as [g|] eqn:H2.
  { intros [= ->]. destruct (re_search_id_sound _ _ _ H2). tauto. }
  destruct (re_search_id "/gp/product/" url) as [g|] eqn:H3; [|discriminate].
  intros [= ->]. destruct (re_search_id_sound _ _ _ H3) as [Hid Hin].
  split; [exact Hid|]. right.
  apply (str_in_suffix "/gp"). exact Hin.
Qed.

Lemma extract_product_id_sound_witness :
  extract_product_id product_url0 = Some product_id0
  /\ is_product_id product_id0
  /\ (str_in ("/dp/" ++ product_id0) product_url0 = true
      \/ str_in ("/product/" ++ product_id0) product_url0 = true).
Proof.
  split; [reflexivity|].
  apply (extract_product_id_sound product_url0 product_id0). reflexivity.
Defined.

(** X2: the product page URL built from a product id leads back to that
    id: [extract_product_id] undoes [PRODUCT_URL_PATTERN.format]. *)
Theorem extract_product_id_of_PRODUCT_URL (product_id : string) :
  is_product_id product_id ->
  extract_product_id (PRODUCT_URL product_id) = Some product_id.
Proof.
  intros [Hlen Hall]. unfold extract_product_id, PRODUCT_URL, BASE_URL.
  cbn [fold_right].
  pose proof (match_id_here_complete "/dp/" product_id "" (conj Hlen Hall)) as Hm.
  rewrite string_app_nil_r in Hm. cbn [String.append] in Hm.
  cbn. rewrite Hm. reflexivity.
Qed.

Lemma extract_product_id_of_PRODUCT_URL_witness :
  is_product_id product_id0
  /\ extract_product_id (PRODUCT_URL product_id0) = Some product_id0.
Proof.
  assert (H : is_product_id product_id0) by (split; reflexivity).
  split; [exact H | apply (extract_product_id_of_PRODUCT_URL product_id0 H)].
Defined.

(** X3: the third pattern, "/gp/product/", never decides the result: a
    URL it matches is matched by "/product/" before it, so the function
    is the search for "/dp/" followed by the search for "/product/". *)
Theorem extract_product_id_third_pattern_is_dead (url : string) :
  extract_product_id url
  = match re_search_id "/dp/" url with
    | Some g => Some g
    | None => re_search_id "/product/" url
    end.
Proof.
  unfold extract_product_id. cbn [fold_right].
  destruct (re_search_id "/dp/" url) as [g|]; [reflexivity|].
  destruct (re_search_id "/product/" url) as [g|] eqn:H2; [reflexivity|].
  destruct (re_search_id "/gp/product/" url) as [g|] eqn:H3; [|reflexivity].
  exfalso.
  destruct (re_search_id_inv _ _ _ H3) as (a & b & -> & Hb).
  destruct (match_id_here_sound _ _ _ Hb) as [Hid Hp].
  apply prefix_inv in Hp.
  set (rest := str_drop (String.length ("/gp/product/" ++ g)) b) in Hp.
  assert (Hm : match_id_here "/product/" ("/product/" ++ g ++ rest) = Some g)
    by (apply match_id_here_complete; exact Hid).
  destruct (re_search_id_finds "/product/" (a ++ "/gp") _ g Hm) as [g' Hg'].
  rewrite string_app_assoc in Hg'.
  replace ("/gp" ++ "/product/" ++ g ++ rest)%string with b in Hg'
    by (rewrite Hp; rewrite string_app_assoc; reflexivity).
  rewrite H2 in Hg'. discriminate Hg'.
Qed.

(** ** [get_random_delay] and [get_random_user_agent] *)

(** X4: [get_random_delay] returns a delay between [MIN_DELAY] and
    [MAX_DELAY] seconds, draws one random number and does nothing else. *)
Theorem get_random_delay_range (E : Env) (w : World) :
  (MIN_DELAY <= fst (get_random_delay E w))%Q
  /\ (fst (get_random_delay E w) <= MAX_DELAY)%Q
  /\ snd (get_random_delay E w) = advance w 0 1 [].
Proof.
  rewrite get_random_delay_run. cbn [fst snd].
  destruct (jitter_delay_bounds E (n_random w)) as [Hlo Hhi].
  split; [exact Hlo|]. split; [apply Qlt_le_weak; exact Hhi | reflexivity].
Qed.

(** X5: [get_random_user_agent] always returns one of [USER_AGENTS]. *)
Theorem get_random_user_agent_listed (E : Env) (w : World) :
  In (fst (get_random_user_agent E w)) USER_AGENTS.
Proof.
  unfold get_random_user_agent, random_choice. cbn [fst].
  apply nth_In. apply Nat.mod_upper_bound. discriminate.
Qed.

(** ** More on the fetcher *)

(** X6: a response returned by the fetcher has status 200, so it is never
    falsy: for the fetcher's result, [not response] is the same test as
    [response is None]. *)
Theorem fetched_response_is_truthy (E : Env) (url : string)
    (session : option requests.Session) (max_retries : Z) (w : World) :
  let response := fst (make_request_with_backoff E url session max_retries w) in
  (forall r, response = Some r -> requests.status_code r = 200)
  /\ (falsy response = true <-> response = None).
Proof.
  intros response.
  pose proof (fetch_returns_200 E url session max_retries w) as H200.
  fold response in H200. split; [exact H200|].
  destruct response as [r|]; simpl.
  - rewrite (ok_200 r (H200 r eq_refl)). simpl. split; discriminate.
  - split; reflexivity.
Qed.

Lemma total_sleep_app (l1 l2 : list Event) :
  (total_sleep (l1 ++ l2) == total_sleep l1 + total_sleep l2)%Q.
Proof.
  induction l1 as [|e l1 IH]; cbn [app total_sleep]; [ring|].
  destruct e; try exact IH. rewrite IH. ring.
Qed.

Lemma total_sleep_failed_attempts (E : Env) (s : requests.Session)
    (url : string) (max_retries : Z) (k : nat) :
  forall ng nr retry,
  0 <= retry ->
  ((3 # 2) * inject_Z (Z.of_nat k)
     + inject_Z (2 ^ (retry + 1) * (2 ^ Z.of_nat k - 1))
   <= total_sleep (failed_attempts E s url max_retries k ng nr retry)
   /\ total_sleep (failed_attempts E s url max_retries k ng nr retry)
      <= (9 # 2) * inject_Z (Z.of_nat k)
         + inject_Z (2 ^ (retry + 1) * (2 ^ Z.of_nat k - 1)))%Q.
Proof.
  induction k as [|k IH]; intros ng nr retry Hretry.
  - cbn [failed_attempts total_sleep]. rewrite Z.mul_0_r.
    change (Z.of_nat 0) with 0. unfold inject_Z. split; lra.
  - cbn [failed_attempts]. unfold failed_attempt. cbn [app total_sleep].
    destruct (IH (S ng) (S (S nr)) (retry + 1) ltac:(lia)) as [Hlo Hhi].
    destruct (jitter_delay_bounds E nr) as [Hj1 Hj2].
    destruct (backoff_wait_bounds E (retry + 1) (S nr)) as [Hb1 Hb2].
    unfold MIN_DELAY, MAX_DELAY in *.
    assert (Hpow : 2 ^ (retry + 1) * (2 ^ Z.of_nat (S k) - 1)
                   = 2 ^ (retry + 1)
                     + 2 ^ (retry + 1 + 1) * (2 ^ Z.of_nat k - 1)).
    { rewrite Nat2Z.inj_succ, Z.pow_succ_r by lia.
      rewrite (Z.pow_add_r 2 (retry + 1) 1) by lia.
      change (2 ^ 1) with 2. ring. }
    rewrite Hpow, Nat2Z.inj_succ, inject_Z_plus.
    unfold Z.succ. rewrite (inject_Z_plus (Z.of_nat k) 1).
    change (inject_Z 1) with 1%Q.
    split; lra.
Qed.

Lemma failed_attempts_last (E : Env) (s : requests.Session) (url : string)
    (max_retries : Z) (k : nat) :
  forall ng nr retry,
  exists pre i,
    failed_attempts E s url max_retries (S k) ng nr retry
    = pre ++ [Sleep (backoff_wait E (retry + Z.of_nat (S k)) i)].
Proof.
  induction k as [|k IH]; intros ng nr retry.
  - cbn [failed_attempts]. unfold failed_attempt. rewrite app_nil_r.
    eexists [_; _; _; _], _. reflexivity.
  - destruct (IH (S ng) (S (S nr)) (retry + 1)) as (pre & i & Heq).
    change (failed_attempts E s url max_retries (S (S k)) ng nr retry)
      with (failed_attempt E s url max_retries ng nr retry
            ++ failed_attempts E s url max_retries (S k) (S ng) (S (S nr))
                 (retry + 1)).
    rewrite Heq, app_assoc.
    exists (failed_attempt E s url max_retries ng nr retry ++ pre), i.
    replace (retry + Z.of_nat (S (S k))) with (retry + 1 + Z.of_nat (S k)) by lia.
    reflexivity.
Qed.

(** X7: a fetch all of whose attempts fail returns [None] only after the
    backoff wait that follows its last attempt: with [max_retries = m >= 1]
    the last event is a sleep of at least [2^m] seconds, and the whole
    call sleeps between [1.5 m + 2^(m+1) - 2] and [4.5 m + 2^(m+1) - 2]
    seconds. *)
Theorem exhausted_fetch_sleeps (E : Env) (url : string)
    (session : option requests.Session) (max_retries : Z) (w : World) :
  1 <= max_retries ->
  all_fail E (effective_session E session w) url (n_get w)
    (Z.to_nat max_retries) ->
  let res := make_request_with_backoff E url session max_retries w in
  let evs := new_events w (snd res) in
  fst res = None
  /\ ((3 # 2) * inject_Z max_retries + inject_Z (2 ^ (max_retries + 1) - 2)
      <= total_sleep evs)%Q
  /\ (total_sleep evs
      <= (9 # 2) * inject_Z max_retries + inject_Z (2 ^ (max_retries + 1) - 2))%Q
  /\ exists pre d, evs = pre ++ [Sleep d] /\ (inject_Z (2 ^ max_retries) <= d)%Q.
Proof.
  intros Hmax Hfail res evs. subst evs res.
  rewrite (fetch_exhausts E url session max_retries w Hfail). cbn [fst snd].
  set (fa := failed_attempts E (effective_session E session w) url max_retries
               (Z.to_nat max_retries) (n_get w) (n_random w) 0).
  rewrite (new_events_app w _ (Fetch url :: fa))
    by (simpl; rewrite <- app_assoc; reflexivity).
  cbn [total_sleep].
  destruct (total_sleep_failed_attempts E (effective_session E session w) url
              max_retries (Z.to_nat max_retries) (n_get w) (n_random w) 0
              ltac:(lia)) as [Hlo Hhi].
  fold fa in Hlo, Hhi. rewrite Z2Nat.id in Hlo, Hhi by lia.
  replace (2 ^ (0 + 1) * (2 ^ max_retries - 1)) with (2 ^ (max_retries + 1) - 2)
    in Hlo, Hhi by (rewrite Z.pow_add_r by lia; lia).
  split; [reflexivity|]. split; [exact Hlo|]. split; [exact Hhi|].
  destruct (failed_attempts_last E (effective_session E session w) url
              max_retries (Z.to_nat max_retries - 1) (n_get w) (n_random w) 0)
    as (pre & i & Heq).
  replace (S (Z.to_nat max_retries - 1)) with (Z.to_nat max_retries) in Heq by lia.
  fold fa in Heq. rewrite Heq.
  exists (Fetch url :: pre), (backoff_wait E (0 + Z.of_nat (Z.to_nat max_retries)) i).
  split; [reflexivity|].
  replace (0 + Z.of_nat (Z.to_nat max_retries)) with max_retries by lia.
  apply backoff_wait_bounds.
Qed.

Lemma exhausted_fetch_sleeps_witness :
  let res := make_request_with_backoff env_down (canary_url product_id0)
               (Some session0) 3 world0 in
  let evs := new_events world0 (snd res) in
  1 <= 3
  /\ fst res = None
  /\ ((3 # 2) * inject_Z 3 + inject_Z (2 ^ (3 + 1) - 2) <= total_sleep evs)%Q
  /\ (total_sleep evs <= (9 # 2) * inject_Z 3 + inject_Z (2 ^ (3 + 1) - 2))%Q
  /\ exists pre d, evs = pre ++ [Sleep d] /\ (inject_Z (2 ^ 3) <= d)%Q.
Proof.
  split; [lia|].
  apply (exhausted_fetch_sleeps env_down (canary_url product_id0)
           (Some session0) 3 world0); [lia | apply all_fail_env_down].
Defined.

Lemma gets_use_failed_attempts (E : Env) (s : requests.Session) (url : string)
    (max_retries : Z) (k : nat) :
  forall ng nr retry,
  gets_use s url (failed_attempts E s url max_retries k ng nr retry).
Proof.
  induction k as [|k IH]; intros ng nr retry; [constructor|].
  cbn [failed_attempts]. unfold failed_attempt. cbn [app].
  repeat (constructor; [cbn; tauto|]). apply IH.
Qed.

Lemma fetch_gets_use (E : Env) (url : string)
    (session : option requests.Session) (max_retries : Z) (w : World) :
  gets_use (effective_session E session w) url
    (new_events w (snd (make_request_with_backoff E url session max_retries w))).
Proof.
  destruct (first_success E (effective_session E session w) url (n_get w)
              (Z.to_nat max_retries))
    as [Hall | (k0 & r0 & Hk0 & Hfail0 & Hget0 & H2000)].
  - rewrite (fetch_exhausts E url session max_retries w Hall). cbn [snd].
    rewrite (new_events_app w _ (Fetch url :: failed_attempts E
               (effective_session E session w) url max_retries
               (Z.to_nat max_retries) (n_get w) (n_random w) 0))
      by (simpl; rewrite <- app_assoc; reflexivity).
    constructor; [exact I | apply gets_use_failed_attempts].
  - rewrite (fetch_succeeds_after E url session max_retries w k0 r0)
      by (assumption || lia).
    cbn [snd].
    rewrite (new_events_app w _
               (Fetch url :: failed_attempts E (effective_session E session w)
                  url max_retries k0 (n_get w) (n_random w) 0
                ++ [Sleep (jitter_delay E (n_random w + 2 * k0));
                    Get (effective_session E session w) url]))
      by (simpl; rewrite <- app_assoc; reflexivity).
    constructor; [exact I|]. apply Forall_app. split.
    + apply gets_use_failed_attempts.
    + repeat constructor.
Qed.

(** X8: all the GETs of one call of the fetcher go to the URL it was
    given and use one session: the caller's when there is one, else a
    fresh session whose only header is a User-Agent from [USER_AGENTS]. *)
Theorem fetch_uses_one_session (E : Env) (url : string)
    (session : option requests.Session) (max_retries : Z) (w : World) :
  let res := make_request_with_backoff E url session max_retries w in
  gets_use (effective_session E session w) url (new_events w (snd res))
  /\ (forall s, session = Some s -> effective_session E session w = s)
  /\ (session = None ->
      exists ua, In ua USER_AGENTS
        /\ effective_session E session w
           = {| requests.headers := [("User-Agent"%string, ua)];
                requests.cookies := [] |}).
Proof.
  intros res. subst res. split; [|split].
  - apply fetch_gets_use.
  - intros s ->. reflexivity.
  - intros ->. eexists. split; [|reflexivity].
    apply nth_In. apply Nat.mod_upper_bound. discriminate.
Qed.

(** ** More on the coordinator *)

Lemma fetched_urls_app (l1 l2 : list Event) :
  fetched_urls (l1 ++ l2) = fetched_urls l1 ++ fetched_urls l2.
Proof.
  induction l1 as [|e l1 IH]; [reflexivity|].
  destruct e; cbn [app fetched_urls]; rewrite IH; reflexivity.
Qed.

Lemma csv_writes_app (l1 l2 : list Event) :
  csv_writes (l1 ++ l2) = csv_writes l1 ++ csv_writes l2.
Proof.
  induction l1 as [|e l1 IH]; [reflexivity|].
  destruct e; cbn [app csv_writes]; rewrite IH; reflexivity.
Qed.

Lemma completed_counts_app (l1 l2 : list Event) :
  completed_counts (l1 ++ l2) = completed_counts l1 ++ completed_counts l2.
Proof.
  induction l1 as [|e l1 IH]; [reflexivity|].
  destruct e as [| | |lvl msg|]; cbn [app completed_counts]; try exact IH.
  destruct msg; cbn [app]; rewrite IH; reflexivity.
Qed.

Lemma quiet_app (l1 l2 : list Event) : quiet l1 -> quiet l2 -> quiet (l1 ++ l2).
Proof.
  intros (H1 & H2 & H2') (H3 & H4 & H4'). unfold quiet.
  rewrite fetched_urls_app, csv_writes_app, completed_counts_app,
    H1, H2, H2', H3, H4, H4'.
  repeat split.
Qed.

Lemma quiet_failed_attempts (E : Env) (s : requests.Session) (url : string)
    (max_retries : Z) (k : nat) :
  forall ng nr retry, quiet (failed_attempts E s url max_retries k ng nr retry).
Proof.
  induction k as [|k IH]; intros ng nr retry; [repeat split|].
  cbn [failed_attempts]. apply quiet_app; [|apply IH].
  repeat split. unfold failed_attempt, failure_record.
  destruct (http_get E ng s url); reflexivity.
Qed.

(** A fetch records its call and is quiet after that. *)
Lemma fetch_trace (E : Env) (url : string) (session : option requests.Session)
    (max_retries : Z) (w : World) :
  exists k r evs,
    snd (make_request_with_backoff E url session max_retries w)
    = advance (start_world url session w) k r evs
    /\ quiet evs.
Proof.
  destruct (first_success E (effective_session E session w) url (n_get w)
              (Z.to_nat max_retries))
    as [Hall | (k0 & r0 & Hk0 & Hfail0 & Hget0 & H2000)].
  - rewrite (fetch_exhausts E url session max_retries w Hall).
    eexists _, _, _. split; [reflexivity|]. apply quiet_failed_attempts.
  - rewrite (fetch_succeeds_after E url session max_retries w k0 r0)
      by (assumption || lia).
    eexists _, _, _. split; [reflexivity|].
    apply quiet_app; [apply quiet_failed_attempts | repeat split].
Qed.

Lemma first_pages_delay_exact (E : Env) (page : Z) (self : ReviewScraper)
    (w : World) :
  first_pages_delay E page (self, w)
  = (tt, (self, advance w 0 (if page <=? 2 then 1 else 0)
                        (first_pages_sleep E page w))).
Proof.
  unfold first_pages_delay, first_pages_sleep. destruct (page <=? 2).
  - run. rewrite advance_advance. reflexivity.
  - run. rewrite advance_0. reflexivity.
Qed.

Section Summaries.
Context {B : Bs4}.
Variable E : Env.

Lemma _extract_reviews_from_page_state (html : string) (star : Z)
    (self : ReviewScraper) (w : World) :
  let els := select (BeautifulSoup html) REVIEW_SELECTORS.container in
  let res := _extract_reviews_from_page E html star (self, w) in
  fst res = Z.of_nat (List.length (reviews_at E els star (n_now w)))
  /\ fst (snd res)
     = with_queue self (reviews_queue self ++ reviews_at E els star (n_now w))
  /\ exists evs, trace (snd (snd res)) = trace w ++ evs /\ quiet evs
       /\ (els = [] -> evs = [Log WARNING No_review_elements_found]).
Proof.
  intros els res. subst res. unfold _extract_reviews_from_page. fold els.
  destruct els as [|el els'] eqn:Hels.
  - run. cbn [reviews_at List.length]. split; [reflexivity|]. split.
    + rewrite app_nil_r. destruct self; reflexivity.
    + eexists. split; [reflexivity|]. split; [repeat split|].
      intros _. reflexivity.
  - rewrite extract_loop_run. cbn [fst snd].
    assert (Hlen : forall l i, List.length (reviews_at E l star i) = List.length l).
    { clear. intros l. induction l as [|x l IH]; intros i; simpl;
        [reflexivity | rewrite IH; reflexivity]. }
    rewrite Hlen. split; [lia|]. split; [reflexivity|].
    exists []. split; [symmetry; apply app_nil_r|].
    split; [repeat split | discriminate].
Qed.

Lemma In_reviews_at (els : list Tag) (star : Z) (rv : Review) :
  forall i, In rv (reviews_at E els star i) ->
  exists element now, In element els /\ rv = review_at E element star now.
Proof.
  induction els as [|el els IH]; intros i Hin; [destruct Hin|].
  cbn [reviews_at] in Hin. destruct Hin as [<- | Hin].
  - exists el, i. split; [left; reflexivity | reflexivity].
  - destruct (IH (S i) Hin) as (element & now & Hel & ->).
    exists element, now. split; [right; exact Hel | reflexivity].
Qed.

(** Everything a task with a star filter does, whatever its fetch finds. *)
Lemma task_summary (product_id : string) (star page : Z)
    (self : ReviewScraper) (w : World) (star_filter : string) :
  STAR_FILTERS !! star = Some star_filter ->
  let res := _scrape_single_page E product_id star page (self, w) in
  exists q evs,
    fst res = Returned (Z.of_nat (List.length q))
    /\ reviews_queue (fst (snd res)) = reviews_queue self ++ q
    /\ session (fst (snd res)) = session self
    /\ max_threads (fst (snd res)) = max_threads self
    /\ total_reviews (fst (snd res)) = total_reviews self
    /\ trace (snd (snd res))
       = trace w ++ first_pages_sleep E page w
         ++ Fetch (REVIEWS_URL product_id star_filter page) :: evs
    /\ quiet evs
    /\ Forall (extracted_from_a_page E) q.
Proof.
  intros Hf res. subst res. unfold _scrape_single_page. rewrite Hf.
  rewrite bind_run, first_pages_delay_exact. cbn [fst snd]. run.
  match goal with
  | |- context [make_request_with_backoff E ?u ?ss 3 ?w0] =>
    destruct (fetch_trace E u ss 3 w0) as (k & r0 & evs & Hsnd & Hquiet);
    pose proof (fetch_returns_200 E u ss 3 w0) as H200;
    pose proof (fetch_result_was_returned E u ss 3 w0) as Hret;
    set (fr := make_request_with_backoff E u ss 3 w0) in *
  end.
  assert (Htr : forall tail,
             trace (advance (snd fr) 0 0 tail)
             = trace w ++ first_pages_sleep E page w
               ++ Fetch (REVIEWS_URL product_id star_filter page)
                  :: (evs ++ tail)).
  { intros tail. rewrite Hsnd. cbn. rewrite <- !app_assoc. reflexivity. }
  destruct (fst fr) as [r|] eqn:Hfr.
  - specialize (H200 r eq_refl). destruct (Hret r eq_refl) as [i Hget].
    unfold falsy. rewrite (ok_200 r H200). cbn [negb].
    destruct (soft_blocked (requests.text r)) eqn:Hblock.
    + run. exists [], (evs ++ [Log ERROR (Hit_login_wall_or_captcha star page)]).
      cbn [fst snd reviews_queue session max_threads total_reviews List.length].
      rewrite app_nil_r, Htr.
      do 6 (split; [reflexivity|]).
      split; [apply quiet_app; [exact Hquiet | repeat split] | constructor].
    + run.
      match goal with
      | |- context [_extract_reviews_from_page E ?h ?s0 (?self0, ?w0)] =>
        destruct (_extract_reviews_from_page_state h s0 self0 w0)
          as (Hn & Hst & evs2 & Htr2 & Hq2 & _);
        destruct (_extract_reviews_from_page E h s0 (self0, w0))
          as [n [self2 w2]]
      end.
      cbn [fst snd] in *. subst n self2.
      eexists _, (evs ++ evs2).
      cbn [with_queue reviews_queue session max_threads total_reviews].
      split; [reflexivity|]. split; [reflexivity|].
      do 3 (split; [reflexivity|]).
      split.
      * rewrite Htr2, Hsnd. cbn. rewrite <- !app_assoc. reflexivity.
      * split; [apply quiet_app; assumption|].
        apply Forall_forall. intros rv Hrv.
        apply list_elem_of_In, In_reviews_at in Hrv.
        destruct Hrv as (element & now & Hel & ->).
        eexists i, _, _, r, element, star, now.
        split; [exact Hget|]. split; [exact H200|]. split; [exact Hblock|].
        split; [exact Hel|]. split; [exists star_filter; exact Hf | reflexivity].
  - run. exists [], (evs ++ [Log WARNING (Failed_to_get_response star page)]).
    cbn [fst snd reviews_queue session max_threads total_reviews List.length].
    rewrite app_nil_r, Htr.
    do 6 (split; [reflexivity|]).
    split; [apply quiet_app; [exact Hquiet | repeat split] | constructor].
Qed.

Lemma task_key_error (product_id : string) (star page : Z)
    (self : ReviewScraper) (w : World) :
  STAR_FILTERS !! star = None ->
  _scrape_single_page E product_id star page (self, w)
  = (Raised_KeyError, (self, w)).
Proof. intros Hf. unfold _scrape_single_page. rewrite Hf. reflexivity. Qed.

(** Everything the tasks of a run do, whatever their fetches find. *)
Lemma run_tasks_summary (product_id : string) (tasks : list ScrapeTask) :
  forall (self : ReviewScraper) (w : World),
  let res := run_tasks E product_id tasks (self, w) in
  exists q evs,
    reviews_queue (fst (snd res)) = reviews_queue self ++ q
    /\ session (fst (snd res)) = session self
    /\ max_threads (fst (snd res)) = max_threads self
    /\ total_reviews (fst (snd res)) = total_reviews self
    /\ trace (snd (snd res)) = trace w ++ evs
    /\ fetched_urls evs = task_urls product_id tasks
    /\ csv_writes evs = []
    /\ Z.of_nat (List.length q) = fold_right Z.add 0 (completed_counts evs)
    /\ ((forall t, In t tasks -> 1 <= fst t <= 5) ->
        List.length (completed_counts evs) = List.length tasks)
    /\ Forall (extracted_from_a_page E) q.
Proof.
  induction tasks as [|[star page] tasks IH]; intros self w res; subst res.
  - cbn [run_tasks]. run. exists [], []. rewrite !app_nil_r.
    do 8 (split; [reflexivity|]). split; [intros _; reflexivity | constructor].
  - cbn [run_tasks]. rewrite bind_run.
    cbn [task_urls flat_map]. unfold task_url. cbn [fst snd].
    destruct (STAR_FILTERS !! star) as [f|] eqn:Hf.
    + destruct (task_summary product_id star page self w f Hf)
        as (q1 & evs1 & Hres & Hq & Hsess & Hmax & Htot & Htr
            & (Hquiet1 & Hquiet2 & Hquiet3) & Hrows).
      destruct (_scrape_single_page E product_id star page (self, w))
        as [res1 [self1 w1]].
      cbn [fst snd] in *. subst res1. run.
      destruct (IH self1 (advance w1 0 0
                  [Log INFO (Completed_task star page (Z.of_nat (List.length q1)))]))
        as (q2 & evs2 & IHq & IHsess & IHmax & IHtot & IHtr & IHurls & IHcsv
            & IHsum & IHlen & IHrows).
      exists (q1 ++ q2),
        ((first_pages_sleep E page w
          ++ Fetch (REVIEWS_URL product_id f page) :: evs1)
         ++ Log INFO (Completed_task star page (Z.of_nat (List.length q1)))
            :: evs2).
      rewrite IHq, IHsess, IHmax, IHtot, IHtr, Hq, Hsess, Hmax, Htot.
      split; [rewrite app_assoc; reflexivity|].
      do 3 (split; [reflexivity|]).
      split.
      { cbn [trace advance]. rewrite Htr, <- !app_assoc. reflexivity. }
      split.
      { rewrite !fetched_urls_app. cbn [fetched_urls].
        rewrite Hquiet1, IHurls.
        unfold first_pages_sleep. destruct (page <=? 2); reflexivity. }
      split.
      { rewrite !csv_writes_app. cbn [csv_writes].
        rewrite Hquiet2, IHcsv.
        unfold first_pages_sleep. destruct (page <=? 2); reflexivity. }
      assert (Hcc : completed_counts
                      ((first_pages_sleep E page w
                        ++ Fetch (REVIEWS_URL product_id f page) :: evs1)
                       ++ Log INFO (Completed_task star page
                                      (Z.of_nat (List.length q1))) :: evs2)
                    = Z.of_nat (List.length q1) :: completed_counts evs2).
      { rewrite !completed_counts_app. cbn [completed_counts].
        rewrite Hquiet3.
        unfold first_pages_sleep. destruct (page <=? 2); reflexivity. }
      rewrite Hcc.
      split; [cbn [fold_right]; rewrite <- IHsum, length_app; lia|].
      split; [|apply Forall_app; split; assumption].
      intros Hstars. cbn [List.length]. f_equal. apply IHlen.
      intros t Ht. apply Hstars. right. exact Ht.
    + rewrite (task_key_error product_id star page self w Hf).
      cbn [fst snd]. run.
      destruct (IH self (advance w 0 0 [Log ERROR (Error_scraping star page)]))
        as (q2 & evs2 & IHq & IHsess & IHmax & IHtot & IHtr & IHurls & IHcsv
            & IHsum & IHlen & IHrows).
      exists q2, (Log ERROR (Error_scraping star page) :: evs2).
      rewrite IHq, IHsess, IHmax, IHtot, IHtr.
      do 4 (split; [reflexivity|]).
      split; [cbn [trace advance]; rewrite <- app_assoc; reflexivity|].
      split; [exact IHurls|]. split; [exact IHcsv|]. split; [exact IHsum|].
      split; [|exact IHrows].
      intros Hstars. exfalso.
      destruct (STAR_FILTERS_lookup star) as [f' Hf'];
        [apply (Hstars (star, page)); left; reflexivity | congruence].
Qed.
End Summaries.

Lemma STAR_FILTERS_missing (star : Z) :
  star < 1 \/ 5 < star -> STAR_FILTERS !! star = None.
Proof.
  intros H. unfold STAR_FILTERS.
  rewrite !lookup_insert_ne by lia. apply lookup_empty.
Qed.

Lemma length_task_urls (product_id : string) (tasks : list ScrapeTask) :
  (forall t, In t tasks -> 1 <= fst t <= 5) ->
  List.length (task_urls product_id tasks) = List.length tasks.
Proof.
  induction tasks as [|t tasks IH]; intros Hstars; [reflexivity|].
  cbn [task_urls flat_map]. unfold task_url.
  destruct (STAR_FILTERS_lookup (fst t)) as [f ->].
  { apply Hstars. left. reflexivity. }
  cbn [app List.length]. f_equal. apply IH.
  intros t' Ht'. apply Hstars. right. exact Ht'.
Qed.

Section MoreRuns.
Context {B : Bs4}.
Variable E : Env.

(** X9: for a URL without a product id [scrape_reviews] returns an empty
    table at once, session or not: the scraper is untouched and the only
    event is the ERROR record about the URL. *)
Theorem scrape_reviews_invalid_url (product_url : string) (N : Z)
    (self : ReviewScraper) (w : World) :
  extract_product_id product_url = None ->
  let res := scrape_reviews E product_url N (self, w) in
  fst res = Returned []
  /\ fst (snd res) = self
  /\ new_events w (snd (snd res)) = [Log ERROR (Invalid_product_URL product_url)].
Proof.
  intros Hid res. subst res. unfold scrape_reviews. rewrite Hid. run.
  split; [reflexivity|]. split; [reflexivity|].
  apply new_events_app. reflexivity.
Qed.

(** A run whose canary passes, in full. *)
Lemma scrape_reviews_run_summary (product_url product_id : string) (N : Z)
    (self : ReviewScraper) (w : World) (s : requests.Session) :
  extract_product_id product_url = Some product_id ->
  session self = Some s ->
  canary_passes E s product_id (n_get w) ->
  let res := scrape_reviews E product_url N (self, w) in
  exists evs,
    trace (snd (snd res)) = trace w ++ evs
    /\ session (fst (snd res)) = session self
    /\ max_threads (fst (snd res)) = max_threads self
    /\ total_reviews (fst (snd res)) = total_reviews self
    /\ if max_threads self <=? 0 then
         fst res = Raised_ValueError
         /\ fst (snd res) = self
         /\ fetched_urls evs = [canary_url product_id]
         /\ csv_writes evs = []
       else
         exists q,
           fst res = Returned (reviews_queue self ++ q)
           /\ reviews_queue (fst (snd res)) = []
           /\ fetched_urls evs
              = canary_url product_id :: task_urls product_id (scrape_tasks N)
           /\ csv_writes evs
              = match reviews_queue self ++ q with
                | [] => []
                | _ => [(product_id, reviews_queue self ++ q)]
                end
           /\ Z.of_nat (List.length q)
              = fold_right Z.add 0 (completed_counts evs)
           /\ (0 <= N ->
               List.length (completed_counts evs) = Z.to_nat (5 * N))
           /\ In (Log INFO (Completed_scraping
                              (List.length (reviews_queue self ++ q)))) evs
           /\ Forall (extracted_from_a_page E) q.
Proof.
  intros Hid Hs (r & Hfinds & Hblock) res. subst res.
  unfold scrape_reviews. rewrite Hid. run. rewrite Hs. run.
  match goal with
  | |- context [make_request_with_backoff E ?u ?ss 3 ?w0] =>
    pose proof (fetch_outcome E u ss w0) as Hout;
    destruct (fetch_trace E u ss 3 w0) as (k & r0 & evs1 & Hsnd & Hq1 & Hq2 & Hq3);
    set (fr := make_request_with_backoff E u ss 3 w0) in *
  end.
  cbn [n_get advance effective_session] in Hout.
  rewrite Nat.add_0_r in Hout.
  rewrite (Hout (Some r) Hfinds), Hblock. run.
  assert (Htr1 : trace (snd fr)
                 = trace w ++ Log INFO (Starting_review_scraping product_id)
                   :: Fetch (canary_url product_id) :: evs1).
  { rewrite Hsnd. cbn. rewrite <- !app_assoc. reflexivity. }
  destruct (max_threads self <=? 0) eqn:Hthreads.
  - run. eexists. split; [cbn [trace advance]; rewrite Htr1, <- app_assoc; reflexivity|].
    split; [exact Hs|]. do 2 (split; [reflexivity|]).
    split; [reflexivity|]. split; [reflexivity|].
    cbn [app fetched_urls csv_writes].
    rewrite fetched_urls_app, csv_writes_app, Hq1, Hq2. split; reflexivity.
  - run.
    match goal with
    | |- context [run_tasks E product_id ?ts (self, ?w0)] =>
      destruct (run_tasks_summary E product_id ts self w0)
        as (q & evs2 & Hq & Hsess & Hmax & Htot & Htr2 & Hurls & Hcsv & Hsum
            & Hlen & Hrows);
      destruct (run_tasks E product_id ts (self, w0)) as [u [self2 w2]]
    end.
    cbn [fst snd] in *. rewrite drain_queue_run. run.
    rewrite Hq.
    assert (Htr : trace w2
                  = trace w ++ (Log INFO (Starting_review_scraping product_id)
                      :: Fetch (canary_url product_id) :: evs1)
                    ++ Log INFO Initial_access_test_passed :: evs2).
    { rewrite Htr2. cbn [trace advance]. rewrite Htr1, <- !app_assoc.
      reflexivity. }
    destruct (reviews_queue self ++ q) as [|rv df] eqn:Hdf.
    + cbv beta iota. run.
      cbn [fst snd with_queue session max_threads total_reviews reviews_queue
           trace advance].
      eexists. split; [rewrite Htr, <- !app_assoc; reflexivity|].
      split; [congruence|]. do 2 (split; [assumption|]).
      exists q. rewrite Hdf. split; [reflexivity|]. split; [reflexivity|].
      cbn [app fetched_urls csv_writes completed_counts].
      rewrite !fetched_urls_app, !csv_writes_app, !completed_counts_app.
      cbn [fetched_urls csv_writes completed_counts].
      rewrite !fetched_urls_app, !csv_writes_app, !completed_counts_app.
      cbn [fetched_urls csv_writes completed_counts].
      rewrite Hq1, Hq2, Hq3, Hurls, Hcsv. rewrite !app_nil_r. cbn [app].
      do 2 (split; [reflexivity|]). split; [exact Hsum|].
      split.
      { intros HN. rewrite Hlen by apply scrape_tasks_stars.
        apply length_scrape_tasks. exact HN. }
      split; [|exact Hrows].
      do 2 right. apply in_or_app. right. right.
      apply in_or_app. right. left. reflexivity.
    + cbv beta iota. run.
      cbn [fst snd with_queue session max_threads total_reviews reviews_queue
           trace advance].
      eexists. split; [rewrite Htr, <- !app_assoc; reflexivity|].
      split; [congruence|]. do 2 (split; [assumption|]).
      exists q. rewrite Hdf. split; [reflexivity|]. split; [reflexivity|].
      cbn [app fetched_urls csv_writes completed_counts].
      rewrite !fetched_urls_app, !csv_writes_app, !completed_counts_app.
      cbn [fetched_urls csv_writes completed_counts].
      rewrite !fetched_urls_app, !csv_writes_app, !completed_counts_app.
      cbn [fetched_urls csv_writes completed_counts].
      rewrite Hq1, Hq2, Hq3, Hurls, Hcsv. rewrite !app_nil_r. cbn [app].
      do 2 (split; [reflexivity|]). split; [exact Hsum|].
      split.
      { intros HN. rewrite Hlen by apply scrape_tasks_stars.
        apply length_scrape_tasks. exact HN. }
      split; [|exact Hrows].
      do 2 right. apply in_or_app. right. right.
      apply in_or_app. right. left. reflexivity.
Qed.
End MoreRuns.

Lemma task_urls_map (product_id : string) (tasks : list ScrapeTask) :
  (forall t, In t tasks -> 1 <= fst t <= 5) ->
  task_urls product_id tasks
  = map (fun t => REVIEWS_URL product_id
                    (default ""%string (STAR_FILTERS !! fst t)) (snd t)) tasks.
Proof.
  induction tasks as [|t tasks IH]; intros Hstars; [reflexivity|].
  cbn [task_urls flat_map map]. unfold task_url.
  destruct (STAR_FILTERS_lookup (fst t)) as [f Hf].
  { apply Hstars. left. reflexivity. }
  rewrite Hf. cbn [app default]. f_equal. apply IH.
  intros t' Ht'. apply Hstars. right. exact Ht'.
Qed.

(** The canary of any run either fails or passes. *)
Lemma canary_decides (E : Env) (s : requests.Session) (product_id : string)
    (ng : nat) :
  canary_fails E s product_id ng \/ canary_passes E s product_id ng.
Proof.
  destruct (first_success E s (canary_url product_id) ng 3)
    as [Hall | (k & r & Hk & Hfail & Hget & H200)].
  - left. left. exact Hall.
  - assert (Hfinds : fetch_finds E s (canary_url product_id) ng (Some r))
      by (exists k; repeat split; assumption).
    destruct (soft_blocked (requests.text r)) eqn:Hb.
    + left. right. exists r. split; assumption.
    + right. exists r. split; assumption.
Qed.

Section MoreOutcomes.
Context {B : Bs4}.
Variable E : Env.

(** X10: with [max_threads <= 0] a run whose canary passes raises
    [ValueError] when it creates the executor: the canary is its only
    fetch, no task runs, nothing is written and the scraper is untouched. *)
Theorem scrape_reviews_without_workers (product_url product_id : string)
    (N : Z) (self : ReviewScraper) (w : World) (s : requests.Session) :
  extract_product_id product_url = Some product_id ->
  session self = Some s ->
  canary_passes E s product_id (n_get w) ->
  max_threads self <= 0 ->
  let res := scrape_reviews E product_url N (self, w) in
  fst res = Raised_ValueError
  /\ fst (snd res) = self
  /\ fetched_urls (new_events w (snd (snd res))) = [canary_url product_id]
  /\ csv_writes (new_events w (snd (snd res))) = [].
Proof.
  intros Hid Hs Hpass Hthreads res.
  destruct (scrape_reviews_run_summary E product_url product_id N self w s
              Hid Hs Hpass) as (evs & Htr & _ & _ & _ & Hrest).
  fold res in Htr, Hrest.
  replace (max_threads self <=? 0) with true in Hrest
    by (symmetry; apply Z.leb_le; exact Hthreads).
  rewrite (new_events_app _ _ _ Htr). exact Hrest.
Qed.

(** X11: with one worker ([max_threads = 1]) the tasks run one after the
    other in the order of their submission, so a completed run fetches
    the canary URL and then, task by task in grid order, the reviews URL
    of each task: [5N] task fetches, number [k] for star [5 - k / N] and
    page [1 + k mod N]. *)
Theorem completed_run_fetches (product_url product_id : string) (N : Z)
    (self : ReviewScraper) (w : World) (s : requests.Session) :
  extract_product_id product_url = Some product_id ->
  session self = Some s ->
  canary_passes E s product_id (n_get w) ->
  max_threads self = 1 ->
  1 <= N ->
  let res := scrape_reviews E product_url N (self, w) in
  fetched_urls (new_events w (snd (snd res)))
  = canary_url product_id :: task_urls product_id (scrape_tasks N)
  /\ List.length (task_urls product_id (scrape_tasks N)) = Z.to_nat (5 * N)
  /\ forall k, 0 <= k < 5 * N ->
       exists star_filter,
         STAR_FILTERS !! (5 - k / N) = Some star_filter
         /\ nth (Z.to_nat k) (task_urls product_id (scrape_tasks N)) ""%string
            = REVIEWS_URL product_id star_filter (1 + k mod N).
Proof.
  intros Hid Hs Hpass Hthreads HN res.
  destruct (scrape_reviews_run_summary E product_url product_id N self w s
              Hid Hs Hpass) as (evs & Htr & _ & _ & _ & Hrest).
  fold res in Htr, Hrest.
  replace (max_threads self <=? 0) with false in Hrest
    by (symmetry; apply Z.leb_gt; lia).
  destruct Hrest as (q & _ & _ & Hurls & _).
  rewrite (new_events_app _ _ _ Htr). split; [exact Hurls|].
  split.
  { rewrite length_task_urls by apply scrape_tasks_stars.
    apply length_scrape_tasks. lia. }
  intros k Hk.
  assert (Hq : 0 <= k / N < 5).
  { split; [apply Z.div_pos; lia | apply Z.div_lt_upper_bound; lia]. }
  destruct (STAR_FILTERS_lookup (5 - k / N) ltac:(lia)) as [f Hf].
  exists f. split; [exact Hf|].
  rewrite task_urls_map by apply scrape_tasks_stars.
  rewrite nth_indep with (d' := (fun t : ScrapeTask =>
            REVIEWS_URL product_id (default ""%string (STAR_FILTERS !! fst t))
              (snd t)) (0, 0))
    by (rewrite length_map, length_scrape_tasks; lia).
  rewrite (map_nth (fun t : ScrapeTask =>
            REVIEWS_URL product_id (default ""%string (STAR_FILTERS !! fst t))
              (snd t))).
  rewrite nth_scrape_tasks by lia. cbn [fst snd]. rewrite Hf. reflexivity.
Qed.

(** X12: no run ever changes [total_reviews]: the field is set to 0 by
    the constructor and [scrape_reviews] leaves it alone on every path. *)
Theorem scrape_reviews_keeps_total_reviews (product_url : string) (N : Z)
    (self : ReviewScraper) (w : World) :
  total_reviews (fst (snd (scrape_reviews E product_url N (self, w))))
  = total_reviews self.
Proof.
  destruct (extract_product_id product_url) as [product_id|] eqn:Hid.
  - destruct (session self) as [s|] eqn:Hs.
    + destruct (canary_decides E s product_id (n_get w)) as [Hfails|Hpass].
      * destruct (scrape_reviews_abort E product_url product_id N self w s
                    Hid Hs Hfails) as (_ & -> & _).
        reflexivity.
      * destruct (scrape_reviews_run_summary E product_url product_id N self w s
                    Hid Hs Hpass) as (evs & _ & _ & _ & Htot & _).
        exact Htot.
    + unfold scrape_reviews. rewrite Hid. run. rewrite Hs. run. reflexivity.
  - unfold scrape_reviews. rewrite Hid. run. reflexivity.
Qed.

(** X13: a completed run returns the reviews that were on the queue
    followed by those its tasks put there, and leaves the queue empty.
    Each of the [5N] tasks leaves a completion record with the number of
    reviews it returned, and these numbers add up to the number of rows
    the run has added; the record of the end of the run reports the
    number of rows of the table.  The run writes one CSV file, with
    exactly the rows it returns, when there is at least one row, and no
    file otherwise. *)
Theorem completed_run_table (product_url product_id : string) (N : Z)
    (self : ReviewScraper) (w : World) (s : requests.Session) :
  extract_product_id product_url = Some product_id ->
  session self = Some s ->
  canary_passes E s product_id (n_get w) ->
  1 <= max_threads self ->
  0 <= N ->
  let res := scrape_reviews E product_url N (self, w) in
  let evs := new_events w (snd (snd res)) in
  exists q,
    fst res = Returned (reviews_queue self ++ q)
    /\ reviews_queue (fst (snd res)) = []
    /\ List.length (completed_counts evs) = Z.to_nat (5 * N)
    /\ Z.of_nat (List.length q) = fold_right Z.add 0 (completed_counts evs)
    /\ Forall (extracted_from_a_page E) q
    /\ In (Log INFO (Completed_scraping
                       (List.length (reviews_queue self ++ q)))) evs
    /\ csv_writes evs
       = match reviews_queue self ++ q with
         | [] => []
         | _ => [(product_id, reviews_queue self ++ q)]
         end.
Proof.
  intros Hid Hs Hpass Hthreads HN res evs0. subst evs0.
  destruct (scrape_reviews_run_summary E product_url product_id N self w s
              Hid Hs Hpass) as (evs & Htr & _ & _ & _ & Hrest).
  fold res in Htr, Hrest.
  replace (max_threads self <=? 0) with false in Hrest
    by (symmetry; apply Z.leb_gt; lia).
  destruct Hrest as (q & Hres & Hqueue & _ & Hcsv & Hsum & Hlen & Hin & Hrows).
  exists q. rewrite (new_events_app _ _ _ Htr).
  split; [exact Hres|]. split; [exact Hqueue|].
  split; [exact (Hlen HN)|]. split; [exact Hsum|]. split; [exact Hrows|].
  split; [exact Hin | exact Hcsv].
Qed.

(** X14: the number a task returns is the number of reviews it has put
    on the queue; a task that raises [KeyError] has put none. *)
Theorem task_returns_what_it_queued (product_id : string) (star page : Z)
    (self : ReviewScraper) (w : World) :
  let res := _scrape_single_page E product_id star page (self, w) in
  exists q,
    reviews_queue (fst (snd res)) = reviews_queue self ++ q
    /\ (fst res = Returned (Z.of_nat (List.length q))
        \/ (fst res = Raised_KeyError /\ q = [])).
Proof.
  intros res. subst res.
  destruct (STAR_FILTERS !! star) as [f|] eqn:Hf.
  - destruct (task_summary E product_id star page self w f Hf)
      as (q & evs & Hres & Hq & _).
    exists q. split; [exact Hq|]. left. exact Hres.
  - rewrite (task_key_error E product_id star page self w Hf).
    exists []. cbn [fst snd]. rewrite app_nil_r.
    split; [reflexivity|]. right. split; reflexivity.
Qed.

(** X15: a task whose page is fetched and not soft-blocked but holds no
    review element is counted as a success: it returns 0, adds one to
    [successful_requests], leaves [failed_requests] and the queue alone,
    and its last log record is the WARNING that no review elements were
    found. *)
Theorem task_without_reviews_is_a_success (product_id : string)
    (star page : Z) (self : ReviewScraper) (w : World) (star_filter : string)
    (r : requests.Response) :
  STAR_FILTERS !! star = Some star_filter ->
  fetch_finds E (effective_session E (session self) w)
    (REVIEWS_URL product_id star_filter page) (n_get w) (Some r) ->
  soft_blocked (requests.text r) = false ->
  select (BeautifulSoup (requests.text r)) REVIEW_SELECTORS.container = [] ->
  let res := _scrape_single_page E product_id star page (self, w) in
  fst res = Returned 0
  /\ successful_requests (fst (snd res)) = successful_requests self + 1
  /\ failed_requests (fst (snd res)) = failed_requests self
  /\ reviews_queue (fst (snd res)) = reviews_queue self
  /\ exists evs, new_events w (snd (snd res))
                 = evs ++ [Log WARNING No_review_elements_found].
Proof.
  intros Hf Hfinds Hblock Hnone res. subst res.
  unfold _scrape_single_page. rewrite Hf.
  rewrite bind_run, first_pages_delay_exact. cbn [fst snd]. run.
  match goal with
  | |- context [make_request_with_backoff E ?u ?ss 3 ?w0] =>
    pose proof (fetch_outcome E u ss w0) as Hout;
    destruct (fetch_trace E u ss 3 w0) as (k & r0 & evs & Hsnd & _);
    set (fr := make_request_with_backoff E u ss 3 w0) in *
  end.
  cbn [n_get advance] in Hout. rewrite Nat.add_0_r in Hout.
  change (effective_session E (session self) (advance w 0 _ _))
    with (effective_session E (session self) w) in Hout.
  rewrite (Hout (Some r) Hfinds).
  destruct Hfinds as (k0 & _ & _ & _ & H200).
  unfold falsy. rewrite (ok_200 r H200). cbn [negb]. rewrite Hblock. run.
  unfold _extract_reviews_from_page. rewrite Hnone. run.
  cbn [successful_requests failed_requests reviews_queue].
  do 4 (split; [reflexivity|]).
  exists (first_pages_sleep E page w
          ++ Fetch (REVIEWS_URL product_id star_filter page) :: evs).
  apply new_events_app. rewrite Hsnd. cbn [trace advance start_world].
  rewrite <- !app_assoc. reflexivity.
Qed.

(** X16: for a star rating that [STAR_FILTERS] lacks (below 1 or above
    5) a task raises [KeyError] before it sleeps or fetches, leaving the
    scraper and the trace as they were; the run logs an ERROR for the
    task and goes on with the next one. *)
Theorem task_with_unknown_star (product_id : string) (star page : Z)
    (rest : list ScrapeTask) (self : ReviewScraper) (w : World) :
  star < 1 \/ 5 < star ->
  _scrape_single_page E product_id star page (self, w)
  = (Raised_KeyError, (self, w))
  /\ run_tasks E product_id ((star, page) :: rest) (self, w)
     = run_tasks E product_id rest
         (self, advance w 0 0 [Log ERROR (Error_scraping star page)]).
Proof.
  intros Hstar. pose proof (STAR_FILTERS_missing star Hstar) as Hf.
  split; [apply task_key_error; exact Hf|].
  cbn [run_tasks]. rewrite bind_run.
  rewrite (task_key_error E product_id star page self w Hf). run. reflexivity.
Qed.

(** X17: a task for page 1 or 2 first sleeps 2 seconds plus a random
    delay, between 3.5 and 5.5 seconds in all, and then calls the
    fetcher; a task for a later page calls the fetcher at once. *)
Theorem task_first_pages_delay (product_id : string) (star page : Z)
    (self : ReviewScraper) (w : World) (star_filter : string) :
  STAR_FILTERS !! star = Some star_filter ->
  let res := _scrape_single_page E product_id star page (self, w) in
  let url := REVIEWS_URL product_id star_filter page in
  (page <= 2 ->
   exists d evs,
     new_events w (snd (snd res)) = Sleep d :: Fetch url :: evs
     /\ (7 # 2 <= d)%Q /\ (d <= 11 # 2)%Q)
  /\ (2 < page ->
      exists evs, new_events w (snd (snd res)) = Fetch url :: evs).
Proof.
  intros Hf res url.
  destruct (task_summary E product_id star page self w star_filter Hf)
    as (q & evs & _ & _ & _ & _ & _ & Htr & _).
  fold res in Htr. rewrite (new_events_app _ _ _ Htr).
  unfold first_pages_sleep. split.
  - intros Hpage. replace (page <=? 2) with true
      by (symmetry; apply Z.leb_le; exact Hpage).
    eexists _, evs. split; [reflexivity|].
    destruct (jitter_delay_bounds E (n_random w)) as [Hlo Hhi].
    unfold MIN_DELAY, MAX_DELAY in *. split; lra.
  - intros Hpage. replace (page <=? 2) with false
      by (symmetry; apply Z.leb_gt; exact Hpage).
    exists evs. reflexivity.
Qed.
End MoreOutcomes.

(** ** Stripped fields *)

Lemma rstrip_idem (s : string) : rstrip (rstrip s) = rstrip s.
Proof.
  induction s as [|c s IH]; [reflexivity|].
  cbn [rstrip]. destruct (rstrip s) as [|d r] eqn:Hr.
  - destruct (is_space c) eqn:Hc; [reflexivity|].
    cbn [rstrip]. rewrite Hc. reflexivity.
  - change (rstrip (String c (String d r)))
      with (match rstrip (String d r) with
            | EmptyString => if is_space c then EmptyString
                             else String c EmptyString
            | x => String c x
            end).
    rewrite IH. reflexivity.
Qed.

Lemma lstrip_head (s : string) (c : ascii) (t : string) :
  lstrip s = String c t -> is_space c = false.
Proof.
  induction s as [|d s IH]; cbn [lstrip]; [discriminate|].
  destruct (is_space d) eqn:Hd; [exact IH|].
  intros [= <- _]. exact Hd.
Qed.

Lemma rstrip_head (c : ascii) (t : string) :
  is_space c = false -> exists t', rstrip (String c t) = String c t'.
Proof.
  intros Hc. cbn [rstrip]. destruct (rstrip t) as [|d r].
  - rewrite Hc. eexists; reflexivity.
  - eexists; reflexivity.
Qed.

Lemma strip_stripped (s : string) : stripped (strip s).
Proof.
  unfold stripped, strip. split; [|apply rstrip_idem].
  destruct (lstrip s) as [|c t] eqn:Hl; [reflexivity|].
  pose proof (lstrip_head s c t Hl) as Hc.
  destruct (rstrip_head c t Hc) as [t' ->].
  cbn [lstrip]. rewrite Hc. reflexivity.
Qed.

Lemma text_or_empty_stripped {B : Bs4} (elem : option Tag) :
  stripped (text_or_empty elem).
Proof.
  destruct elem as [e|]; cbn [text_or_empty];
    [apply strip_stripped | split; reflexivity].
Qed.

(** X18: the title, text, date and author of every captured review are
    stripped: none of them starts or ends with whitespace. *)
Theorem captured_fields_are_stripped {B : Bs4} (E : Env) (html : string)
    (star : Z) (st : St) :
  Forall (fun r => stripped (title r) /\ stripped (text r)
                   /\ stripped (date r) /\ stripped (author r))
         (captured E html star st).
Proof.
  rewrite captured_eq.
  generalize (select (BeautifulSoup html) REVIEW_SELECTORS.container).
  generalize (n_now (snd st)).
  intros i els. revert i.
  induction els as [|el els IH]; intros i; cbn [reviews_at]; constructor.
  - unfold review_at, review_data, bind, datetime_now, ret.
    cbn [fst title text date author].
    repeat split; apply text_or_empty_stripped.
  - apply IH.
Qed.

(** ** [get_reviews_count] *)

Lemma star_buckets_disjoint (x : Q) :
  Z.b2z (Qeq_bool x (inject_Z 1)) + Z.b2z (Qeq_bool x (inject_Z 2))
  + Z.b2z (Qeq_bool x (inject_Z 3)) + Z.b2z (Qeq_bool x (inject_Z 4))
  + Z.b2z (Qeq_bool x (inject_Z 5))
  = Z.b2z (existsb (fun star => Qeq_bool x (inject_Z star)) [1; 2; 3; 4; 5]).
Proof.
  cbn [existsb].
  destruct (Qeq_bool x (inject_Z 1)) eqn:H1;
  destruct (Qeq_bool x (inject_Z 2)) eqn:H2;
  destruct (Qeq_bool x (inject_Z 3)) eqn:H3;
  destruct (Qeq_bool x (inject_Z 4)) eqn:H4;
  destruct (Qeq_bool x (inject_Z 5)) eqn:H5;
  try reflexivity; exfalso;
  repeat match goal with
         | H : Qeq_bool _ _ = true |- _ => apply Qeq_bool_iff in H
         | H : Qeq_bool _ _ = false |- _ => clear H
         end;
  unfold inject_Z in *; lra.
Qed.

Lemma count_star_cons (r : Review) (df : DataFrame) (star : Z) :
  count_star (r :: df) star
  = Z.b2z (Qeq_bool (star_rating r) (inject_Z star)) + count_star df star.
Proof.
  unfold count_star. cbn [List.filter].
  destruct (Qeq_bool (star_rating r) (inject_Z star)); cbn [List.length Z.b2z]; lia.
Qed.

Lemma star_buckets_sum (df : DataFrame) :
  count_star df 1 + count_star df 2 + count_star df 3 + count_star df 4
  + count_star df 5
  = Z.of_nat (List.length (List.filter whole_star df)).
Proof.
  induction df as [|r df IH]; [reflexivity|].
  rewrite !count_star_cons. cbn [List.filter].
  pose proof (star_buckets_disjoint (star_rating r)) as Hd.
  unfold whole_star at 1.
  destruct (existsb _ [1; 2; 3; 4; 5]); cbn [List.length Z.b2z] in *; lia.
Qed.

Lemma filter_length_le {A : Type} (f : A -> bool) (l : list A) :
  (List.length (List.filter f l) <= List.length l)%nat.
Proof.
  induction l as [|x l IH]; simpl; [lia|]. destruct (f x); simpl; lia.
Qed.

Lemma filter_length_all {A : Type} (f : A -> bool) (l : list A) :
  List.length (List.filter f l) = List.length l <-> forallb f l = true.
Proof.
  induction l as [|x l IH]; simpl; [tauto|].
  pose proof (filter_length_le f l).
  destruct (f x); simpl.
  - rewrite <- IH. lia.
  - split; [lia | discriminate].
Qed.

Lemma get_reviews_count_lookups (r : Review) (df : DataFrame) :
  let stats := get_reviews_count (r :: df) in
  stats !! "total"%string = Some (inject_Z (Z.of_nat (List.length (r :: df))))
  /\ stats !! "1_star"%string = Some (inject_Z (count_star (r :: df) 1))
  /\ stats !! "2_star"%string = Some (inject_Z (count_star (r :: df) 2))
  /\ stats !! "3_star"%string = Some (inject_Z (count_star (r :: df) 3))
  /\ stats !! "4_star"%string = Some (inject_Z (count_star (r :: df) 4))
  /\ stats !! "5_star"%string = Some (inject_Z (count_star (r :: df) 5))
  /\ stats !! "verified"%string = Some (inject_Z (count_verified (r :: df)))
  /\ stats !! "verified_percent"%string
     = Some (inject_Z (count_verified (r :: df))
             / inject_Z (Z.of_nat (List.length (r :: df))) * 100)%Q.
Proof.
  intros stats. subst stats. unfold get_reviews_count.
  change (py_range 1 6 1) with [1; 2; 3; 4; 5].
  cbn [fold_left].
  change (str_of_Z 1 ++ "_star")%string with "1_star"%string.
  change (str_of_Z 2 ++ "_star")%string with "2_star"%string.
  change (str_of_Z 3 ++ "_star")%string with "3_star"%string.
  change (str_of_Z 4 ++ "_star")%string with "4_star"%string.
  change (str_of_Z 5 ++ "_star")%string with "5_star"%string.
  repeat split;
    repeat (first [ rewrite lookup_insert_eq; reflexivity
                  | rewrite lookup_insert_ne by discriminate ]).
Qed.

(** X19: for a table with at least one row, [get_reviews_count] reports
    the number of rows as the total and the rows of each star from 1 to
    5; the five star counts add up to the number of rows whose rating is a
    whole star between 1 and 5, so to at most the total, and to the total
    exactly when every rating is such a whole star.  The verified count is
    between 0 and the total and the verified percentage between 0 and
    100. *)
Theorem get_reviews_count_consistent (r : Review) (df : DataFrame) :
  let rows := r :: df in
  let stats := get_reviews_count rows in
  let total := Z.of_nat (List.length rows) in
  stats !! "total"%string = Some (inject_Z total)
  /\ (forall star, In star [1; 2; 3; 4; 5] ->
        stats !! (str_of_Z star ++ "_star")%string
        = Some (inject_Z (count_star rows star)))
  /\ count_star rows 1 + count_star rows 2 + count_star rows 3
     + count_star rows 4 + count_star rows 5 <= total
  /\ (count_star rows 1 + count_star rows 2 + count_star rows 3
      + count_star rows 4 + count_star rows 5 = total
      <-> forallb whole_star rows = true)
  /\ 0 <= count_verified rows <= total
  /\ exists percent,
       stats !! "verified_percent"%string = Some percent
       /\ (0 <= percent)%Q /\ (percent <= 100)%Q.
Proof.
  intros rows stats total.
  destruct (get_reviews_count_lookups r df)
    as (Ht & H1 & H2 & H3 & H4 & H5 & Hv & Hp).
  fold rows in Ht, H1, H2, H3, H4, H5, Hv, Hp.
  fold stats in Ht, H1, H2, H3, H4, H5, Hv, Hp. fold total in Ht, Hp.
  split; [exact Ht|]. split.
  { intros star [<-|[<-|[<-|[<-|[<-|[]]]]]]; assumption. }
  rewrite star_buckets_sum.
  pose proof (filter_length_le whole_star rows) as Hle.
  pose proof (filter_length_le verified rows) as Hlev.
  split; [subst total; lia|]. split.
  { rewrite <- filter_length_all. subst total. lia. }
  split; [unfold count_verified; subst total; lia|].
  eexists. split; [exact Hp|].
  assert (Htot : (0 < inject_Z total)%Q).
  { subst total rows. unfold inject_Z, Qlt. cbn [List.length Qnum Qden]. lia. }
  assert (Hv0 : (0 <= inject_Z (count_verified rows))%Q).
  { unfold count_verified, inject_Z, Qle. cbn [Qnum Qden]. lia. }
  assert (Hv1 : (inject_Z (count_verified rows) <= inject_Z total)%Q).
  { unfold count_verified. rewrite <- Zle_Qle. subst total. lia. }
  assert (Hx0 : (0 <= inject_Z (count_verified rows) / inject_Z total)%Q)
    by (apply Qle_shift_div_l; [exact Htot | lra]).
  assert (Hx1 : (inject_Z (count_verified rows) / inject_Z total <= 1)%Q)
    by (apply Qle_shift_div_r; [exact Htot | lra]).
  set (x := (inject_Z (count_verified rows) / inject_Z total)%Q) in *.
  split; lra.
Qed.

(** X20: for an empty table [get_reviews_count] returns the total 0 and
    nothing else: the star counts and the verified entries are missing
    keys. *)
Theorem get_reviews_count_empty (key : string) :
  get_reviews_count [] !! key
  = if String.eqb key "total" then Some 0%Q else None.
Proof.
  unfold get_reviews_count.
  destruct (String.eqb key "total") eqn:Hk.
  - apply String.eqb_eq in Hk. subst key. apply lookup_insert_eq.
  - apply String.eqb_neq in Hk.
    rewrite lookup_insert_ne by congruence. apply lookup_empty.
Qed.

(** ** More theorems at concrete inputs *)

Lemma scrape_reviews_invalid_url_witness :
  let res := @scrape_reviews fix_bs4 (env_always review_page) search_url0 3
               (scraper0 (Some session0) 10, world0) in
  extract_product_id search_url0 = None
  /\ fst res = Returned []
  /\ fst (snd res) = scraper0 (Some session0) 10
  /\ new_events world0 (snd (snd res))
     = [Log ERROR (Invalid_product_URL search_url0)].
Proof.
  split; [reflexivity|].
  apply (@scrape_reviews_invalid_url fix_bs4 (env_always review_page)
           search_url0 3 (scraper0 (Some session0) 10) world0).
  reflexivity.
Defined.

Lemma scrape_reviews_without_workers_witness :
  let res := @scrape_reviews fix_bs4 (env_pages plain_page review_page)
               product_url0 1 (scraper0 (Some session0) 0, world0) in
  max_threads (scraper0 (Some session0) 0) <= 0
  /\ fst res = Raised_ValueError
  /\ fst (snd res) = scraper0 (Some session0) 0
  /\ fetched_urls (new_events world0 (snd (snd res))) = [canary_url product_id0]
  /\ csv_writes (new_events world0 (snd (snd res))) = [].
Proof.
  split; [simpl; lia|].
  apply (@scrape_reviews_without_workers fix_bs4
           (env_pages plain_page review_page) product_url0 product_id0 1
           (scraper0 (Some session0) 0) world0 session0);
    [reflexivity | reflexivity | apply canary_passes_env_pages | simpl; lia].
Defined.

Lemma completed_run_fetches_witness :
  let res := @scrape_reviews fix_bs4 (env_pages plain_page review_page)
               product_url0 1 (scraper0 (Some session0) 1, world0) in
  max_threads (scraper0 (Some session0) 1) = 1
  /\ fetched_urls (new_events world0 (snd (snd res)))
     = canary_url product_id0 :: task_urls product_id0 (scrape_tasks 1)
  /\ List.length (task_urls product_id0 (scrape_tasks 1)) = Z.to_nat (5 * 1).
Proof.
  split; [reflexivity|].
  destruct (@completed_run_fetches fix_bs4 (env_pages plain_page review_page)
              product_url0 product_id0 1 (scraper0 (Some session0) 1) world0
              session0 eq_refl eq_refl (canary_passes_env_pages review_page)
              eq_refl ltac:(lia)) as (H1 & H2 & _).
  split; [exact H1 | exact H2].
Defined.

Lemma completed_run_table_witness :
  let res := @scrape_reviews fix_bs4 (env_pages plain_page review_page)
               product_url0 1 (scraper0 (Some session0) 10, world0) in
  let evs := new_events world0 (snd (snd res)) in
  1 <= max_threads (scraper0 (Some session0) 10)
  /\ exists q,
       fst res = Returned (reviews_queue (scraper0 (Some session0) 10) ++ q)
       /\ reviews_queue (fst (snd res)) = []
       /\ List.length (completed_counts evs) = Z.to_nat (5 * 1)
       /\ Z.of_nat (List.length q) = fold_right Z.add 0 (completed_counts evs)
       /\ Forall (@extracted_from_a_page fix_bs4
                    (env_pages plain_page review_page)) q
       /\ In (Log INFO (Completed_scraping
                          (List.length
                             (reviews_queue (scraper0 (Some session0) 10) ++ q))))
             evs
       /\ csv_writes evs
          = match reviews_queue (scraper0 (Some session0) 10) ++ q with
            | [] => []
            | _ => [(product_id0, reviews_queue (scraper0 (Some session0) 10) ++ q)]
            end.
Proof.
  split; [simpl; lia|].
  apply (@completed_run_table fix_bs4 (env_pages plain_page review_page)
           product_url0 product_id0 1 (scraper0 (Some session0) 10) world0
           session0);
    [reflexivity | reflexivity | apply canary_passes_env_pages | simpl; lia
    | lia].
Defined.

Lemma task_without_reviews_is_a_success_witness :
  let res := @_scrape_single_page fix_bs4 (env_always empty_page) product_id0
               5 3 (scraper0 (Some session0) 10, world0) in
  @select fix_bs4 (@BeautifulSoup fix_bs4 empty_page) REVIEW_SELECTORS.container = []
  /\ fst res = Returned 0
  /\ successful_requests (fst (snd res)) = 0 + 1
  /\ failed_requests (fst (snd res)) = 0
  /\ reviews_queue (fst (snd res)) = []
  /\ exists evs, new_events world0 (snd (snd res))
                 = evs ++ [Log WARNING No_review_elements_found].
Proof.
  split; [reflexivity|].
  apply (@task_without_reviews_is_a_success fix_bs4 (env_always empty_page)
           product_id0 5 3 (scraper0 (Some session0) 10) world0
           "five_star"%string
           {| requests.status_code := 200; requests.text := empty_page |}).
  - reflexivity.
  - exists O. split; [exact (Nat.lt_0_succ 2)|].
    split; [apply all_fail_nothing|]. split; reflexivity.
  - reflexivity.
  - reflexivity.
Defined.

Lemma task_with_unknown_star_witness :
  (6 < 1 \/ 5 < 6)
  /\ @_scrape_single_page fix_bs4 env_down product_id0 6 1
       (scraper0 (Some session0) 10, world0)
     = (Raised_KeyError, (scraper0 (Some session0) 10, world0))
  /\ @run_tasks fix_bs4 env_down product_id0 [(6, 1); (5, 1)]
       (scraper0 (Some session0) 10, world0)
     = @run_tasks fix_bs4 env_down product_id0 [(5, 1)]
         (scraper0 (Some session0) 10,
          advance world0 0 0 [Log ERROR (Error_scraping 6 1)]).
Proof.
  split; [right; lia|].
  apply (@task_with_unknown_star fix_bs4 env_down product_id0 6 1 [(5, 1)]
           (scraper0 (Some session0) 10) world0).
  right. lia.
Defined.

Lemma task_first_pages_delay_witness :
  let res := @_scrape_single_page fix_bs4 env_down product_id0 5 1
               (scraper0 (Some session0) 10, world0) in
  let url := REVIEWS_URL product_id0 "five_star" 1 in
  STAR_FILTERS !! 5 = Some "five_star"%string
  /\ (1 <= 2 ->
      exists d evs,
        new_events world0 (snd (snd res)) = Sleep d :: Fetch url :: evs
        /\ (7 # 2 <= d)%Q /\ (d <= 11 # 2)%Q).
Proof.
  split; [reflexivity|].
  apply (@task_first_pages_delay fix_bs4 env_down product_id0 5 1
           (scraper0 (Some session0) 10) world0 "five_star"%string).
  reflexivity.
Defined.

(** ** product_scraper.py *)

Lemma span_while_app (p : ascii -> bool) (s : string) :
  s = (fst (span_while p s) ++ snd (span_while p s))%string.
Proof.
  induction s as [|c s IH]; cbn [span_while]; [reflexivity|].
  destruct (p c); cbn [fst snd String.append]; [f_equal; exact IH | reflexivity].
Qed.

Lemma span_while_all (p : ascii -> bool) (s : string) :
  str_forallb p (fst (span_while p s)) = true.
Proof.
  induction s as [|c s IH]; cbn [span_while]; [reflexivity|].
  destruct (p c) eqn:Hc; cbn [fst str_forallb]; [|reflexivity].
  rewrite Hc, IH. reflexivity.
Qed.

Lemma span_while_stops (p : ascii -> bool) (c : ascii) (s : string) :
  fst (span_while p (String c s)) = ""%string -> p c = false.
Proof. cbn [span_while]. destruct (p c); cbn [fst]; [discriminate | reflexivity]. Qed.

Lemma str_forallb_app (p : ascii -> bool) (a b : string) :
  str_forallb p (a ++ b) = str_forallb p a && str_forallb p b.
Proof.
  induction a as [|c a IH]; cbn [String.append str_forallb]; [reflexivity|].
  rewrite IH. apply andb_assoc.
Qed.

Lemma str_forallb_weaken (p q : ascii -> bool) (s : string) :
  (forall c, p c = true -> q c = true) ->
  str_forallb p s = true -> str_forallb q s = true.
Proof.
  intros Hpq. induction s as [|c s IH]; cbn [str_forallb]; [reflexivity|].
  intros H. apply andb_true_iff in H. destruct H as [Hc Hs].
  rewrite (Hpq c Hc), (IH Hs). reflexivity.
Qed.

Lemma match_price_here_sound (s m : string) :
  match_price_here s = Some m ->
  m <> ""%string /\ String.prefix m s = true
  /\ str_forallb is_price_char m = true.
Proof.
  unfold match_price_here.
  pose proof (span_while_app is_digit_or_comma s) as Hs.
  pose proof (span_while_all is_digit_or_comma s) as Hds.
  destruct (fst (span_while is_digit_or_comma s)) as [|d ds] eqn:Hf;
    [discriminate|].
  assert (Hpc : str_forallb is_price_char (String d ds) = true).
  { revert Hds. apply str_forallb_weaken. intros c Hc. unfold is_price_char.
    rewrite Hc. reflexivity. }
  assert (Hplain : String.prefix (String d ds) s = true).
  { rewrite Hs at 1. apply prefix_app. }
  destruct (snd (span_while is_digit_or_comma s)) as [|c rest] eqn:Hr.
  { intros [= <-]. split; [discriminate | split; assumption]. }
  destruct (Ascii.eqb c ".") eqn:Hc.
  2: { intros [= <-]. split; [discriminate | split; assumption]. }
  apply Ascii.eqb_eq in Hc. subst c.
  pose proof (span_while_app is_digit rest) as Hrest.
  pose proof (span_while_all is_digit rest) as Hfs.
  destruct (fst (span_while is_digit rest)) as [|f fs] eqn:Hff.
  { intros [= <-]. split; [discriminate | split; assumption]. }
  intros [= <-]. split; [discriminate|]. split.
  - rewrite Hs at 1. rewrite Hrest.
    change (String d ds ++ String "." (String f fs ++ snd (span_while is_digit rest)))%string
      with (String d ds ++ (("." ++ String f fs) ++ snd (span_while is_digit rest)))%string.
    rewrite <- string_app_assoc. apply prefix_app.
  - change (String d (ds ++ String "." (String f fs)))%string
      with (String d ds ++ String "." (String f fs))%string.
    rewrite str_forallb_app. rewrite Hpc.
    change (str_forallb is_price_char (String f fs) = true).
    revert Hfs. apply str_forallb_weaken. intros c Hc. unfold is_price_char,
      is_digit_or_comma. rewrite Hc. reflexivity.
Qed.

Lemma re_search_price_sound (s m : string) :
  re_search_price s = Some m ->
  m <> ""%string /\ str_in m s = true /\ str_forallb is_price_char m = true.
Proof.
  induction s as [|c s IH]; cbn [re_search_price].
  - destruct (match_price_here "") eqn:Hm; [|discriminate].
    intros [= ->]. destruct (match_price_here_sound _ _ Hm) as (Hne & Hp & Hc).
    split; [exact Hne | split; [apply str_in_prefix; exact Hp | exact Hc]].
  - destruct (match_price_here (String c s)) eqn:Hm.
    + intros [= ->]. destruct (match_price_here_sound _ _ Hm) as (Hne & Hp & Hc).
      split; [exact Hne | split; [apply str_in_prefix; exact Hp | exact Hc]].
    + intros H. destruct (IH H) as (Hne & Hi & Hc).
      split; [exact Hne | split; [|exact Hc]].
      cbn [str_in]. rewrite Hi. apply orb_true_r.
Qed.

Lemma match_price_here_none (c : ascii) (s : string) :
  match_price_here (String c s) = None -> is_digit_or_comma c = false.
Proof.
  unfold match_price_here. intros H. apply (span_while_stops _ c s).
  destruct (fst (span_while is_digit_or_comma (String c s))) as [|d ds];
    [reflexivity|].
  destruct (snd (span_while is_digit_or_comma (String c s))) as [|e rest];
    [discriminate|].
  destruct (Ascii.eqb e "."); [|discriminate].
  destruct (fst (span_while is_digit rest)); discriminate.
Qed.

Lemma re_search_price_none (s : string) :
  re_search_price s = None ->
  str_forallb (fun c => negb (is_digit_or_comma c)) s = true.
Proof.
  induction s as [|c s IH]; cbn [re_search_price str_forallb]; [reflexivity|].
  destruct (match_price_here (String c s)) eqn:Hm; [discriminate|].
  intros H. rewrite (match_price_here_none c s Hm), (IH H). reflexivity.
Qed.

Lemma re_search_count_sound (s m : string) :
  re_search_count s = Some m ->
  m <> ""%string /\ str_in m s = true
  /\ str_forallb is_digit_or_comma m = true.
Proof.
  assert (Hhere : forall s m, match_count_here s = Some m ->
            m <> ""%string /\ String.prefix m s = true
            /\ str_forallb is_digit_or_comma m = true).
  { clear s m. intros s m. unfold match_count_here.
    pose proof (span_while_app is_digit_or_comma s) as Hs.
    pose proof (span_while_all is_digit_or_comma s) as Hds.
    destruct (fst (span_while is_digit_or_comma s)) as [|d ds];
      [discriminate|].
    intros [= <-]. split; [discriminate|]. split; [|exact Hds].
    rewrite Hs at 1. apply prefix_app. }
  induction s as [|c s IH]; cbn [re_search_count].
  - destruct (match_count_here "") eqn:Hm; [|discriminate].
    intros [= ->]. destruct (Hhere _ _ Hm) as (Hne & Hp & Hc).
    split; [exact Hne | split; [apply str_in_prefix; exact Hp | exact Hc]].
  - destruct (match_count_here (String c s)) eqn:Hm.
    + intros [= ->]. destruct (Hhere _ _ Hm) as (Hne & Hp & Hc).
      split; [exact Hne | split; [apply str_in_prefix; exact Hp | exact Hc]].
    + intros H. destruct (IH H) as (Hne & Hi & Hc).
      split; [exact Hne | split; [|exact Hc]].
      cbn [str_in]. rewrite Hi. apply orb_true_r.
Qed.

Lemma match_number_here_nonempty (s m : string) :
  match_number_here s = Some m -> m <> ""%string.
Proof.
  unfold match_number_here.
  destruct (span_digits s) as [[|d ds] rest]; [discriminate|].
  intros H Hm. subst m.
  repeat match type of H with
         | context [match ?x with _ => _ end] => destruct x
         end; discriminate.
Qed.

Lemma re_search_number_nonempty (s m : string) :
  re_search_number s = Some m -> m <> ""%string.
Proof.
  induction s as [|c s IH]; cbn [re_search_number].
  - destruct (match_number_here "") eqn:Hm; [|discriminate].
    intros [= ->]. exact (match_number_here_nonempty _ _ Hm).
  - destruct (match_number_here (String c s)) eqn:Hm.
    + intros [= ->]. exact (match_number_here_nonempty _ _ Hm).
    + exact IH.
Qed.

Lemma lstrip_suffix (s : string) : exists a, s = (a ++ lstrip s)%string.
Proof.
  induction s as [|c s [a IH]]; cbn [lstrip]; [exists ""%string; reflexivity|].
  destruct (is_space c).
  - exists (String c a). cbn [String.append]. f_equal. exact IH.
  - exists ""%string. reflexivity.
Qed.

Lemma rstrip_prefix (s : string) : exists b, s = (rstrip s ++ b)%string.
Proof.
  induction s as [|c s [b IH]]; cbn [rstrip]; [exists ""%string; reflexivity|].
  destruct (rstrip s) as [|d r].
  - destruct (is_space c).
    + exists (String c s). reflexivity.
    + exists s. reflexivity.
  - exists b. cbn [String.append]. f_equal. exact IH.
Qed.

Lemma str_in_strip (n s : string) :
  str_in n (strip s) = true -> str_in n s = true.
Proof.
  intros H. destruct (str_in_inv _ _ H) as (x & y & Hxy).
  destruct (lstrip_suffix s) as [a Ha].
  destruct (rstrip_prefix (lstrip s)) as [b Hb].
  unfold strip in Hxy. rewrite Hxy in Hb. rewrite Hb in Ha. rewrite Ha.
  rewrite !string_app_assoc. rewrite <- (string_app_assoc a x).
  apply str_in_app.
Qed.

Lemma str_forallb_lstrip (p : ascii -> bool) (s : string) :
  (forall c, is_space c = true -> p c = true) ->
  str_forallb p (lstrip s) = true -> str_forallb p s = true.
Proof.
  intros Hsp. induction s as [|c s IH]; cbn [lstrip]; [reflexivity|].
  destruct (is_space c) eqn:Hc; [|exact id].
  intros H. cbn [str_forallb]. rewrite (Hsp c Hc), (IH H). reflexivity.
Qed.

Lemma str_forallb_rstrip (p : ascii -> bool) (s : string) :
  (forall c, is_space c = true -> p c = true) ->
  str_forallb p (rstrip s) = true -> str_forallb p s = true.
Proof.
  intros Hsp. induction s as [|c s IH]; cbn [rstrip]; [reflexivity|].
  destruct (rstrip s) as [|d r].
  - destruct (is_space c) eqn:Hc; cbn [str_forallb]; intros H.
    + rewrite (Hsp c Hc), (IH eq_refl). reflexivity.
    + rewrite andb_true_r in H. rewrite H, (IH eq_refl). reflexivity.
  - intros H. cbn [str_forallb] in H |- *.
    apply andb_true_iff in H. destruct H as [Hc Hr].
    rewrite Hc, (IH Hr). reflexivity.
Qed.

Lemma space_is_no_price_char (c : ascii) :
  is_space c = true -> negb (is_digit_or_comma c) = true.
Proof.
  destruct c as [[] [] [] [] [] [] [] []]; vm_compute; congruence.
Qed.

Section ProductInfo.
Context {B : Bs4}.

Lemma first_price_sound (soup : Tag) (selectors : list string) (m : string) :
  first_price soup selectors = Some m ->
  exists sel e, In sel selectors /\ select_one soup sel = Some e
    /\ re_search_price (strip (get_text e)) = Some m.
Proof.
  induction selectors as [|sel rest IH]; cbn [first_price]; [discriminate|].
  destruct (select_one soup sel) as [e|] eqn:He.
  - destruct (re_search_price (strip (get_text e))) as [m'|] eqn:Hm.
    + intros [= ->]. exists sel, e. split; [left; reflexivity | split; assumption].
    + intros H. destruct (IH H) as (sel' & e' & Hin & Hs & Hr).
      exists sel', e'. split; [right; exact Hin | split; assumption].
  - intros H. destruct (IH H) as (sel' & e' & Hin & Hs & Hr).
    exists sel', e'. split; [right; exact Hin | split; assumption].
Qed.

Lemma first_price_none (soup : Tag) (selectors : list string) :
  first_price soup selectors = None ->
  forall sel e, In sel selectors -> select_one soup sel = Some e ->
  re_search_price (strip (get_text e)) = None.
Proof.
  induction selectors as [|sel0 rest IH]; cbn [first_price]; intros H sel e Hin He;
    [destruct Hin|].
  destruct Hin as [<- | Hin].
  - rewrite He in H.
    destruct (re_search_price (strip (get_text e))); [discriminate | reflexivity].
  - apply (IH ltac:(destruct (select_one soup sel0) as [e0|];
                    [destruct (re_search_price (strip (get_text e0)));
                     [discriminate | exact H] | exact H]) sel e Hin He).
Qed.

Lemma first_star_rating_nonempty (soup : Tag) (selectors : list string)
    (m : string) :
  first_star_rating soup selectors = Some m -> m <> ""%string.
Proof.
  induction selectors as [|sel rest IH]; cbn [first_star_rating]; [discriminate|].
  destruct (select_one soup sel) as [e|]; [|exact IH].
  destruct (re_search_number (get_text e)) as [m'|] eqn:Hm; [|exact IH].
  intros [= ->]. exact (re_search_number_nonempty _ _ Hm).
Qed.

Lemma or_not_found_nonempty (value : option string) :
  or_not_found value <> ""%string.
Proof. destruct value as [[|c s]|]; discriminate. Qed.

End ProductInfo.

Section ProductScraperFacts.
Context {B : Bs4}.

(** X21: the dictionary built from a product page always has the same
    seven keys.  The product id is the one passed in; price, brand, total
    ratings and star rating are never the empty string (missing data shows
    as "Not found"); the title and the feature bullets are stripped, and no
    bullet is empty. *)
Theorem product_info_fields (html_content product_id : string) :
  let info := _extract_product_info html_content product_id in
  (forall k, is_Some (info !! k)
     <-> In k [ "product_id"; "title"; "price"; "brand"; "about_this_item";
                "total_ratings"; "star_rating" ]%string)
  /\ info !! "product_id"%string = Some (Text product_id)
  /\ (exists t, info !! "title"%string = Some (Text t) /\ stripped t)
  /\ (forall k, In k [ "price"; "brand"; "total_ratings"; "star_rating" ]%string ->
      exists s, info !! k = Some (Text s) /\ s <> ""%string)
  /\ (exists l, info !! "about_this_item"%string = Some (Items l)
        /\ Forall (fun s => s <> ""%string /\ stripped s) l).
Proof.
  intros info. subst info. unfold _extract_product_info. cbv zeta.
  split; [|split; [|split; [|split]]].
  - intros k. split.
    + intros Hk. cbn [In].
      repeat match type of Hk with
             | is_Some (<[?j := _]> _ !! k) =>
               destruct (decide (j = k)) as [<-|Hne];
               [tauto | rewrite (lookup_insert_ne _ _ _ _ Hne) in Hk; clear Hne]
             end.
      rewrite lookup_empty in Hk. destruct Hk as [x Hx]. discriminate.
    + cbn [In]. intros Hk.
      repeat match type of Hk with
             | _ \/ _ => destruct Hk as [<- | Hk]
             end;
        try (destruct Hk);
        repeat (first [ rewrite lookup_insert_eq; eexists; reflexivity
                      | rewrite lookup_insert_ne by discriminate ]).
  - repeat (first [ rewrite lookup_insert_eq; reflexivity
                  | rewrite lookup_insert_ne by discriminate ]).
  - eexists. split.
    + repeat (first [ rewrite lookup_insert_eq; reflexivity
                    | rewrite lookup_insert_ne by discriminate ]).
    + destruct (select_one (BeautifulSoup html_content) PRODUCT_SELECTORS.title);
        [apply strip_stripped | split; reflexivity].
  - cbn [In]. intros k Hk.
    repeat match type of Hk with
           | _ \/ _ => destruct Hk as [<- | Hk]
           end; try (destruct Hk); eexists; (split;
      [ repeat (first [ rewrite lookup_insert_eq; reflexivity
                      | rewrite lookup_insert_ne by discriminate ]) |]).
    + destruct (first_price (BeautifulSoup html_content) PRODUCT_SELECTORS.price)
        as [[|c p]|]; discriminate.
    + apply or_not_found_nonempty.
    + destruct (select_one (BeautifulSoup html_content)
                  PRODUCT_SELECTORS.total_ratings) as [e|]; [|discriminate].
      destruct (re_search_count (strip (get_text e))) as [m|] eqn:Hm;
        [|discriminate].
      exact (proj1 (re_search_count_sound _ _ Hm)).
    + apply or_not_found_nonempty.
  - eexists. split.
    + repeat (first [ rewrite lookup_insert_eq; reflexivity
                    | rewrite lookup_insert_ne by discriminate ]).
    + induction (select (BeautifulSoup html_content) PRODUCT_SELECTORS.about_items)
        as [|item items IH]; [constructor|].
      cbn [map List.filter].
      destruct (strip (get_text item)) as [|c s] eqn:Hs; cbn [str_truthy];
        [exact IH|].
      constructor; [|exact IH]. split; [discriminate|].
      rewrite <- Hs. apply strip_stripped.
Qed.

(** X22: the price is read from the page.  Either it is the rupee sign
    followed by a non-empty string that occurs in the text of an element
    found by one of the price selectors and has no ASCII character other
    than digits, commas and dots (no letter, no space, no sign); or it is
    "Not found" and no element found by a price selector has an ASCII
    digit or a comma in its text. *)
Theorem product_price_is_read_from_the_page (html_content product_id : string) :
  let soup := BeautifulSoup html_content in
  let price := _extract_product_info html_content product_id !! "price"%string in
  (price = Some (Text "Not found")
   /\ forall sel e, In sel PRODUCT_SELECTORS.price ->
        select_one soup sel = Some e ->
        str_forallb (fun c => negb (is_digit_or_comma c)) (get_text e) = true)
  \/ (exists sel e m, In sel PRODUCT_SELECTORS.price
        /\ select_one soup sel = Some e
        /\ price = Some (Text ("₹" ++ m))
        /\ m <> ""%string
        /\ str_in m (get_text e) = true
        /\ str_forallb (fun c => is_price_char c || negb (is_ascii c)) m = true).
Proof.
  intros soup price. subst price. unfold _extract_product_info. cbv zeta.
  fold soup.
  rewrite !(lookup_insert_ne _ _ "price"%string) by discriminate.
  rewrite lookup_insert_eq.
  destruct (first_price soup PRODUCT_SELECTORS.price) as [m|] eqn:Hp.
  - right. destruct (first_price_sound _ _ _ Hp) as (sel & e & Hin & He & Hm).
    destruct (re_search_price_sound _ _ Hm) as (Hne & Hi & Hc).
    exists sel, e, m. split; [exact Hin|]. split; [exact He|].
    split; [destruct m; [destruct (Hne eq_refl) | reflexivity]|].
    split; [exact Hne|]. split; [apply str_in_strip; exact Hi|].
    revert Hc. apply str_forallb_weaken. intros c Hc. rewrite Hc. reflexivity.
  - left. split; [reflexivity|]. intros sel e Hin He.
    pose proof (first_price_none _ _ Hp sel e Hin He) as Hn.
    apply re_search_price_none in Hn. unfold strip in Hn.
    apply str_forallb_lstrip; [exact space_is_no_price_char|].
    apply str_forallb_rstrip; [exact space_is_no_price_char|]. exact Hn.
Qed.

(** X23: for a URL with a product id, [scrape_product] makes one call of
    the fetcher, for the canonical page "https://www.amazon.in/dp/<id>"
    whatever the form of the URL given, and every GET uses the scraper's
    session.  When the fetcher returns a response the extracted dictionary
    is returned and stored in [product_info], with the id under
    "product_id" and nothing logged; when it returns [None] the result is
    [None], the stored [product_info] is left as it was and one error is
    logged. *)
Theorem scrape_product_fetches_canonical_url (E : Env) (url product_id : string)
    (st : ProductScraper.state) :
  extract_product_id url = Some product_id ->
  let res := ProductScraper.scrape_product E url st in
  let response :=
    fst (make_request_with_backoff E (PRODUCT_URL product_id)
           (Some (ProductScraper.session (ProductScraper.self st))) 3
           (ProductScraper.world st)) in
  let evs := new_events (ProductScraper.world st)
               (ProductScraper.world (snd res)) in
  fetched_urls evs = [PRODUCT_URL product_id]
  /\ gets_use (ProductScraper.session (ProductScraper.self st))
       (PRODUCT_URL product_id) evs
  /\ ProductScraper.session (ProductScraper.self (snd res))
     = ProductScraper.session (ProductScraper.self st)
  /\ match response with
     | Some r =>
       fst res = Some (_extract_product_info (requests.text r) product_id)
       /\ ProductScraper.product_info (ProductScraper.self (snd res))
          = _extract_product_info (requests.text r) product_id
       /\ _extract_product_info (requests.text r) product_id
            !! "product_id"%string = Some (Text product_id)
       /\ ProductScraper.log (snd res) = ProductScraper.log st
     | None =>
       fst res = None
       /\ ProductScraper.product_info (ProductScraper.self (snd res))
          = ProductScraper.product_info (ProductScraper.self st)
       /\ ProductScraper.log (snd res)
          = ProductScraper.log st
            ++ [(ERROR, ProductScraper.Failed_to_retrieve_product_page)]
     end.
Proof.
  intros Hid res response evs. subst res response evs.
  unfold ProductScraper.scrape_product. rewrite Hid.
  pose proof (fetch_trace E (PRODUCT_URL product_id)
                (Some (ProductScraper.session (ProductScraper.self st))) 3
                (ProductScraper.world st)) as (k & r & evs & Hw & Hq).
  pose proof (fetch_gets_use E (PRODUCT_URL product_id)
                (Some (ProductScraper.session (ProductScraper.self st))) 3
                (ProductScraper.world st)) as Hg.
  pose proof (fetch_returns_200 E (PRODUCT_URL product_id)
                (Some (ProductScraper.session (ProductScraper.self st))) 3
                (ProductScraper.world st)) as H200.
  change (effective_session E
            (Some (ProductScraper.session (ProductScraper.self st)))
            (ProductScraper.world st))
    with (ProductScraper.session (ProductScraper.self st)) in Hg.
  destruct (make_request_with_backoff E (PRODUCT_URL product_id)
              (Some (ProductScraper.session (ProductScraper.self st))) 3
              (ProductScraper.world st)) as [resp w'] eqn:Hf.
  cbn [fst snd] in *.
  assert (Hev : new_events (ProductScraper.world st) w'
                = Fetch (PRODUCT_URL product_id) :: evs).
  { apply new_events_app. rewrite Hw. cbn [advance start_world trace].
    rewrite <- app_assoc. reflexivity. }
  destruct resp as [r0|].
  - unfold falsy. rewrite (ok_200 r0 (H200 r0 eq_refl)).
    cbn [negb fst snd ProductScraper.world ProductScraper.self
         ProductScraper.session ProductScraper.product_info ProductScraper.log].
    split; [rewrite Hev; cbn [fetched_urls]; rewrite (proj1 Hq); reflexivity|].
    split; [exact Hg|]. split; [reflexivity|].
    split; [reflexivity|]. split; [reflexivity|]. split; [|reflexivity].
    unfold _extract_product_info. cbv zeta.
    repeat (first [ rewrite lookup_insert_eq; reflexivity
                  | rewrite lookup_insert_ne by discriminate ]).
  - cbn [fst snd ProductScraper.world ProductScraper.self
         ProductScraper.session ProductScraper.product_info ProductScraper.log].
    split; [rewrite Hev; cbn [fetched_urls]; rewrite (proj1 Hq); reflexivity|].
    split; [exact Hg|]. repeat split.
Qed.

End ProductScraperFacts.

Lemma scrape_product_fetches_canonical_url_witness :
  extract_product_id "https://www.amazon.in/gp/product/B0CHX1W1XY?th=1"
  = Some product_id0
  /\ fetched_urls
       (new_events (ProductScraper.world product_state0)
          (ProductScraper.world
             (snd (@ProductScraper.scrape_product product_bs4
                     (env_always product_page)
                     "https://www.amazon.in/gp/product/B0CHX1W1XY?th=1"
                     product_state0))))
     = [PRODUCT_URL product_id0].
Proof.
  assert (H : extract_product_id
                "https://www.amazon.in/gp/product/B0CHX1W1XY?th=1"
              = Some product_id0) by reflexivity.
  split; [exact H|].
  exact (proj1 (@scrape_product_fetches_canonical_url product_bs4
                  (env_always product_page) _ _ product_state0 H)).
Defined.

(** ** The worker pool: progress and termination *)



Lemma work_update (c : Pool.config) (i : nat) (p p' : Pool.pc) (s f k : Z) :
  Pool.threads c !! i = Some p ->
  (work (Pool.update c i p' s f k) + remaining_steps p
   = work c + remaining_steps p')%nat.
Proof.
  unfold work, Pool.update. cbn [Pool.threads].
  generalize (Pool.threads c). intros l. revert i.
  induction l as [|q l IH]; intros i Hi; [discriminate|].
  destruct i as [|i]; simpl in Hi |- *.
  - injection Hi as ->. lia.
  - specialize (IH i Hi). lia.
Qed.

Lemma work_step (c c' : Pool.config) :
  Pool.step c c' -> (work c' < work c)%nat.
Proof.
  intros Hstep.
  destruct Hstep as [i Hi Hs|i Hi|i Hi|i Hi|i Hi|i v Hi|i Hi|i v Hi|i n Hi|i Hi|i o Hi];
    match goal with
    | |- (work (Pool.update _ _ ?p' ?s ?f ?k) < _)%nat =>
      pose proof (work_update c i _ p' s f k Hi) as Hw
    end; cbn [remaining_steps] in Hw; lia.
Qed.

Lemma work_init (max_threads : Z) (tasks : nat) :
  work (Pool.init max_threads tasks) = (6 * tasks)%nat.
Proof.
  unfold work, Pool.init. cbn [Pool.threads].
  induction tasks as [|n IH]; simpl in *; [reflexivity | lia].
Qed.

Lemma pool_run_nsteps (schedule : list Pool.action) :
  forall c c', Pool.run schedule c = Some c' ->
  nsteps Pool.step (List.length schedule) c c'.
Proof.
  induction schedule as [|a rest IH]; intros c c' Hrun; simpl in Hrun.
  - injection Hrun as <-. constructor.
  - destruct (Pool.exec a c) as [c1|] eqn:Ha; [|discriminate].
    eapply nsteps_l; [apply (pool_exec_step a); exact Ha | apply IH; exact Hrun].
Qed.



(** X25: the pool terminates.  A run of the pool from its start takes at
    most six steps per task, whatever the schedule and the outcomes of the
    fetches; a run that is six steps per task long ends with every task
    finished. *)
Theorem pool_runs_are_bounded (C : Z) (tasks n : nat) (c : Pool.config) :
  nsteps Pool.step n (Pool.init C tasks) c ->
  (n <= 6 * tasks)%nat
  /\ (n = (6 * tasks)%nat -> ~ unfinished c).
Proof.
  intros Hn.
  assert (Hgen : forall n c0 c1, nsteps Pool.step n c0 c1 ->
                   (n + work c1 <= work c0)%nat).
  { clear. intros n c0 c1 Hn. induction Hn as [c0|n c0 c1 c2 Hs _ IH]; [lia|].
    pose proof (work_step c0 c1 Hs). lia. }
  pose proof (Hgen n _ _ Hn) as Hle. rewrite work_init in Hle.
  split; [lia|]. intros -> (i & p & Hi & Hp).
  assert (Hw : work c = 0%nat) by lia.
  assert (Hall : forall l : list Pool.pc, list_sum (map remaining_steps l) = 0%nat ->
            forall i p, l !! i = Some p -> remaining_steps p = 0%nat).
  { clear. intros l. induction l as [|q l IH]; intros Hs i p Hi; [discriminate|].
    simpl in Hs. destruct i as [|i]; simpl in Hi.
    - injection Hi as ->. lia.
    - apply (IH ltac:(lia) i p Hi). }
  pose proof (Hall _ Hw i p Hi) as Hp0.
  destruct p; try discriminate.
Qed.

Lemma pool_runs_are_bounded_witness :
  nsteps Pool.step 10 (Pool.init 2 2)
    {| Pool.threads := [Pool.Finished Pool.Counted_failure;
                        Pool.Finished Pool.Counted_failure];
       Pool.semaphore := 2; Pool.failed_requests := 1;
       Pool.successful_requests := 0 |}
  /\ (10 <= 6 * 2)%nat.
Proof.
  assert (Hn : nsteps Pool.step 10 (Pool.init 2 2)
                 {| Pool.threads := [Pool.Finished Pool.Counted_failure;
                                     Pool.Finished Pool.Counted_failure];
                    Pool.semaphore := 2; Pool.failed_requests := 1;
                    Pool.successful_requests := 0 |}).
  { apply (pool_run_nsteps Pool.racing_schedule). reflexivity. }
  split; [exact Hn|].
  exact (proj1 (pool_runs_are_bounded 2 2 10 _ Hn)).
Defined.

(** ** utils.py: cookies *)

Section CookieFacts.
Context {V : Type} `{Countable V}.

Lemma fold_cookies_lookup (cookies : list (gmap string V))
    (acc : gmap (option V) (option V)) (name : option V) :
  fold_left
    (fun cookies_dict cookie =>
       <[cookie !! "name"%string := cookie !! "value"%string]> cookies_dict)
    cookies acc !! name
  = match last (named name cookies) with
    | Some cookie => Some (cookie !! "value"%string)
    | None => acc !! name
    end.
Proof.
  induction cookies as [|cookie cookies IH] using rev_ind; [reflexivity|].
  rewrite fold_left_app. cbn [fold_left]. unfold named in *.
  rewrite List.filter_app. cbn [List.filter].
  destruct (decide (cookie !! "name"%string = name)) as [Heq|Hne].
  - rewrite (bool_decide_eq_true_2 _ Heq). rewrite last_snoc.
    rewrite Heq. apply lookup_insert_eq.
  - rewrite (bool_decide_eq_false_2 _ Hne). rewrite app_nil_r.
    rewrite lookup_insert_ne by exact Hne. exact IH.
Qed.

(** X26: in the dictionary made from browser cookies, the entry of a name
    is the value of the last cookie of the list that carries the name, and
    a name no cookie carries has no entry: of two cookies with one name
    (for two domains or paths) only the later one is kept.  [None] and the
    empty list give the empty dictionary. *)
Theorem convert_cookies_last_wins (cookies : option (list (gmap string V)))
    (name : option V) :
  convert_cookies_for_requests cookies !! name
  = match cookies with
    | Some l => match last (named name l) with
                | Some cookie => Some (cookie !! "value"%string)
                | None => None
                end
    | None => None
    end.
Proof.
  destruct cookies as [[|cookie l]|]; [reflexivity| |reflexivity].
  unfold convert_cookies_for_requests.
  rewrite fold_cookies_lookup. rewrite lookup_empty. reflexivity.
Qed.

End CookieFacts.
